(** * Outbreak forecasting: feature engineering and per-city forecasting

    A shallow embedding of [data_processing/feature_engineering.py]
    (class [FeatureEngineer]) and [models/forecaster.py]
    (class [DengueProphetForecaster]).

    A pandas data frame is a list of named columns, a column a list of
    cells.  A cell is missing ([NaN]), a number, a text or a timestamp.
    Numbers are exact rationals; the three floating-point primitives the
    code calls (square root, sine, cosine) and pandas' date parser are
    parameters of the development, so every result holds whatever their
    rounding.  The Prophet engine ([fit], [make_future_dataframe],
    [predict]) is a parameter of the forecaster. *)

From Stdlib Require Import List String Ascii Bool Arith ZArith QArith Lia.
From Stdlib Require Import Permutation DecimalString Qround Sorted.
Import ListNotations.

Local Open Scope string_scope.
Local Open Scope Z_scope.

(* ================================================================== *)
(** ** Errors *)
(* ================================================================== *)

(** The Python exceptions the two classes can let escape. *)
Inductive error : Type :=
| KeyError (names : list string)
| ValueError (msg : string)
| TypeError (msg : string)
| IndexError (msg : string)
| AttributeError (msg : string).

Inductive result (A : Type) : Type :=
| Ok (a : A)
| Raise (e : error).

Arguments Ok {A} a.
Arguments Raise {A} e.

Definition bind {A B : Type} (r : result A) (k : A -> result B) : result B :=
  match r with
  | Ok a => k a
  | Raise e => Raise e
  end.

Notation "x <- e ;; k" := (bind e (fun x => k))
  (at level 61, e at next level, right associativity).

Fixpoint mapM {A B : Type} (f : A -> result B) (l : list A) : result (list B) :=
  match l with
  | [] => Ok []
  | a :: l' =>
      b <- f a ;;
      bs <- mapM f l' ;;
      Ok (b :: bs)
  end.

Fixpoint foldM {A B : Type} (f : B -> A -> result B) (l : list A) (b : B)
  : result B :=
  match l with
  | [] => Ok b
  | a :: l' => b' <- f b a ;; foldM f l' b'
  end.

(* ================================================================== *)
(** ** Cells, columns and frames *)
(* ================================================================== *)

Record date : Type := mkDate { year : Z; month : Z; day : Z }.

Inductive cell : Type :=
| NaN
| Num (q : Q)
| Str (s : string)
| Ts (d : date).

Definition isna (c : cell) : bool :=
  match c with NaN => true | _ => false end.

Definition notna (c : cell) : bool := negb (isna c).

Definition date_eqb (a b : date) : bool :=
  (year a =? year b) && (month a =? month b) && (day a =? day b).

(** Equality of group keys.  Numbers are compared by representation (keys
    are city names and dates); a missing key equals nothing. *)
Definition cell_eqb (a b : cell) : bool :=
  match a, b with
  | Num p, Num q => (Qnum p =? Qnum q) && (Pos.eqb (Qden p) (Qden q))
  | Str s, Str t => String.eqb s t
  | Ts d, Ts e => date_eqb d e
  | _, _ => false
  end.

Definition series : Type := list cell.

Definition DataFrame : Type := list (string * series).

Definition columns (df : DataFrame) : list string := map fst df.

Definition nrows (df : DataFrame) : nat :=
  match df with
  | [] => 0%nat
  | (_, v) :: _ => List.length v
  end.

Fixpoint get_col (df : DataFrame) (name : string) : option series :=
  match df with
  | [] => None
  | (n, v) :: rest => if String.eqb n name then Some v else get_col rest name
  end.

Definition has_col (df : DataFrame) (name : string) : bool :=
  match get_col df name with Some _ => true | None => false end.

(** [df[name]] *)
Definition getitem (df : DataFrame) (name : string) : result series :=
  match get_col df name with
  | Some v => Ok v
  | None => Raise (KeyError [name])
  end.

(** [df[name] = values]: an existing column keeps its place, a new one is
    appended. *)
Fixpoint set_col (df : DataFrame) (name : string) (v : series) : DataFrame :=
  match df with
  | [] => [(name, v)]
  | (n, w) :: rest =>
      if String.eqb n name then (n, v) :: rest
      else (n, w) :: set_col rest name v
  end.

(** [df[name] = scalar] *)
Definition set_scalar (df : DataFrame) (name : string) (c : cell) : DataFrame :=
  set_col df name (repeat c (nrows df)).

(** The cell of column [name] at row [i]; missing when there is none. *)
Definition cell_at (df : DataFrame) (name : string) (i : nat) : cell :=
  match get_col df name with
  | Some v => nth i v NaN
  | None => NaN
  end.

(** The cells of a column; none when the frame has no such column. *)
Definition column (df : DataFrame) (name : string) : series :=
  match get_col df name with
  | Some v => v
  | None => []
  end.

(** [df[[n1, ..., nk]]] *)
Definition select (df : DataFrame) (names : list string) : result DataFrame :=
  match filter (fun n => negb (has_col df n)) names with
  | [] => Ok (map (fun n => (n, column df n)) names)
  | missing => Raise (KeyError missing)
  end.

(** [df.rename(columns=mapping)] *)
Fixpoint rename_one (mapping : list (string * string)) (n : string) : string :=
  match mapping with
  | [] => n
  | (old, new) :: rest => if String.eqb old n then new else rename_one rest n
  end.

Definition rename (df : DataFrame) (mapping : list (string * string))
  : DataFrame :=
  map (fun '(n, v) => (rename_one mapping n, v)) df.

Definition mem_string (s : string) (l : list string) : bool :=
  existsb (String.eqb s) l.

(** Keep the rows whose mask is true. *)
Fixpoint mask_filter {A : Type} (mask : list bool) (l : list A) : list A :=
  match mask, l with
  | b :: mask', a :: l' =>
      if b then a :: mask_filter mask' l' else mask_filter mask' l'
  | _, _ => []
  end.

Definition filter_rows (mask : list bool) (df : DataFrame) : DataFrame :=
  map (fun '(n, v) => (n, mask_filter mask v)) df.

(** [df[names] = sub]: the columns of [sub] are written back one by one. *)
Definition assign_cols (df : DataFrame) (names : list string) (sub : DataFrame)
  : DataFrame :=
  fold_left
    (fun d n => match get_col sub n with
                | Some v => set_col d n v
                | None => d
                end)
    names df.

(** Every column has as many cells as the frame has rows. *)
Definition rectangular (df : DataFrame) : Prop :=
  forall n v, In (n, v) df -> List.length v = nrows df.

Definition rectangularb (df : DataFrame) : bool :=
  forallb (fun '(_, v) => Nat.eqb (List.length v) (nrows df)) df.

(* ================================================================== *)
(** ** The pandas operations the two classes call *)
(* ================================================================== *)

(** The floating-point and parsing primitives, left abstract. *)
Class Primitives : Type := {
  sqrtQ : Q -> Q;            (* np.sqrt *)
  sin_turn : Q -> Q;         (* t |-> np.sin(2 * np.pi * t) *)
  cos_turn : Q -> Q;         (* t |-> np.cos(2 * np.pi * t) *)
  parse_datetime : cell -> result date   (* pd.to_datetime on text, numbers *)
}.

Module Pandas.

(** *** Numeric views *)

(** The numeric view of a cell, for columns that hold numbers and missing
    cells.  Text is refused.  Two behaviours of pandas on text lie outside
    this view: a rolling window reads text that spells a number as that
    number (and refuses any other text with a [DataError]), and ['sum']
    concatenates text.  What is proved through this view is proved of
    numeric columns. *)
Definition as_float (c : cell) : result (option Q) :=
  match c with
  | NaN => Ok None
  | Num q => Ok (Some q)
  | _ => Raise (TypeError "No numeric types to aggregate")
  end.

Definition floats (s : series) : result (list (option Q)) := mapM as_float s.

Definition of_float (o : option Q) : cell :=
  match o with Some q => Num q | None => NaN end.

(** The non-missing observations of a window. *)
Fixpoint observations (l : list (option Q)) : list Q :=
  match l with
  | [] => []
  | Some q :: l' => q :: observations l'
  | None :: l' => observations l'
  end.

Definition Qsum (l : list Q) : Q := fold_right Qplus 0%Q l.

Definition Qlen (l : list Q) : Q := inject_Z (Z.of_nat (List.length l)).

Definition Qmean (l : list Q) : Q := Qred (Qsum l / Qlen l).

(** Sample variance, [ddof] degrees of freedom removed. *)
Definition Qvar (ddof : nat) (l : list Q) : Q :=
  let m := Qmean l in
  Qred (Qsum (map (fun x => (x - m) * (x - m))%Q l)
        / inject_Z (Z.of_nat (List.length l - ddof))).

(** *** Rolling windows: [x.rolling(window, min_periods=k)] *)

(** The trailing window that ends at position [p]. *)
Definition window_at {A : Type} (w : nat) (xs : list A) (p : nat) : list A :=
  skipn (S p - w) (firstn (S p) xs).

Definition rolling (w : nat) (agg : list Q -> option Q)
  (xs : list (option Q)) : list (option Q) :=
  map (fun p => agg (observations (window_at w xs p)))
      (seq 0 (List.length xs)).

(** [.mean()]: a value as soon as [min_periods] observations are there
    (and at least one). *)
Definition mean_agg (min_periods : nat) (obs : list Q) : option Q :=
  if (min_periods <=? List.length obs)%nat && (1 <=? List.length obs)%nat
  then Some (Qmean obs)
  else None.

(** [.std()]: pandas' default [ddof=1]; a value needs more observations than
    [ddof], whatever [min_periods]. *)
Definition std_agg `{Primitives} (min_periods : nat) (obs : list Q) : option Q :=
  if (min_periods <=? List.length obs)%nat && (2 <=? List.length obs)%nat
  then Some (sqrtQ (Qvar 1 obs))
  else None.

(** *** Group-wise transforms: [df.groupby(key)[col].transform(f)] *)

(** The values of the rows whose key is [k], in frame order. *)
Definition group_values {A : Type} (k : cell) (keys : series) (vals : list A)
  : list A :=
  mask_filter (map (cell_eqb k) keys) vals.

Definition count_key (k : cell) (keys : series) : nat :=
  List.length (filter (cell_eqb k) keys).

(** Each row receives the cell its group's transformed series holds at the
    row's position inside the group; [seen] are the keys of the rows above.
    A row whose key is missing belongs to no group and receives [d]. *)
Fixpoint scatter {A : Type} (d : A) (f : list A -> list A)
  (all_keys : series) (all_vals : list A) (seen keys : series) : list A :=
  match keys with
  | [] => []
  | k :: rest =>
      (if isna k then d
       else nth (count_key k seen) (f (group_values k all_keys all_vals)) d)
      :: scatter d f all_keys all_vals (seen ++ [k])%list rest
  end.

Definition groupby_transform {A : Type} (d : A) (f : list A -> list A)
  (keys : series) (vals : list A) : list A :=
  scatter d f keys vals [] keys.

(** [s.shift(n)] for [n >= 0] *)
Definition shift {A : Type} (d : A) (n : nat) (l : list A) : list A :=
  firstn (List.length l) (repeat d n ++ l).

(** [s.fillna(v)] *)
Definition fillna (v : cell) (s : series) : series :=
  map (fun c => if isna c then v else c) s.

(** [s.fillna(method='ffill')] *)
Fixpoint ffill_from (last : cell) (s : series) : series :=
  match s with
  | [] => []
  | c :: rest =>
      if isna c then last :: ffill_from last rest
      else c :: ffill_from c rest
  end.

Definition ffill (s : series) : series := ffill_from NaN s.

(** [s.fillna(method='bfill')] *)
Fixpoint bfill (s : series) : series :=
  match s with
  | [] => []
  | c :: rest =>
      let rest' := bfill rest in
      (if isna c then hd NaN rest' else c) :: rest'
  end.

Definition map_cols (f : series -> series) (df : DataFrame) : DataFrame :=
  map (fun '(n, v) => (n, f v)) df.

(** [df.dropna(subset=names)] *)
Definition dropna (df : DataFrame) (subset : list string) : result DataFrame :=
  match filter (fun n => negb (has_col df n)) subset with
  | [] =>
      let keep i := forallb (fun n => notna (cell_at df n i)) subset in
      Ok (filter_rows (map keep (seq 0 (nrows df))) df)
  | missing => Raise (KeyError missing)
  end.

(** *** Comparisons *)

(** [s >= c], [s > c], ...: false on a missing cell. *)
Definition compare (test : Q -> bool) (s : series) : result (list bool) :=
  mapM (fun c => match c with
                 | NaN => Ok false
                 | Num q => Ok (test q)
                 | _ => Raise (TypeError "not supported between str and int")
                 end) s.

Definition and_mask (a b : list bool) : list bool :=
  map (fun '(x, y) => x && y) (combine a b).

Definition astype_int (m : list bool) : series :=
  map (fun b : bool => if b then Num 1 else Num 0) m.

(** [Qge_bool c x] is [x >= c] and [Qgt_bool c x] is [x > c]. *)
Definition Qge_bool (c x : Q) : bool := Qle_bool c x.
Definition Qgt_bool (c x : Q) : bool := negb (Qle_bool x c).

(** *** Binning: [pd.cut(s, bins, labels, right=True)] *)

Fixpoint cut_bins (v : Q) (bins : list Q) (labels : list string) : cell :=
  match bins, labels with
  | lo :: ((hi :: _) as rest), lab :: labs =>
      if Qgt_bool lo v && Qle_bool v hi then Str lab
      else cut_bins v rest labs
  | _, _ => NaN
  end.

Definition cut (s : series) (bins : list Q) (labels : list string)
  : result series :=
  mapM (fun c => match c with
                 | NaN => Ok NaN
                 | Num q => Ok (cut_bins q bins labels)
                 | _ => Raise (TypeError "cut needs numbers")
                 end) s.

(** *** Dates *)

Definition to_datetime_cell `{Primitives} (c : cell) : result cell :=
  match c with
  | NaN => Ok NaN
  | Ts d => Ok (Ts d)
  | other => d <- parse_datetime other ;; Ok (Ts d)
  end.

(** [pd.to_datetime(s)] *)
Definition to_datetime `{Primitives} (s : series) : result series :=
  mapM to_datetime_cell s.

Definition is_leap (y : Z) : bool :=
  ((y mod 4 =? 0) && negb (y mod 100 =? 0)) || (y mod 400 =? 0).

Definition days_in_month (y m : Z) : Z :=
  if m =? 2 then (if is_leap y then 29 else 28)
  else if (m =? 4) || (m =? 6) || (m =? 9) || (m =? 11) then 30
  else 31.

Definition days_before_month (y m : Z) : Z :=
  fold_right Z.add 0
    (map (fun k => days_in_month y (Z.of_nat k)) (seq 1 (Z.to_nat (m - 1)))).

Definition dayofyear (d : date) : Z := days_before_month (year d) (month d) + day d.

(** Days since 0001-01-01, that day being 1. *)
Definition ordinal (d : date) : Z :=
  let y := year d - 1 in
  y * 365 + y / 4 - y / 100 + y / 400 + dayofyear d.

(** Monday is 0. *)
Definition dayofweek (d : date) : Z := (ordinal d + 6) mod 7.

Definition isoweek1monday (y : Z) : Z :=
  let firstday := ordinal (mkDate y 1 1) in
  let firstweekday := (firstday + 6) mod 7 in
  let week1monday := firstday - firstweekday in
  if 3 <? firstweekday then week1monday + 7 else week1monday.

(** [isocalendar().week] *)
Definition isoweek (d : date) : Z :=
  let today := ordinal d in
  let week := (today - isoweek1monday (year d)) / 7 in
  if week <? 0 then (today - isoweek1monday (year d - 1)) / 7 + 1
  else if (52 <=? week) && (isoweek1monday (year d + 1) <=? today) then 1
  else week + 1.

(** [s.dt.field] *)
Definition dt (field : date -> Z) (s : series) : result series :=
  mapM (fun c => match c with
                 | NaN => Ok NaN
                 | Ts d => Ok (Num (inject_Z (field d)))
                 | _ => Raise (AttributeError
                          "Can only use .dt accessor with datetimelike values")
                 end) s.

(** [ufunc(s / max_val)], missing where [s] is. *)
Definition map_float (f : Q -> Q) (s : series) : result series :=
  mapM (fun c => match c with
                 | NaN => Ok NaN
                 | Num q => Ok (Num (f q))
                 | _ => Raise (TypeError "unsupported operand")
                 end) s.

(** [pd.concat(frames, ignore_index=True)]: the union of the columns in
    order of first appearance, a frame without a column contributing
    missing cells. *)
Fixpoint first_occurrences (seen l : list string) : list string :=
  match l with
  | [] => []
  | x :: l' =>
      if mem_string x seen then first_occurrences seen l'
      else x :: first_occurrences (x :: seen) l'
  end.

Definition concat (frames : list DataFrame) : result DataFrame :=
  match frames with
  | [] => Raise (ValueError "No objects to concatenate")
  | _ =>
      let names := first_occurrences [] (flat_map columns frames) in
      Ok (map (fun n =>
                 (n, flat_map (fun f => match get_col f n with
                                        | Some v => v
                                        | None => repeat NaN (nrows f)
                                        end) frames))
              names)
  end.

End Pandas.

(* ================================================================== *)
(** ** data_processing/feature_engineering.py *)
(* ================================================================== *)

Module FeatureEngineer.
Import Pandas.

Section Methods.
Context {prim : Primitives}.

(** [__init__]: the object's state is its own frame, the date column
    parsed. *)
Definition init (df : DataFrame) : result DataFrame :=
  raw <- getitem df "date" ;;
  parsed <- to_datetime raw ;;
  Ok (set_col df "date" parsed).

(** [self.df[name] = self.df['date'].dt.field] *)
Definition add_dt (name : string) (field : date -> Z) (df : DataFrame)
  : result DataFrame :=
  d <- getitem df "date" ;;
  v <- dt field d ;;
  Ok (set_col df name v).

Definition season_bins : list Q := [0; 5; 10; 12]%Q.
Definition season_labels : list string := ["Dry"; "Rainy"; "Dry"].

Definition cyclic_periods : list (string * Z) :=
  [("month", 12); ("day_of_year", 365); ("week_of_year", 52);
   ("day_of_week", 7)].

(** One turn of the loop over [(col, max_val)]. *)
Definition cyclic_step (df : DataFrame) (cm : string * Z) : result DataFrame :=
  let '(col, max_val) := cm in
  x <- getitem df col ;;
  s <- map_float (fun q => sin_turn (q / inject_Z max_val)) x ;;
  let df := set_col df (col ++ "_sin") s in
  x <- getitem df col ;;
  c <- map_float (fun q => cos_turn (q / inject_Z max_val)) x ;;
  Ok (set_col df (col ++ "_cos") c).

Definition create_temporal_features (df : DataFrame) : result DataFrame :=
  df <- add_dt "month" month df ;;
  df <- add_dt "year" year df ;;
  df <- add_dt "day_of_year" dayofyear df ;;
  df <- add_dt "week_of_year" isoweek df ;;
  df <- add_dt "day_of_week" dayofweek df ;;
  m <- getitem df "month" ;;
  season <- cut m season_bins season_labels ;;
  let df := set_col df "season" season in
  foldM cyclic_step cyclic_periods df.

Definition weather_cols : list string :=
  ["temperature_2m_max"; "temperature_2m_min";
   "precipitation_sum"; "wind_speed_10m_max"].

Definition windows : list nat := [3; 7; 14]%nat.

Definition lag_days : list nat := [3; 7; 14]%nat.

Definition exclude_columns : list string :=
  ["latitude"; "longitude"; "country"; "country_id";
   "status"; "occurrence_id"; "vector"; "source_type";
   "location_type"; "city"; "date"].

(** The decimal text of a number, as an f-string prints it. *)
Definition fmt (n : nat) : string := NilZero.string_of_uint (Nat.to_uint n).

(** [f'{col}_{window}d_mean'] and [f'{col}_{window}d_std'] *)
Definition stat_name (col : string) (w : nat) (stat : string) : string :=
  col ++ "_" ++ fmt w ++ "d_" ++ stat.

(** [f'breeding_conditions_lag_{lag}'] *)
Definition lag_name (lag : nat) : string := "breeding_conditions_lag_" ++ fmt lag.

(** [self.df.groupby('city')[col]
       .transform(lambda x: x.rolling(window, min_periods=1).agg())] *)
Definition grouped_rolling (df : DataFrame) (col : string) (w : nat)
  (agg : list Q -> option Q) : result series :=
  keys <- getitem df "city" ;;
  vals <- getitem df col ;;
  x <- floats vals ;;
  Ok (map of_float (groupby_transform None (rolling w agg) keys x)).

(** One turn of the nested loop over [(col, window)]. *)
Definition rolling_step (df : DataFrame) (cw : string * nat) : result DataFrame :=
  let '(col, w) := cw in
  m <- grouped_rolling df col w (mean_agg 1) ;;
  let df := set_col df (stat_name col w "mean") m in
  s <- grouped_rolling df col w (std_agg 1) ;;
  Ok (set_col df (stat_name col w "std") s).

(** Lines 69-80: the rolling window statistics. *)
Definition rolling_stage (df : DataFrame) : result DataFrame :=
  foldM rolling_step (list_prod weather_cols windows) df.

(** Lines 82-91: the two disease-specific indicators. *)
Definition indicator_stage (df : DataFrame) : result DataFrame :=
  tmax <- getitem df "temperature_2m_max" ;;
  ge25 <- compare (Qge_bool 25) tmax ;;
  tmax <- getitem df "temperature_2m_max" ;;
  le35 <- compare (fun x => Qle_bool x 35) tmax ;;
  let df := set_col df "optimal_mosquito_temp"
              (astype_int (and_mask ge25 le35)) in
  prec <- getitem df "precipitation_sum" ;;
  wet <- compare (Qgt_bool 0) prec ;;
  tmin <- getitem df "temperature_2m_min" ;;
  warm <- compare (Qgt_bool 20) tmin ;;
  Ok (set_col df "breeding_conditions" (astype_int (and_mask wet warm))).

(** One turn of the loop over [lag_days]. *)
Definition lag_step (df : DataFrame) (lag : nat) : result DataFrame :=
  keys <- getitem df "city" ;;
  b <- getitem df "breeding_conditions" ;;
  Ok (set_col df (lag_name lag)
        (fillna (Num 0) (groupby_transform NaN (shift NaN lag) keys b))).

(** Lines 93-99: the lagged breeding conditions. *)
Definition lag_stage (df : DataFrame) : result DataFrame :=
  foldM lag_step lag_days df.

Definition all_weather_columns (df : DataFrame) : list string :=
  filter (fun col => negb (mem_string col exclude_columns)) (columns df).

(** [self.df[cols] = self.df[cols].fillna(method=...)] *)
Definition fill_columns (fill : series -> series) (cols : list string)
  (df : DataFrame) : result DataFrame :=
  sub <- select df cols ;;
  Ok (assign_cols df cols (map_cols fill sub)).

(** Lines 101-112: forward fill, then backward fill, of every column that
    is not excluded. *)
Definition fill_stage (df : DataFrame) : result DataFrame :=
  let cols := all_weather_columns df in
  df <- fill_columns ffill cols df ;;
  fill_columns bfill cols df.

(** Lines 63-99: the derived columns, before any repair. *)
Definition derive_weather_features (df : DataFrame) : result DataFrame :=
  df <- rolling_stage df ;;
  df <- indicator_stage df ;;
  lag_stage df.

(** Lines 63-112: everything but the final row filter. *)
Definition repaired_weather_features (df : DataFrame) : result DataFrame :=
  df <- derive_weather_features df ;;
  fill_stage df.

Definition create_weather_features (df : DataFrame) : result DataFrame :=
  df <- repaired_weather_features df ;;
  dropna df exclude_columns.

End Methods.
End FeatureEngineer.

(* ================================================================== *)
(** ** models/forecaster.py *)
(* ================================================================== *)

(** The arguments of the [Prophet(...)] constructor. *)
Record prophet_params : Type := {
  seasonality_mode : string;
  yearly_seasonality : bool;
  weekly_seasonality : bool;
  daily_seasonality : bool;
  changepoint_prior_scale : Q;
  seasonality_prior_scale : Q
}.

(** The forecasting engine: what [Prophet] offers to the forecaster.  [fit]
    receives the constructor's arguments and the regressors registered with
    [add_regressor] before the call. *)
Class Engine : Type := {
  model : Type;
  fit : prophet_params -> list string -> DataFrame -> result model;
  make_future_dataframe : model -> nat -> DataFrame;
  predict : model -> DataFrame -> result DataFrame
}.

Module GroupBy.
Import Pandas.

(** *** Ordering of group keys *)

Definition date_compare (a b : date) : comparison :=
  match year a ?= year b with
  | Eq => match month a ?= month b with
          | Eq => day a ?= day b
          | c => c
          end
  | c => c
  end.

Definition rank (c : cell) : nat :=
  match c with NaN => 0 | Num _ => 1 | Str _ => 2 | Ts _ => 3 end%nat.

Definition cell_compare (a b : cell) : comparison :=
  match a, b with
  | Num p, Num q => Qcompare p q
  | Str s, Str t => String.compare s t
  | Ts d, Ts e => date_compare d e
  | _, _ => Nat.compare (rank a) (rank b)
  end.

Definition cell_leb (a b : cell) : bool :=
  match cell_compare a b with Gt => false | _ => true end.

Definition key : Type := (cell * cell)%type.

Definition key_eqb (a b : key) : bool :=
  cell_eqb (fst a) (fst b) && cell_eqb (snd a) (snd b).

Definition key_leb (a b : key) : bool :=
  match cell_compare (fst a) (fst b) with
  | Lt => true
  | Eq => cell_leb (snd a) (snd b)
  | Gt => false
  end.

Section Sorting.
Context {A : Type} (eqb leb : A -> A -> bool).

Fixpoint dedup (l : list A) : list A :=
  match l with
  | [] => []
  | a :: l' => if existsb (eqb a) l' then dedup l' else a :: dedup l'
  end.

Fixpoint insert (a : A) (l : list A) : list A :=
  match l with
  | [] => [a]
  | b :: l' => if leb a b then a :: b :: l' else b :: insert a l'
  end.

Fixpoint sort (l : list A) : list A :=
  match l with
  | [] => []
  | a :: l' => insert a (sort l')
  end.

End Sorting.

(** A row enters a group only when none of its keys is missing. *)
Definition valid_key (k : key) : bool := notna (fst k) && notna (snd k).

(** The groups of [df.groupby([k1, k2])], sorted by key. *)
Definition group_keys (keys : list key) : list key :=
  sort key_leb (dedup key_eqb (filter valid_key keys)).

Definition group_rows {A : Type} (k : key) (keys : list key) (vals : list A)
  : list A :=
  mask_filter (map (key_eqb k) keys) vals.

(** ['sum'] on a column of numbers: missing cells are skipped, an empty
    sum is 0.  The sum is exact, where an [int64] column would wrap around
    past 2^63; text, which pandas concatenates, is refused. *)
Definition agg_sum (g : series) : result cell :=
  x <- floats g ;;
  Ok (Num (Qred (Qsum (observations x)))).

(** ['first']: the first cell of the group that is not missing. *)
Definition agg_first (g : series) : cell := hd NaN (filter notna g).

(** The groups of [df.groupby(k)], sorted by key. *)
Definition single_keys (keys : series) : series :=
  sort cell_leb (dedup cell_eqb (filter notna keys)).

End GroupBy.

Module DengueProphetForecaster.
Import Pandas GroupBy.

Section Methods.
Context {prim : Primitives} {engine : Engine}.

(** [__init__] *)
Definition init (df : DataFrame) : result DataFrame :=
  raw <- getitem df "date" ;;
  parsed <- to_datetime raw ;;
  Ok (set_col df "date" parsed).

(** Lines 18-23: [groupby(['date', 'city']).agg({...}).reset_index()] *)
Definition aggregate (df : DataFrame) (target : string) : result DataFrame :=
  dates <- getitem df "date" ;;
  cities <- getitem df "city" ;;
  let others :=
    filter (fun col => negb (mem_string col ["date"; "city"; target]))
           (columns df) in
  tvals <- getitem df target ;;
  let keys := combine dates cities in
  let groups := group_keys keys in
  sums <- mapM (fun k => agg_sum (group_rows k keys tvals)) groups ;;
  let firsts :=
    map (fun col =>
           (col, map (fun k => agg_first (group_rows k keys (column df col)))
                     groups))
        others in
  Ok (("date", map fst groups) :: ("city", map snd groups)
      :: (target, sums) :: firsts).

Definition prepare_data (df : DataFrame) (target : string)
  : result (list (cell * DataFrame)) :=
  aggregated_data <- aggregate df target ;;
  cities <- getitem aggregated_data "city" ;;
  Ok (map (fun city =>
             (city,
              rename (filter_rows (map (cell_eqb city) cities) aggregated_data)
                     [("date", "ds"); (target, "y")]))
          (single_keys cities)).

Definition params : prophet_params := {|
  seasonality_mode := "multiplicative";
  yearly_seasonality := true;
  weekly_seasonality := true;
  daily_seasonality := false;
  changepoint_prior_scale := 5 # 100;
  seasonality_prior_scale := 10
|}.

Definition default_regressors : list string :=
  ["temperature_2m_max"; "precipitation_sum"; "wind_speed_10m_max"].

(** [s.iloc[-1]] *)
Definition iloc_last (s : series) : result cell :=
  match s with
  | [] => Raise (IndexError "single positional indexer is out-of-bounds")
  | _ => Ok (last s NaN)
  end.

(** Lines 47-49: the regressors handed to [add_regressor]. *)
Definition registered (prophet_df : DataFrame) (regressors : list string)
  : list string :=
  filter (has_col prophet_df) regressors.

(** One turn of the loop of lines 54-56. *)
Definition carry_forward (prophet_df : DataFrame) (future : DataFrame)
  (regressor : string) : result DataFrame :=
  if has_col prophet_df regressor then
    col <- getitem prophet_df regressor ;;
    v <- iloc_last col ;;
    Ok (set_scalar future regressor v)
  else Ok future.

(** Lines 44-56: the frame handed to [predict], with the fitted model. *)
Definition prediction_input (prophet_df : DataFrame) (forecast_periods : nat)
  (regressors : option (list string)) : result (model * DataFrame) :=
  let regressors := match regressors with
                    | None => default_regressors
                    | Some r => r
                    end in
  m <- fit params (registered prophet_df regressors) prophet_df ;;
  let future := make_future_dataframe m forecast_periods in
  future <- foldM (carry_forward prophet_df) regressors future ;;
  Ok (m, future).

Definition train_prophet_model (prophet_df : DataFrame) (forecast_periods : nat)
  (add_regressors : bool) (regressors : option (list string))
  : result (model * DataFrame) :=
  mf <- prediction_input prophet_df forecast_periods regressors ;;
  forecast <- predict (fst mf) (snd mf) ;;
  Ok (fst mf, forecast).

(** Lines 75-77: the public columns of one city's forecast. *)
Definition city_frame (city : cell) (city_forecast : DataFrame)
  : result DataFrame :=
  forecast_df <- select city_forecast ["ds"; "yhat"; "yhat_lower"; "yhat_upper"] ;;
  let forecast_df := set_scalar forecast_df "city" city in
  Ok (rename forecast_df
        [("ds", "date"); ("yhat", "forecasted_arbovirus_cases")]).

(** The body of the loop of lines 68-79. *)
Definition forecast_city (forecast_periods : nat) (add_regressors : bool)
  (entry : cell * DataFrame) : result DataFrame :=
  let '(city, city_data) := entry in
  mf <- train_prophet_model city_data forecast_periods add_regressors None ;;
  city_frame city (snd mf).

Definition generate_forecast_dataframe (df : DataFrame)
  (forecast_periods : nat) (add_regressors : bool) : result DataFrame :=
  prophet_data <- prepare_data df "arbovirus_bool" ;;
  all_forecasts <- mapM (forecast_city forecast_periods add_regressors)
                        prophet_data ;;
  concat all_forecasts.

End Methods.
End DengueProphetForecaster.

(* ================================================================== *)
(** ** Concrete instances and data, for running the model *)
(* ================================================================== *)

Module Samples.
Import Pandas GroupBy.

(** Square root to six decimals. *)
Definition sqrt6 (q : Q) : Q :=
  Qred (Z.sqrt (Qnum q * 1000000000000 / Z.pos (Qden q)) # 1000000).

(** Bhaskara's rational approximation of the sine, on turns. *)
Definition half_wave (t : Q) : Q :=
  let x := (360 * t)%Q in
  let p := (x * (180 - x))%Q in
  Qred (4 * p / (40500 - p)).

Definition frac (t : Q) : Q := (t - inject_Z (Qfloor t))%Q.

Definition sine (t : Q) : Q :=
  let f := frac t in
  if Qle_bool f (1 # 2) then half_wave f
  else Qred (- half_wave (f - (1 # 2))).

Definition cosine (t : Q) : Q := sine (t + (1 # 4)).

(** Timestamps only: text is refused. *)
Definition no_parser (c : cell) : result date :=
  Raise (ValueError "Unknown datetime string format").

Definition reference : Primitives := {|
  sqrtQ := sqrt6;
  sin_turn := sine;
  cos_turn := cosine;
  parse_datetime := no_parser
|}.

Definition next_day (d : date) : date :=
  if day d <? days_in_month (year d) (month d)
  then mkDate (year d) (month d) (day d + 1)
  else if month d <? 12 then mkDate (year d) (month d + 1) 1
  else mkDate (year d + 1) 1 1.

Fixpoint days_after (d : date) (n : nat) : list date :=
  match n with
  | O => []
  | S n' => next_day d :: days_after (next_day d) n'
  end.

(** A stand-in engine: it refuses, as Prophet does, a history with fewer
    than two rows that hold a target, and forecasts the last target of the
    history with a band of one around it. *)
Definition naive_fit (p : prophet_params) (regressors : list string)
  (history : DataFrame) : result DataFrame :=
  y <- getitem history "y" ;;
  _ <- getitem history "ds" ;;
  if (List.length (filter notna y) <? 2)%nat
  then Raise (ValueError "Dataframe has less than 2 non-NaN rows.")
  else Ok history.

Definition naive_future (history : DataFrame) (periods : nat) : DataFrame :=
  match get_col history "ds" with
  | Some ds =>
      match last ds NaN with
      | Ts d => [("ds", (ds ++ map Ts (days_after d periods))%list)]
      | _ => [("ds", ds)]
      end
  | None => [("ds", [])]
  end.

Definition naive_predict (history future : DataFrame) : result DataFrame :=
  ds <- getitem future "ds" ;;
  y <- getitem history "y" ;;
  x <- floats (filter notna y) ;;
  let v := last (observations x) 0%Q in
  let n := List.length ds in
  Ok [("ds", ds);
      ("trend", repeat (Num v) n);
      ("yhat_lower", repeat (Num (Qred (v - 1))) n);
      ("yhat_upper", repeat (Num (Qred (v + 1))) n);
      ("yhat", repeat (Num v) n)].

Definition naive : Engine := {|
  model := DataFrame;
  fit := naive_fit;
  make_future_dataframe := naive_future;
  predict := naive_predict
|}.

(** One surveillance record: city, day of January 2024, the four weather
    readings (missing when [None]) and the target. *)
Record record : Type := {
  r_city : cell;
  r_day : Z;
  r_tmax : cell;
  r_tmin : cell;
  r_prec : cell;
  r_wind : cell;
  r_target : cell
}.

Definition context_columns (n : nat) : DataFrame :=
  [("latitude", repeat (Num (5 # 1)) n);
   ("longitude", repeat (Num (-4 # 1)) n);
   ("country", repeat (Str "Cote d'Ivoire") n);
   ("country_id", repeat (Str "CIV") n);
   ("status", repeat (Str "confirmed") n);
   ("occurrence_id", repeat (Num 1) n);
   ("vector", repeat (Str "Aedes aegypti") n);
   ("source_type", repeat (Str "report") n);
   ("location_type", repeat (Str "point") n)].

Definition frame_of (rs : list record) : DataFrame :=
  (("date", map (fun r => Ts (mkDate 2024 1 (r_day r))) rs)
   :: ("city", map r_city rs)
   :: context_columns (List.length rs)
   ++ [("temperature_2m_max", map r_tmax rs);
       ("temperature_2m_min", map r_tmin rs);
       ("precipitation_sum", map r_prec rs);
       ("wind_speed_10m_max", map r_wind rs);
       ("arbovirus_bool", map r_target rs)])%list.

Definition rec (city : string) (d : Z) (tmax tmin prec wind target : Q) : record :=
  {| r_city := Str city; r_day := d; r_tmax := Num tmax; r_tmin := Num tmin;
     r_prec := Num prec; r_wind := Num wind; r_target := Num target |}.

(** Two cities, four and two days. *)
Definition two_cities : DataFrame :=
  frame_of [rec "Abidjan" 1 30 22 5 10 1;
            rec "Abidjan" 2 32 23 0 12 0;
            rec "Abidjan" 3 24 19 2 14 1;
            rec "Abidjan" 4 36 25 8 9 1;
            rec "Bouake" 1 28 21 1 7 0;
            rec "Bouake" 2 29 18 3 6 1].

(** A single record. *)
Definition one_row : DataFrame := frame_of [rec "Abidjan" 1 30 22 5 10 1].

(** [two_cities] without its wind column. *)
Definition no_wind : DataFrame :=
  filter (fun c => negb (String.eqb (fst c) "wind_speed_10m_max")) two_cities.

(** The second city's first record has no target. *)
Definition missing_target : DataFrame :=
  frame_of [rec "Abidjan" 1 30 22 5 10 1;
            rec "Abidjan" 2 32 23 0 12 1;
            {| r_city := Str "Bouake"; r_day := 1; r_tmax := Num 28;
               r_tmin := Num 21; r_prec := Num 1; r_wind := Num 7;
               r_target := NaN |};
            rec "Bouake" 2 29 18 3 6 0].

(** Two records of one city-day; the first has no temperature. *)
Definition same_day : DataFrame :=
  frame_of [{| r_city := Str "Abidjan"; r_day := 1; r_tmax := NaN;
               r_tmin := Num 22; r_prec := Num 5; r_wind := Num 10;
               r_target := Num 1 |};
            rec "Abidjan" 1 31 23 0 12 1;
            rec "Abidjan" 2 33 23 0 12 0].

(** [two_cities] with a single day for the second city. *)
Definition short_history : DataFrame :=
  frame_of [rec "Abidjan" 1 30 22 5 10 1;
            rec "Abidjan" 2 32 23 0 12 0;
            rec "Abidjan" 3 24 19 2 14 1;
            rec "Bouake" 1 28 21 1 7 0].

(** A dataset with its columns and no record. *)
Definition no_records : DataFrame := frame_of [].

(** Four dates on the two sides of the season boundaries. *)
Definition seasons : DataFrame :=
  [("date", [Ts (mkDate 2024 5 31); Ts (mkDate 2024 6 1);
             Ts (mkDate 2024 10 31); Ts (mkDate 2024 11 1)])].

(** The aggregated series of one city, as the forecaster trains on it. *)
Definition history : DataFrame :=
  [("ds", [Ts (mkDate 2024 1 1); Ts (mkDate 2024 1 2); Ts (mkDate 2024 1 3)]);
   ("city", [Str "Abidjan"; Str "Abidjan"; Str "Abidjan"]);
   ("y", [Num 1; Num 0; Num 2]);
   ("temperature_2m_max", [Num 30; Num 32; Num 24]);
   ("precipitation_sum", [Num 5; Num 0; Num 2])].

(** [two_cities] without its city column. *)
Definition no_city : DataFrame :=
  filter (fun c => negb (String.eqb (fst c) "city")) two_cities.

(** [two_cities] without two of its context columns. *)
Definition no_country : DataFrame :=
  filter (fun c => negb (mem_string (fst c) ["country"; "status"])) two_cities.

(** [two_cities] without its case counts. *)
Definition no_cases : DataFrame :=
  filter (fun c => negb (String.eqb (fst c) "arbovirus_bool")) two_cities.

(** Three records, the second without a date. *)
Definition undated : DataFrame :=
  [("date", [Ts (mkDate 2024 2 29); NaN; Ts (mkDate 2024 12 31)]);
   ("city", [Str "Abidjan"; Str "Abidjan"; Str "Abidjan"])].

(** A parser of dates written YYYY-MM-DD; any other text, and any number,
    is refused. *)
Definition digit (a : ascii) : option Z :=
  let n := (Z.of_N (N_of_ascii a) - 48)%Z in
  if (0 <=? n) && (n <=? 9) then Some n else None.

Fixpoint digits (s : string) (acc : Z) : option Z :=
  match s with
  | EmptyString => Some acc
  | String a s' =>
      match digit a with
      | Some n => digits s' (10 * acc + n)
      | None => None
      end
  end.

Definition iso_parser (c : cell) : result date :=
  let refused := Raise (ValueError "Unknown datetime string format") in
  match c with
  | Str s =>
      match digits (substring 0 4 s) 0, digits (substring 5 2 s) 0,
            digits (substring 8 2 s) 0 with
      | Some y, Some m, Some d =>
          if (String.length s =? 10)%nat
             && String.eqb (substring 4 1 s) "-"
             && String.eqb (substring 7 1 s) "-"
             && (1 <=? m) && (m <=? 12)
             && (1 <=? d) && (d <=? days_in_month y m)
          then Ok (mkDate y m d)
          else refused
      | _, _, _ => refused
      end
  | _ => refused
  end.

(** The reference primitives with the parser of written dates. *)
Definition written_dates : Primitives := {|
  sqrtQ := sqrt6;
  sin_turn := sine;
  cos_turn := cosine;
  parse_datetime := iso_parser
|}.

(** Dates still as text, the fourth of them not a date. *)
Definition text_dates : DataFrame :=
  [("date", [Ts (mkDate 2024 1 1); NaN; Str "2024-01-03"; Str "soon";
             Str "2024-01-05"]);
   ("city", repeat (Str "Abidjan") 5)].

(** Dates still as text, each of them a date. *)
Definition parseable_dates : DataFrame :=
  [("date", [Ts (mkDate 2024 1 1); NaN; Str "2024-01-03"; Str "2024-02-29"]);
   ("city", repeat (Str "Abidjan") 4)].

(** One city, five days; the first record has no country. *)
Definition first_without_country : DataFrame :=
  set_col (frame_of [rec "Abidjan" 1 30 22 5 10 1;
                     rec "Abidjan" 2 32 23 0 12 0;
                     rec "Abidjan" 3 24 19 2 14 1;
                     rec "Abidjan" 4 36 25 0 9 1;
                     rec "Abidjan" 5 30 19 3 9 0])
          "country"
          (NaN :: repeat (Str "Cote d'Ivoire") 4).

(** Three records, none of them with a target. *)
Definition no_target_values : DataFrame :=
  frame_of [{| r_city := Str "Abidjan"; r_day := 1; r_tmax := Num 30;
               r_tmin := Num 22; r_prec := Num 5; r_wind := Num 10;
               r_target := NaN |};
            {| r_city := Str "Abidjan"; r_day := 2; r_tmax := Num 32;
               r_tmin := Num 23; r_prec := Num 0; r_wind := Num 12;
               r_target := NaN |};
            {| r_city := Str "Bouake"; r_day := 1; r_tmax := Num 28;
               r_tmin := Num 21; r_prec := Num 1; r_wind := Num 7;
               r_target := NaN |}].

(** Records out of date order, one of them without a city and two of them
    of one city-day. *)
Definition unordered : DataFrame :=
  frame_of [rec "Bouake" 2 29 18 3 6 1;
            rec "Abidjan" 3 24 19 2 14 1;
            {| r_city := NaN; r_day := 2; r_tmax := Num 31; r_tmin := Num 22;
               r_prec := Num 0; r_wind := Num 8; r_target := Num 4 |};
            rec "Abidjan" 1 30 22 5 10 1;
            rec "Abidjan" 3 25 19 2 14 2].

End Samples.

(* ================================================================== *)
(** ** Vocabulary of the specification *)
(* ================================================================== *)

Module Spec.
Import Pandas.

(** The most recent value of a stretch of rows, missing when it has none. *)
Definition last_valid (l : series) : cell := last (filter notna l) NaN.

(** The earliest value of a stretch of rows, missing when it has none. *)
Definition first_valid (l : series) : cell := hd NaN (filter notna l).

(** The value a neighbouring row lends to row [i] of a column: the most
    recent one at or above the row in frame order, and, when there is none,
    the earliest one below it. *)
Definition neighbour_fill (v : series) (i : nat) : cell :=
  let above := last_valid (firstn (S i) v) in
  if isna above then first_valid (skipn (S i) v) else above.

(** The two columns one turn of the rolling loop writes. *)
Definition stat_names (cw : string * nat) : list string :=
  [FeatureEngineer.stat_name (fst cw) (snd cw) "mean";
   FeatureEngineer.stat_name (fst cw) (snd cw) "std"].

(** The names of the derived weather columns. *)
Definition rolling_names : list string :=
  flat_map stat_names
           (list_prod FeatureEngineer.weather_cols FeatureEngineer.windows).

Definition indicator_names : list string :=
  ["optimal_mosquito_temp"; "breeding_conditions"].

Definition lag_names : list string :=
  map FeatureEngineer.lag_name FeatureEngineer.lag_days.

(** The two columns one turn of the cyclic-encoding loop writes. *)
Definition cyclic_names (cm : string * Z) : list string :=
  [fst cm ++ "_sin"; fst cm ++ "_cos"].

(** The season the specification gives a month. *)
Definition season_of_month (m : Z) : string :=
  if m <=? 5 then "Dry" else if m <=? 10 then "Rainy" else "Dry".

(** The forecast of one city under its public column names. *)
Definition public_frame (city : cell) (city_forecast : DataFrame) : DataFrame :=
  [("date", column city_forecast "ds");
   ("forecasted_arbovirus_cases", column city_forecast "yhat");
   ("yhat_lower", column city_forecast "yhat_lower");
   ("yhat_upper", column city_forecast "yhat_upper");
   ("city", repeat city (List.length (column city_forecast "ds")))].

Definition public_columns : list string :=
  ["date"; "forecasted_arbovirus_cases"; "yhat_lower"; "yhat_upper"; "city"].


(** Every column the weather feature builder derives. *)
Definition derived_names : list string :=
  rolling_names ++ indicator_names ++ lag_names.

(** No name occurs twice. *)
Fixpoint distinctb (l : list string) : bool :=
  match l with
  | [] => true
  | a :: l' => negb (mem_string a l') && distinctb l'
  end.

(** No name of [a] occurs in [b]. *)
Definition disjointb (a b : list string) : bool :=
  forallb (fun c => negb (mem_string c b)) a.

(** A calendar field of a date cell, missing where the date is. *)
Definition calendar_cell (field : date -> Z) (c : cell) : cell :=
  match c with
  | Ts d => Num (inject_Z (field d))
  | _ => NaN
  end.

(** A numeric function applied to a cell, missing where the cell is. *)
Definition lift_float (f : Q -> Q) (c : cell) : cell :=
  match c with
  | Num q => Num (f q)
  | _ => NaN
  end.

(** A timestamp or nothing. *)
Definition ts_or_missing (c : cell) : Prop := c = NaN \/ exists d, c = Ts d.

(** A number or nothing. *)
Definition num_or_missing (c : cell) : Prop := c = NaN \/ exists q, c = Num q.

(** The columns the temporal feature builder writes, in the order it
    writes them. *)
Definition temporal_names : list string :=
  (["month"; "year"; "day_of_year"; "week_of_year"; "day_of_week"; "season"]
   ++ flat_map cyclic_names FeatureEngineer.cyclic_periods)%list.

(** The season of a month cell. *)
Definition season_of_cell (c : cell) : cell :=
  match c with
  | Num q => Pandas.cut_bins q FeatureEngineer.season_bins
                             FeatureEngineer.season_labels
  | _ => NaN
  end.

(** The frame with its calendar columns and its season, before the cyclic
    encodings are added. *)
Definition calendar_frame (df : DataFrame) (dates : series) : DataFrame :=
  let df := set_col df "month" (map (calendar_cell month) dates) in
  let df := set_col df "year" (map (calendar_cell year) dates) in
  let df := set_col df "day_of_year" (map (calendar_cell Pandas.dayofyear) dates) in
  let df := set_col df "week_of_year" (map (calendar_cell Pandas.isoweek) dates) in
  let df := set_col df "day_of_week" (map (calendar_cell Pandas.dayofweek) dates) in
  set_col df "season" (map season_of_cell (map (calendar_cell month) dates)).

(** The column list after writing [names] one after the other: a name the
    frame already has keeps its place, a new one goes to the end. *)
Definition add_names (cols names : list string) : list string :=
  fold_left (fun c n => if mem_string n c then c else (c ++ [n])%list)
            names cols.

(** A column without a missing cell. *)
Definition populated (v : series) : Prop := Forall (fun c => isna c = false) v.



(** The rows of one city among the (date, city) groups. *)
Definition city_mask (city : cell) (groups : list GroupBy.key) : list bool :=
  map (fun k => cell_eqb city (snd k)) groups.

(** The sum of the numbers of a column; a missing cell counts for nothing. *)
Definition cell_total (s : series) : Q :=
  fold_right (fun c acc => match c with Num q => (q + acc)%Q | _ => acc end)
             0%Q s.

End Spec.

(* ================================================================== *)
(** * Properties *)
(* ================================================================== *)

Local Open Scope list_scope.

(** ** The error monad *)

Lemma bind_ok {A B : Type} (r : result A) (k : A -> result B) (b : B) :
  bind r k = Ok b -> exists a, r = Ok a /\ k a = Ok b.
Proof.
  destruct r as [a | e]; simpl; intros H.
  - exists a; split; [reflexivity | exact H].
  - discriminate H.
Qed.

(** Split a successful chain of binds into its successful steps. *)
Ltac inv_bind H :=
  repeat match type of H with
         | bind _ _ = Ok _ =>
             let a := fresh "a" in
             let E := fresh "E" in
             apply bind_ok in H; destruct H as (a & E & H)
         end.

Ltac inv_ok H := injection H as H; try subst.

Lemma mapM_length {A B : Type} (f : A -> result B) (l : list A) (r : list B) :
  mapM f l = Ok r -> List.length r = List.length l.
Proof.
  revert r; induction l as [| a l IH]; simpl; intros r H.
  - inv_ok H. reflexivity.
  - inv_bind H. inv_ok H. simpl. f_equal. apply IH. assumption.
Qed.

Lemma mapM_nth_error {A B : Type} (f : A -> result B) (l : list A) (r : list B) :
  mapM f l = Ok r ->
  forall i a, nth_error l i = Some a ->
  exists b, f a = Ok b /\ nth_error r i = Some b.
Proof.
  revert r; induction l as [| x l IH]; simpl; intros r H i a Hi.
  - destruct i; discriminate Hi.
  - inv_bind H. inv_ok H. destruct i as [| i]; simpl in *.
    + inv_ok Hi. eauto.
    + eapply IH; eauto.
Qed.

(** ** Columns *)

Lemma get_col_set_col_same (df : DataFrame) (n : string) (v : series) :
  get_col (set_col df n v) n = Some v.
Proof.
  induction df as [| [m w] df IH]; simpl.
  - rewrite String.eqb_refl. reflexivity.
  - destruct (String.eqb m n) eqn:E; simpl; rewrite E; auto.
Qed.

Lemma get_col_set_col_other (df : DataFrame) (n m : string) (v : series) :
  n <> m -> get_col (set_col df n v) m = get_col df m.
Proof.
  intros Hn. induction df as [| [k w] df IH]; simpl.
  - apply String.eqb_neq in Hn. rewrite Hn. reflexivity.
  - destruct (String.eqb k n) eqn:E; simpl.
    + apply String.eqb_eq in E. subst k.
      apply String.eqb_neq in Hn. rewrite Hn. reflexivity.
    + rewrite IH. reflexivity.
Qed.

Lemma get_col_cons (n m : string) (v : series) (df : DataFrame) :
  get_col ((n, v) :: df) m = if String.eqb n m then Some v else get_col df m.
Proof. reflexivity. Qed.

Lemma get_col_In (df : DataFrame) (n : string) (v : series) :
  get_col df n = Some v -> In (n, v) df.
Proof.
  induction df as [| [k w] df IH]; simpl; intros H.
  - discriminate H.
  - destruct (String.eqb k n) eqn:E.
    + apply String.eqb_eq in E. inv_ok H. auto.
    + auto.
Qed.

Lemma In_get_col (df : DataFrame) (n : string) :
  In n (columns df) -> exists v, get_col df n = Some v.
Proof.
  induction df as [| [k w] df IH]; simpl; intros H.
  - contradiction.
  - destruct (String.eqb k n) eqn:E; [eauto |].
    destruct H as [H | H]; [| auto].
    subst k. rewrite String.eqb_refl in E. discriminate E.
Qed.

Lemma get_col_columns (df : DataFrame) (n : string) (v : series) :
  get_col df n = Some v -> In n (columns df).
Proof.
  intros H. apply get_col_In in H.
  unfold columns. change n with (fst (n, v)). apply in_map. exact H.
Qed.

Lemma getitem_ok (df : DataFrame) (n : string) (v : series) :
  getitem df n = Ok v <-> get_col df n = Some v.
Proof.
  unfold getitem. destruct (get_col df n); split; intros H;
    try discriminate H; inv_ok H; reflexivity.
Qed.

Lemma in_set_col (df : DataFrame) (n : string) (v : series) (p : string * series) :
  In p (set_col df n v) -> In p df \/ p = (n, v).
Proof.
  induction df as [| [k w] df IH]; simpl.
  - intros [H | []]; auto.
  - destruct (String.eqb k n) eqn:E; simpl.
    + apply String.eqb_eq in E. subst k. intros [H | H]; auto.
    + intros [H | H]; auto. destruct (IH H); auto.
Qed.

Lemma nrows_set_col (df : DataFrame) (n : string) (v : series) :
  List.length v = nrows df -> nrows (set_col df n v) = nrows df.
Proof.
  destruct df as [| [k w] df]; simpl; intros H; [exact H |].
  destruct (String.eqb k n); simpl; auto.
Qed.

Lemma rectangular_set_col (df : DataFrame) (n : string) (v : series) :
  rectangular df -> List.length v = nrows df -> rectangular (set_col df n v).
Proof.
  intros R L m w H. rewrite nrows_set_col by exact L.
  destruct (in_set_col _ _ _ _ H) as [H' | H'].
  - eapply R; eauto.
  - inv_ok H'. exact L.
Qed.

Lemma rectangular_get_col (df : DataFrame) (n : string) (v : series) :
  rectangular df -> get_col df n = Some v -> List.length v = nrows df.
Proof. intros R H. eapply R, get_col_In, H. Qed.

Lemma rectangularb_sound (df : DataFrame) :
  rectangularb df = true -> rectangular df.
Proof.
  unfold rectangularb, rectangular. rewrite forallb_forall.
  intros H n v Hin. specialize (H _ Hin). simpl in H.
  apply Nat.eqb_eq. exact H.
Qed.

Lemma mem_string_In (s : string) (l : list string) :
  mem_string s l = true <-> In s l.
Proof.
  unfold mem_string. rewrite existsb_exists. split.
  - intros (x & Hx & E). apply String.eqb_eq in E. subst x. exact Hx.
  - intros H. exists s. split; [exact H | apply String.eqb_refl].
Qed.

(** ** Masks and groups *)

Lemma cell_eqb_eq (a b : cell) : cell_eqb a b = true -> a = b.
Proof.
  destruct a as [| [p1 p2] | s | [y m d]], b as [| [q1 q2] | t | [y' m' d']];
    simpl; try discriminate.
  - rewrite andb_true_iff, Z.eqb_eq, Pos.eqb_eq. intros [-> ->]. reflexivity.
  - rewrite String.eqb_eq. intros ->. reflexivity.
  - unfold date_eqb; simpl. rewrite !andb_true_iff, !Z.eqb_eq.
    intros [[-> ->] ->]. reflexivity.
Qed.

Lemma cell_eqb_refl (a : cell) : isna a = false -> cell_eqb a a = true.
Proof.
  destruct a as [| [p1 p2] | s | [y m d]]; simpl; try discriminate; intros _.
  - rewrite Z.eqb_refl, Pos.eqb_refl. reflexivity.
  - apply String.eqb_refl.
  - unfold date_eqb; simpl. rewrite !Z.eqb_refl. reflexivity.
Qed.

Lemma mask_filter_Forall {A : Type} (P : A -> Prop) (mask : list bool) (l : list A) :
  Forall P l -> Forall P (mask_filter mask l).
Proof.
  revert l; induction mask as [| b mask IH]; intros [| a l] H; simpl;
    try constructor.
  inversion H; subst. destruct b; auto.
Qed.

Lemma mask_filter_map {A B : Type} (g : A -> B) (mask : list bool) (l : list A) :
  mask_filter mask (map g l) = map g (mask_filter mask l).
Proof.
  revert l; induction mask as [| b mask IH]; intros [| a l]; simpl; auto.
  destruct b; simpl; rewrite IH; reflexivity.
Qed.

Lemma mask_filter_all_true {A : Type} (mask : list bool) (l : list A) :
  Forall (fun b => b = true) mask -> List.length mask = List.length l ->
  mask_filter mask l = l.
Proof.
  revert l; induction mask as [| b mask IH]; intros [| a l] H L; simpl in *;
    try reflexivity; try discriminate.
  inversion H; subst. f_equal. apply IH; auto.
Qed.

Module PandasFacts.
Import Pandas.

Lemma count_key_app (k : cell) (a b : series) :
  count_key k (a ++ b) = (count_key k a + count_key k b)%nat.
Proof. unfold count_key. rewrite filter_app, length_app. reflexivity. Qed.

Lemma count_key_cons (k k' : cell) (l : series) :
  count_key k (k' :: l)
  = ((if cell_eqb k k' then 1 else 0) + count_key k l)%nat.
Proof. unfold count_key. simpl. destruct (cell_eqb k k'); reflexivity. Qed.

Lemma group_values_length {A : Type} (k : cell) (keys : series) (vals : list A) :
  List.length keys = List.length vals ->
  List.length (group_values k keys vals) = count_key k keys.
Proof.
  unfold group_values. revert vals.
  induction keys as [| k' keys IH]; intros [| v vals] L; simpl in *;
    try reflexivity; try discriminate.
  rewrite count_key_cons. injection L as L.
  destruct (cell_eqb k k'); simpl; rewrite IH by exact L; reflexivity.
Qed.

Lemma group_values_map {A B : Type} (g : A -> B) (k : cell) (keys : series)
  (vals : list A) :
  group_values k keys (map g vals) = map g (group_values k keys vals).
Proof. apply mask_filter_map. Qed.

Lemma scatter_length {A : Type} (d : A) (f : list A -> list A)
  (K : series) (V : list A) (keys seen : series) :
  List.length (scatter d f K V seen keys) = List.length keys.
Proof.
  revert seen; induction keys as [| k keys IH]; intros seen; simpl; auto.
Qed.

Lemma groupby_transform_length {A : Type} (d : A) (f : list A -> list A)
  (keys : series) (vals : list A) :
  List.length (groupby_transform d f keys vals) = List.length keys.
Proof. apply scatter_length. Qed.

Lemma skipn_nth_cons {A : Type} (d : A) (l : list A) (n : nat) :
  (n < List.length l)%nat -> skipn n l = nth n l d :: skipn (S n) l.
Proof.
  revert n; induction l as [| a l IH]; intros n H; simpl in H; [lia |].
  destruct n as [| n]; [reflexivity |].
  simpl. apply IH. lia.
Qed.

Lemma count_key_snoc (k k' : cell) (l : series) :
  count_key k (l ++ [k'])
  = (count_key k l + (if cell_eqb k k' then 1 else 0))%nat.
Proof.
  rewrite count_key_app, count_key_cons. unfold count_key at 2. simpl. lia.
Qed.

Lemma group_values_cons {A : Type} (k k' : cell) (keys : series) (x : A)
  (vals : list A) :
  group_values k (k' :: keys) (x :: vals)
  = if cell_eqb k k' then x :: group_values k keys vals
    else group_values k keys vals.
Proof. reflexivity. Qed.

Lemma group_values_scatter {A : Type} (d : A) (f : list A -> list A)
  (K : series) (V : list A) (k : cell) :
  isna k = false ->
  forall keys seen,
    List.length (f (group_values k K V))
    = (count_key k seen + count_key k keys)%nat ->
    group_values k keys (scatter d f K V seen keys)
    = skipn (count_key k seen) (f (group_values k K V)).
Proof.
  intros Hk. induction keys as [| k' keys IH]; intros seen L.
  - unfold count_key in L at 2. simpl in L.
    rewrite skipn_all2 by lia. reflexivity.
  - rewrite count_key_cons in L. simpl scatter. rewrite group_values_cons.
    specialize (IH (seen ++ [k'])). rewrite count_key_snoc in IH.
    destruct (cell_eqb k k') eqn:E.
    + apply cell_eqb_eq in E. subst k'. rewrite Hk.
      rewrite IH by lia.
      replace (count_key k seen + 1)%nat with (S (count_key k seen)) by lia.
      symmetry. apply skipn_nth_cons. lia.
    + rewrite IH by lia. f_equal. lia.
Qed.

(** A group-wise transform hands every group the transform of its own
    values, and of nothing else. *)
Lemma groupby_transform_group {A : Type} (d : A) (f : list A -> list A)
  (keys : series) (vals : list A) (k : cell) :
  isna k = false ->
  List.length keys = List.length vals ->
  (forall g, List.length (f g) = List.length g) ->
  group_values k keys (groupby_transform d f keys vals)
  = f (group_values k keys vals).
Proof.
  intros Hk L Hf. unfold groupby_transform.
  rewrite group_values_scatter; [reflexivity | exact Hk |].
  rewrite Hf, group_values_length by exact L. reflexivity.
Qed.

(** *** Rolling windows *)

Lemma rolling_length (w : nat) (agg : list Q -> option Q) (xs : list (option Q)) :
  List.length (rolling w agg xs) = List.length xs.
Proof. unfold rolling. rewrite length_map, length_seq. reflexivity. Qed.

Lemma rolling_nth (w : nat) (agg : list Q -> option Q) (xs : list (option Q))
  (i : nat) :
  (i < List.length xs)%nat ->
  nth i (rolling w agg xs) None = agg (observations (window_at w xs i)).
Proof.
  intros H. unfold rolling.
  rewrite nth_indep with (d' := agg (observations (window_at w xs 0)))
    by (rewrite length_map, length_seq; exact H).
  rewrite (map_nth (fun p => agg (observations (window_at w xs p)))
                   (seq 0 (List.length xs)) 0%nat i).
  rewrite seq_nth by exact H. reflexivity.
Qed.

Lemma window_at_start {A : Type} (w : nat) (x : A) (xs : list A) :
  (1 <= w)%nat -> window_at w (x :: xs) 0 = [x].
Proof.
  intros H. unfold window_at.
  replace (1 - w)%nat with 0%nat by lia. reflexivity.
Qed.

Lemma std_agg_none `{Primitives} (obs : list Q) :
  std_agg 1 obs = None <-> (List.length obs < 2)%nat.
Proof.
  unfold std_agg. destruct obs as [| a [| b obs]]; simpl; split;
    intros; try reflexivity; try lia; try discriminate.
Qed.

(** *** Shifts *)

Lemma shift_length {A : Type} (d : A) (n : nat) (l : list A) :
  List.length (shift d n l) = List.length l.
Proof.
  unfold shift. rewrite length_firstn, length_app, repeat_length. lia.
Qed.

Lemma shift_nth {A : Type} (d : A) (n : nat) (l : list A) (i : nat) :
  (i < List.length l)%nat ->
  nth i (shift d n l) d = if (i <? n)%nat then d else nth (i - n) l d.
Proof.
  intros H. unfold shift. rewrite nth_firstn.
  apply Nat.ltb_lt in H. rewrite H.
  destruct (i <? n)%nat eqn:E.
  - apply Nat.ltb_lt in E.
    rewrite app_nth1 by (rewrite repeat_length; exact E).
    apply nth_repeat.
  - apply Nat.ltb_ge in E.
    rewrite app_nth2 by (rewrite repeat_length; exact E).
    rewrite repeat_length. reflexivity.
Qed.

End PandasFacts.

Module FillFacts.
Import Pandas Spec.

Lemma filter_notna_last (l : series) :
  filter notna l <> [] -> isna (last (filter notna l) NaN) = false.
Proof.
  intros H.
  assert (In (last (filter notna l) NaN) (filter notna l)) as Hin.
  { destruct (exists_last H) as (l' & a & E). rewrite E.
    rewrite last_last. apply in_or_app. right. left. reflexivity. }
  apply filter_In in Hin. destruct Hin as [_ Hn].
  unfold notna in Hn. apply negb_true_iff in Hn. exact Hn.
Qed.

Lemma last_valid_isna (l : series) :
  isna (last_valid l) = true <-> filter notna l = [].
Proof.
  unfold last_valid. split.
  - intros H. destruct (filter notna l) as [| a t] eqn:E; [reflexivity |].
    assert (filter notna l <> []) as Hne by (rewrite E; discriminate).
    apply filter_notna_last in Hne. rewrite E in Hne. congruence.
  - intros ->. reflexivity.
Qed.

Lemma last_valid_cons (c : cell) (l : series) :
  last_valid (c :: l)
  = if isna c then last_valid l
    else if isna (last_valid l) then c else last_valid l.
Proof.
  unfold last_valid at 1. simpl. unfold notna at 1.
  destruct (isna c) eqn:Ec; simpl; [reflexivity |].
  destruct (isna (last_valid l)) eqn:El.
  - apply last_valid_isna in El. rewrite El. reflexivity.
  - unfold last_valid in *. destruct (filter notna l); simpl in *; congruence.
Qed.

Lemma first_valid_cons (c : cell) (l : series) :
  first_valid (c :: l) = if isna c then first_valid l else c.
Proof.
  unfold first_valid. simpl. unfold notna at 1.
  destruct (isna c); reflexivity.
Qed.

Lemma first_valid_isna (l : series) :
  isna (first_valid l) = true <-> filter notna l = [].
Proof.
  unfold first_valid. destruct (filter notna l) as [| a t] eqn:E; simpl.
  - split; reflexivity.
  - assert (In a (filter notna l)) as Hin by (rewrite E; left; reflexivity).
    apply filter_In in Hin. destruct Hin as [_ Hn].
    unfold notna in Hn. apply negb_true_iff in Hn.
    split; [congruence | discriminate].
Qed.

Lemma ffill_from_length (s : series) (l0 : cell) :
  List.length (ffill_from l0 s) = List.length s.
Proof.
  revert l0; induction s as [| c s IH]; intros l0; simpl; [reflexivity |].
  destruct (isna c); simpl; rewrite IH; reflexivity.
Qed.

Lemma bfill_length (s : series) : List.length (bfill s) = List.length s.
Proof. induction s as [| c s IH]; simpl; congruence. Qed.

(** Forward fill: the most recent value at or above the row. *)
Lemma ffill_from_nth (s : series) :
  forall l0 i, (i < List.length s)%nat ->
  nth i (ffill_from l0 s) NaN
  = if isna (last_valid (firstn (S i) s)) then l0
    else last_valid (firstn (S i) s).
Proof.
  induction s as [| c s IH]; intros l0 i H; simpl in H; [lia |].
  change (firstn (S i) (c :: s)) with (c :: firstn i s).
  rewrite last_valid_cons.
  destruct i as [| i].
  - change (last_valid (firstn 0 s)) with NaN. simpl.
    destruct (isna c) eqn:Ec; simpl; [reflexivity | rewrite Ec; reflexivity].
  - simpl ffill_from.
    destruct (isna c) eqn:Ec; simpl nth; rewrite IH by lia.
    + reflexivity.
    + destruct (isna (last_valid (firstn (S i) s))) eqn:El;
        [rewrite Ec | rewrite El]; reflexivity.
Qed.

(** Backward fill: the earliest value at or below the row. *)
Lemma bfill_nth (s : series) :
  forall i, nth i (bfill s) NaN = first_valid (skipn i s).
Proof.
  induction s as [| c s IH]; intros i.
  - destruct i; reflexivity.
  - destruct i as [| i]; simpl bfill; simpl nth; simpl skipn.
    + rewrite first_valid_cons.
      destruct (isna c); [| reflexivity].
      specialize (IH 0%nat). simpl in IH. rewrite <- IH.
      destruct (bfill s); reflexivity.
    + apply IH.
Qed.

Lemma ffill_skip_missing (v : series) :
  forall n, filter notna (firstn n v) = [] ->
  skipn n (ffill_from NaN v) = ffill_from NaN (skipn n v).
Proof.
  induction v as [| c v IH]; intros [| n] H; try reflexivity.
  simpl in H. unfold notna at 1 in H.
  destruct (isna c) eqn:Ec; simpl in H; [| discriminate].
  simpl. rewrite Ec. simpl. apply IH. exact H.
Qed.

Lemma first_valid_ffill (v : series) :
  first_valid (ffill_from NaN v) = first_valid v.
Proof.
  induction v as [| c v IH]; [reflexivity |].
  simpl. destruct (isna c) eqn:Ec; rewrite !first_valid_cons; simpl.
  - rewrite Ec. exact IH.
  - rewrite Ec. reflexivity.
Qed.

(** Forward fill followed by backward fill lends every row its neighbour's
    value. *)
Lemma fill_neighbour (v : series) (i : nat) :
  (i < List.length v)%nat ->
  nth i (bfill (ffill v)) NaN = neighbour_fill v i.
Proof.
  intros H. rewrite bfill_nth. unfold ffill, neighbour_fill.
  rewrite (PandasFacts.skipn_nth_cons NaN (ffill_from NaN v) i)
    by (rewrite ffill_from_length; exact H).
  rewrite first_valid_cons, ffill_from_nth by exact H.
  destruct (isna (last_valid (firstn (S i) v))) eqn:El.
  - change (isna NaN) with true. cbv iota.
    rewrite ffill_skip_missing by (apply last_valid_isna; exact El).
    apply first_valid_ffill.
  - rewrite El. reflexivity.
Qed.

Lemma filter_notna_nil (v : series) :
  filter notna v = [] <-> Forall (fun c => isna c = true) v.
Proof.
  induction v as [| c v IH]; simpl.
  - split; constructor.
  - unfold notna at 1. destruct (isna c) eqn:Ec; simpl.
    + rewrite IH. split; intros H.
      * constructor; assumption.
      * inversion H; assumption.
    + split; [discriminate |]. intros H. inversion H; congruence.
Qed.

Lemma neighbour_fill_isna (v : series) (i : nat) :
  isna (neighbour_fill v i) = true -> Forall (fun c => isna c = true) v.
Proof.
  unfold neighbour_fill. intros H.
  destruct (isna (last_valid (firstn (S i) v))) eqn:El; [| congruence].
  apply last_valid_isna in El. apply first_valid_isna in H.
  rewrite <- (firstn_skipn (S i) v). apply Forall_app.
  split; apply filter_notna_nil; assumption.
Qed.

(** A column that holds a value somewhere holds one everywhere once
    filled. *)
Lemma neighbour_fill_missing (v : series) (i : nat) :
  Forall (fun c => isna c = true) v -> isna (neighbour_fill v i) = true.
Proof.
  intros H. rewrite <- (firstn_skipn (S i) v) in H.
  apply Forall_app in H. destruct H as [Ha Hb].
  apply filter_notna_nil in Ha, Hb.
  unfold neighbour_fill, last_valid, first_valid. rewrite Ha, Hb.
  reflexivity.
Qed.

Lemma fill_populated (v : series) :
  Exists (fun c => isna c = false) v -> populated (bfill (ffill v)).
Proof.
  intros Hex. unfold populated. apply Forall_nth. intros i d Hi.
  rewrite bfill_length in Hi. unfold ffill in Hi.
  rewrite ffill_from_length in Hi.
  rewrite nth_indep with (d' := NaN)
    by (rewrite bfill_length; unfold ffill; rewrite ffill_from_length; exact Hi).
  rewrite fill_neighbour by exact Hi.
  destruct (isna (neighbour_fill v i)) eqn:E; [| reflexivity].
  apply neighbour_fill_isna in E.
  apply Exists_exists in Hex. destruct Hex as (c & Hc & Hn).
  rewrite Forall_forall in E. specialize (E c Hc). congruence.
Qed.

Lemma ffill_from_populated (v : series) (l0 : cell) :
  populated v -> ffill_from l0 v = v.
Proof.
  revert l0. induction v as [| c v IH]; intros l0 H; [reflexivity |].
  inversion H as [| ? ? Hc Hv]; subst. simpl. rewrite Hc. f_equal. auto.
Qed.

Lemma bfill_populated (v : series) : populated v -> bfill v = v.
Proof.
  induction v as [| c v IH]; intros H; [reflexivity |].
  inversion H as [| ? ? Hc Hv]; subst. simpl. rewrite Hc, IH by exact Hv.
  reflexivity.
Qed.

(** A column without a gap is left as it is. *)
Lemma fill_id (v : series) : populated v -> bfill (ffill v) = v.
Proof.
  intros H. unfold ffill. rewrite ffill_from_populated by exact H.
  apply bfill_populated. exact H.
Qed.

End FillFacts.

(** ** Loops that write columns *)

Lemma distinctb_NoDup (l : list string) : Spec.distinctb l = true -> NoDup l.
Proof.
  induction l as [| a l IH]; simpl; intros H; constructor.
  - apply andb_true_iff in H. destruct H as [H _].
    apply negb_true_iff in H. intros Hin.
    apply mem_string_In in Hin. congruence.
  - apply IH. apply andb_true_iff in H. tauto.
Qed.

Lemma disjointb_spec (a b : list string) :
  Spec.disjointb a b = true -> forall c, In c a -> ~ In c b.
Proof.
  unfold Spec.disjointb. rewrite forallb_forall. intros H c Hc Hin.
  specialize (H c Hc). apply negb_true_iff in H.
  apply mem_string_In in Hin. congruence.
Qed.

Lemma NoDup_app_apart {A : Type} (a b : list A) :
  NoDup (a ++ b) -> forall x, In x a -> ~ In x b.
Proof.
  induction a as [| y a IH]; simpl; intros H x Hx Hb; [contradiction |].
  inversion H as [| ? ? Hy Hr]; subst. destruct Hx as [-> | Hx].
  - apply Hy. apply in_or_app. auto.
  - eapply IH; eauto.
Qed.

Section Loop.
Context {A : Type} (step : DataFrame -> A -> result DataFrame)
        (names : A -> list string).
Hypothesis step_frame :
  forall df a df', step df a = Ok df' ->
  forall c, ~ In c (names a) -> get_col df' c = get_col df c.

(** A loop leaves alone every column none of its turns writes. *)
Lemma fold_frame (l : list A) :
  forall df df', foldM step l df = Ok df' ->
  forall c, ~ In c (flat_map names l) -> get_col df' c = get_col df c.
Proof.
  induction l as [| a l IH]; simpl; intros df df' H c Hc.
  - inv_ok H. reflexivity.
  - inv_bind H. rewrite in_app_iff in Hc.
    rewrite (IH _ _ H) by tauto. eapply step_frame; eauto.
Qed.

End Loop.

(** ** The feature engineer, stage by stage *)

Module FeatureEngineerFacts.
Import Pandas Spec FeatureEngineer PandasFacts FillFacts.

Section Facts.
Context {prim : Primitives}.

(** *** The rolling stage *)

Lemma grouped_rolling_inv (df : DataFrame) (col : string) (w : nat)
  (agg : list Q -> option Q) (s : series) :
  grouped_rolling df col w agg = Ok s ->
  exists keys vals x,
    get_col df "city" = Some keys /\ get_col df col = Some vals /\
    floats vals = Ok x /\
    s = map of_float (groupby_transform None (rolling w agg) keys x).
Proof.
  unfold grouped_rolling. intros H. inv_bind H. inv_ok H.
  apply getitem_ok in E, E0. eauto 8.
Qed.

Lemma grouped_rolling_length (df : DataFrame) (col : string) (w : nat)
  (agg : list Q -> option Q) (s : series) :
  rectangular df -> grouped_rolling df col w agg = Ok s ->
  List.length s = nrows df.
Proof.
  intros R H. apply grouped_rolling_inv in H.
  destruct H as (keys & vals & x & Hk & _ & _ & ->).
  rewrite length_map, groupby_transform_length.
  eapply rectangular_get_col; eauto.
Qed.

Lemma rolling_step_frame (df : DataFrame) (cw : string * nat) (df' : DataFrame) :
  rolling_step df cw = Ok df' ->
  forall c, ~ In c (stat_names cw) -> get_col df' c = get_col df c.
Proof.
  destruct cw as [col w]. unfold rolling_step, stat_names. simpl.
  intros H c Hc. inv_bind H. inv_ok H.
  rewrite !get_col_set_col_other by (intros Heq; subst c; tauto). reflexivity.
Qed.

Lemma rolling_step_rect (df : DataFrame) (cw : string * nat) (df' : DataFrame) :
  rectangular df -> rolling_step df cw = Ok df' ->
  rectangular df' /\ nrows df' = nrows df.
Proof.
  destruct cw as [col w]. unfold rolling_step. intros R H. inv_bind H. inv_ok H.
  pose proof (grouped_rolling_length _ _ _ _ _ R E) as L1.
  pose proof (rectangular_set_col _ (stat_name col w "mean") _ R L1) as R1.
  pose proof (grouped_rolling_length _ _ _ _ _ R1 E0) as L2.
  split.
  - apply rectangular_set_col; assumption.
  - rewrite nrows_set_col by exact L2. apply nrows_set_col. exact L1.
Qed.

Lemma rolling_step_result (df : DataFrame) (cw : string * nat) (df' : DataFrame) :
  ~ In "city" (stat_names cw) -> ~ In (fst cw) (stat_names cw) ->
  NoDup (stat_names cw) ->
  rolling_step df cw = Ok df' ->
  forall keys vals x,
    get_col df "city" = Some keys -> get_col df (fst cw) = Some vals ->
    floats vals = Ok x ->
    get_col df' (stat_name (fst cw) (snd cw) "mean")
    = Some (map of_float
              (groupby_transform None (rolling (snd cw) (mean_agg 1)) keys x))
    /\ get_col df' (stat_name (fst cw) (snd cw) "std")
       = Some (map of_float
                 (groupby_transform None (rolling (snd cw) (std_agg 1)) keys x)).
Proof.
  destruct cw as [col w]. unfold rolling_step, stat_names. simpl.
  intros Hc Hs Hd H keys vals x Hk Hv Hx. inv_bind H. inv_ok H.
  apply grouped_rolling_inv in E, E0.
  destruct E as (k1 & v1 & x1 & Hk1 & Hv1 & Hx1 & ->).
  destruct E0 as (k2 & v2 & x2 & Hk2 & Hv2 & Hx2 & ->).
  rewrite get_col_set_col_other in Hk2, Hv2 by tauto.
  rewrite Hk in Hk1, Hk2. rewrite Hv in Hv1, Hv2.
  injection Hk1 as <-. injection Hk2 as <-.
  injection Hv1 as <-. injection Hv2 as <-.
  rewrite Hx in Hx1, Hx2. injection Hx1 as <-. injection Hx2 as <-.
  inversion Hd as [| ? ? Hnot _]; subst. simpl in Hnot.
  split.
  - rewrite get_col_set_col_other by tauto. apply get_col_set_col_same.
  - apply get_col_set_col_same.
Qed.

Lemma rolling_fold_frame (l : list (string * nat)) (df df' : DataFrame) :
  foldM rolling_step l df = Ok df' ->
  forall c, ~ In c (flat_map stat_names l) -> get_col df' c = get_col df c.
Proof. apply fold_frame. apply rolling_step_frame. Qed.

Lemma rolling_fold_rect (l : list (string * nat)) :
  forall df df', rectangular df -> foldM rolling_step l df = Ok df' ->
  rectangular df' /\ nrows df' = nrows df.
Proof.
  induction l as [| cw l IH]; simpl; intros df df' R H.
  - inv_ok H. auto.
  - inv_bind H. destruct (rolling_step_rect _ _ _ R E) as [R1 N1].
    destruct (IH _ _ R1 H) as [R2 N2]. split; [exact R2 | congruence].
Qed.

(** Every turn of the loop leaves in the frame the two statistics of its
    column, computed from the columns the frame had on entry. *)
Lemma rolling_fold_result (l : list (string * nat)) :
  NoDup (flat_map stat_names l) ->
  (forall c, In c ("city" :: map fst l) -> ~ In c (flat_map stat_names l)) ->
  forall df df', foldM rolling_step l df = Ok df' ->
  forall col w, In (col, w) l ->
  forall keys vals x,
    get_col df "city" = Some keys -> get_col df col = Some vals ->
    floats vals = Ok x ->
    get_col df' (stat_name col w "mean")
    = Some (map of_float
              (groupby_transform None (rolling w (mean_agg 1)) keys x))
    /\ get_col df' (stat_name col w "std")
       = Some (map of_float
                 (groupby_transform None (rolling w (std_agg 1)) keys x)).
Proof.
  induction l as [| cw l IH]; intros Hd Hs df df' H col w Hin keys vals x Hk Hv Hx.
  - contradiction.
  - simpl in H. inv_bind H.
    change (flat_map stat_names (cw :: l))
      with (stat_names cw ++ flat_map stat_names l) in Hd, Hs.
    apply NoDup_app_remove_l in Hd as Hd'.
    assert (forall c, In c ("city" :: map fst (cw :: l)) ->
                      ~ In c (stat_names cw)) as Hs1.
    { intros c Hc Hn. apply (Hs c Hc). apply in_or_app. auto. }
    assert (forall c, In c ("city" :: map fst (cw :: l)) ->
                      ~ In c (flat_map stat_names l)) as Hs2.
    { intros c Hc Hn. apply (Hs c Hc). apply in_or_app. auto. }
    assert (NoDup (stat_names cw)) as Hd1.
    { eapply NoDup_app_remove_r. exact Hd. }
    destruct Hin as [-> | Hl].
    + assert (forall n, In n (stat_names (col, w)) ->
                        ~ In n (flat_map stat_names l)) as Hfresh.
      { intros n Hn Hn'.
        eapply NoDup_app_apart; eauto. }
      rewrite !(rolling_fold_frame _ _ _ H)
        by (apply Hfresh; unfold stat_names; simpl; auto).
      apply (rolling_step_result df (col, w) a) with (vals := vals); auto.
      * apply Hs1. simpl. auto.
      * apply Hs1. simpl. auto.
    + apply (IH Hd') with (df := a) (vals := vals); auto.
      * intros c Hc. apply Hs2. simpl in *. tauto.
      * rewrite (rolling_step_frame _ _ _ E) by (apply Hs1; simpl; auto).
        exact Hk.
      * rewrite (rolling_step_frame _ _ _ E); [exact Hv |].
        apply Hs1. simpl. right. right.
        change col with (fst (col, w)). apply in_map. exact Hl.
Qed.

Lemma rolling_names_distinct : NoDup rolling_names.
Proof. apply distinctb_NoDup. vm_compute. reflexivity. Qed.

Lemma rolling_sources_apart :
  forall c, In c ("city" :: map fst (list_prod weather_cols windows)) ->
            ~ In c rolling_names.
Proof. apply disjointb_spec. vm_compute. reflexivity. Qed.

Lemma rolling_stage_result (df df' : DataFrame) :
  rolling_stage df = Ok df' ->
  forall col w, In col weather_cols -> In w windows ->
  forall keys vals x,
    get_col df "city" = Some keys -> get_col df col = Some vals ->
    floats vals = Ok x ->
    get_col df' (stat_name col w "mean")
    = Some (map of_float
              (groupby_transform None (rolling w (mean_agg 1)) keys x))
    /\ get_col df' (stat_name col w "std")
       = Some (map of_float
                 (groupby_transform None (rolling w (std_agg 1)) keys x)).
Proof.
  intros H col w Hc Hw keys vals x Hk Hv Hx.
  apply (rolling_fold_result (list_prod weather_cols windows)
           rolling_names_distinct rolling_sources_apart df df' H col w)
    with (vals := vals); auto.
  apply in_prod; assumption.
Qed.

Lemma rolling_stage_frame (df df' : DataFrame) :
  rolling_stage df = Ok df' ->
  forall c, ~ In c rolling_names -> get_col df' c = get_col df c.
Proof. apply rolling_fold_frame. Qed.

Lemma rolling_stage_rect (df df' : DataFrame) :
  rectangular df -> rolling_stage df = Ok df' ->
  rectangular df' /\ nrows df' = nrows df.
Proof. apply rolling_fold_rect. Qed.

(** *** The indicator stage *)

Lemma compare_length (test : Q -> bool) (s : series) (m : list bool) :
  compare test s = Ok m -> List.length m = List.length s.
Proof. apply mapM_length. Qed.

Lemma and_mask_length (a b : list bool) :
  List.length a = List.length b ->
  List.length (and_mask a b) = List.length a.
Proof.
  intros H. unfold and_mask. rewrite length_map, length_combine. lia.
Qed.

Lemma astype_int_populated (m : list bool) : populated (astype_int m).
Proof.
  unfold populated, astype_int. apply Forall_map.
  apply Forall_forall. intros [|] _; reflexivity.
Qed.

Lemma astype_int_length (m : list bool) :
  List.length (astype_int m) = List.length m.
Proof. apply length_map. Qed.

Lemma indicator_stage_inv (df df' : DataFrame) :
  indicator_stage df = Ok df' ->
  exists o b,
    df' = set_col (set_col df "optimal_mosquito_temp" o) "breeding_conditions" b
    /\ populated o /\ populated b
    /\ (rectangular df ->
        List.length o = nrows df /\ List.length b = nrows df).
Proof.
  unfold indicator_stage. intros H. inv_bind H. inv_ok H.
  do 2 eexists. split; [reflexivity |].
  split; [apply astype_int_populated |].
  split; [apply astype_int_populated |].
  intros R.
  apply getitem_ok in E, E1, E3, E5.
  apply compare_length in E0, E2, E4, E6.
  pose proof (rectangular_get_col _ _ _ R E) as La.
  pose proof (rectangular_get_col _ _ _ R E1) as La1.
  assert (List.length (astype_int (and_mask a0 a2)) = nrows df) as Lo.
  { rewrite astype_int_length, and_mask_length; lia. }
  split; [exact Lo |].
  pose proof (rectangular_set_col _ "optimal_mosquito_temp" _ R Lo) as R1.
  pose proof (rectangular_get_col _ _ _ R1 E3) as La3.
  pose proof (rectangular_get_col _ _ _ R1 E5) as La5.
  rewrite (nrows_set_col _ _ _ Lo) in La3, La5.
  rewrite astype_int_length, and_mask_length; lia.
Qed.

(** *** The lag stage *)

Lemma fillna_populated (v : cell) (s : series) :
  isna v = false -> populated (fillna v s).
Proof.
  intros Hv. unfold populated, fillna. apply Forall_map.
  apply Forall_forall. intros c _. destruct (isna c) eqn:E; assumption.
Qed.

Lemma fillna_length (v : cell) (s : series) :
  List.length (fillna v s) = List.length s.
Proof. apply length_map. Qed.

Lemma lag_step_inv (df : DataFrame) (lag : nat) (df' : DataFrame) :
  lag_step df lag = Ok df' ->
  exists keys b,
    get_col df "city" = Some keys /\
    get_col df "breeding_conditions" = Some b /\
    df' = set_col df (lag_name lag)
            (fillna (Num 0) (groupby_transform NaN (shift NaN lag) keys b)).
Proof.
  unfold lag_step. intros H. inv_bind H. inv_ok H.
  apply getitem_ok in E, E0. eauto.
Qed.

Lemma lag_step_frame (df : DataFrame) (lag : nat) (df' : DataFrame) :
  lag_step df lag = Ok df' ->
  forall c, ~ In c [lag_name lag] -> get_col df' c = get_col df c.
Proof.
  intros H c Hc. apply lag_step_inv in H.
  destruct H as (keys & b & _ & _ & ->).
  apply get_col_set_col_other. intros Heq. apply Hc. left. exact Heq.
Qed.

Lemma lag_step_rect (df : DataFrame) (lag : nat) (df' : DataFrame) :
  rectangular df -> lag_step df lag = Ok df' ->
  rectangular df' /\ nrows df' = nrows df.
Proof.
  intros R H. apply lag_step_inv in H.
  destruct H as (keys & b & Hk & _ & ->).
  assert (List.length
            (fillna (Num 0) (groupby_transform NaN (shift NaN lag) keys b))
          = nrows df) as L.
  { rewrite fillna_length, groupby_transform_length.
    eapply rectangular_get_col; eauto. }
  split; [apply rectangular_set_col | apply nrows_set_col]; assumption.
Qed.

Lemma lag_fold_frame (l : list nat) (df df' : DataFrame) :
  foldM lag_step l df = Ok df' ->
  forall c, ~ In c (map lag_name l) -> get_col df' c = get_col df c.
Proof.
  intros H c Hc.
  apply (fold_frame lag_step (fun lag => [lag_name lag]) lag_step_frame l df df' H).
  intros Hin. apply in_flat_map in Hin.
  destruct Hin as (x & Hx & [<- | []]). apply Hc, in_map, Hx.
Qed.

Lemma lag_fold_rect (l : list nat) :
  forall df df', rectangular df -> foldM lag_step l df = Ok df' ->
  rectangular df' /\ nrows df' = nrows df.
Proof.
  induction l as [| a l IH]; simpl; intros df df' R H.
  - inv_ok H. auto.
  - inv_bind H. destruct (lag_step_rect _ _ _ R E) as [R1 N1].
    destruct (IH _ _ R1 H) as [R2 N2]. split; [exact R2 | congruence].
Qed.

Lemma lag_fold_result (l : list nat) :
  NoDup (map lag_name l) ->
  (forall c, In c ["city"; "breeding_conditions"] -> ~ In c (map lag_name l)) ->
  forall df df', foldM lag_step l df = Ok df' ->
  forall lag, In lag l ->
  forall keys b,
    get_col df "city" = Some keys ->
    get_col df "breeding_conditions" = Some b ->
    get_col df' (lag_name lag)
    = Some (fillna (Num 0) (groupby_transform NaN (shift NaN lag) keys b)).
Proof.
  induction l as [| a l IH]; intros Hd Hs df df' H lag Hin keys b Hk Hb.
  - contradiction.
  - simpl in H. inv_bind H. simpl in Hd. inversion Hd as [| ? ? Ha Hd']; subst.
    pose proof (lag_step_inv _ _ _ E) as (k1 & b1 & Hk1 & Hb1 & Hdf).
    rewrite Hk in Hk1. injection Hk1 as <-.
    rewrite Hb in Hb1. injection Hb1 as <-.
    destruct Hin as [-> | Hl].
    + rewrite (lag_fold_frame _ _ _ H) by exact Ha.
      rewrite Hdf. apply get_col_set_col_same.
    + apply (IH Hd') with (df := a0); auto.
      * intros c Hc Hn. apply (Hs c Hc). simpl. auto.
      * rewrite (lag_step_frame _ _ _ E); [exact Hk |].
        intros [Heq | []]. apply (Hs "city"); simpl; auto.
      * rewrite (lag_step_frame _ _ _ E); [exact Hb |].
        intros [Heq | []]. apply (Hs "breeding_conditions"); simpl; auto.
Qed.

Lemma lag_names_distinct : NoDup lag_names.
Proof. apply distinctb_NoDup. vm_compute. reflexivity. Qed.

Lemma lag_sources_apart :
  forall c, In c ["city"; "breeding_conditions"] -> ~ In c lag_names.
Proof. apply disjointb_spec. vm_compute. reflexivity. Qed.

Lemma lag_stage_result (df df' : DataFrame) :
  lag_stage df = Ok df' ->
  forall lag, In lag lag_days ->
  forall keys b,
    get_col df "city" = Some keys ->
    get_col df "breeding_conditions" = Some b ->
    get_col df' (lag_name lag)
    = Some (fillna (Num 0) (groupby_transform NaN (shift NaN lag) keys b)).
Proof.
  apply (lag_fold_result lag_days lag_names_distinct lag_sources_apart).
Qed.

(** *** The repair stage *)

Lemma has_col_columns (df : DataFrame) (n : string) :
  has_col df n = true <-> In n (columns df).
Proof.
  unfold has_col. split.
  - destruct (get_col df n) eqn:E; [| discriminate].
    intros _. eapply get_col_columns; eauto.
  - intros H. apply In_get_col in H. destruct H as (v & ->). reflexivity.
Qed.

Lemma filter_nil {A : Type} (f : A -> bool) (l : list A) :
  (forall a, In a l -> f a = false) -> filter f l = [].
Proof.
  induction l as [| a l IH]; simpl; intros H; [reflexivity |].
  rewrite (H a) by auto. apply IH. auto.
Qed.

Lemma select_ok (df : DataFrame) (cols : list string) :
  (forall n, In n cols -> has_col df n = true) ->
  select df cols = Ok (map (fun n => (n, column df n)) cols).
Proof.
  intros H. unfold select. rewrite filter_nil; [reflexivity |].
  intros n Hn. rewrite (H n Hn). reflexivity.
Qed.

Lemma select_inv (df : DataFrame) (cols : list string) (sub : DataFrame) :
  select df cols = Ok sub ->
  (forall n, In n cols -> has_col df n = true) /\
  sub = map (fun n => (n, column df n)) cols.
Proof.
  unfold select. intros H.
  destruct (filter (fun n => negb (has_col df n)) cols) eqn:E;
    [| discriminate].
  inv_ok H. split; [| reflexivity].
  intros n Hn. destruct (has_col df n) eqn:Eh; [reflexivity |].
  assert (In n (filter (fun n => negb (has_col df n)) cols)) as Hin.
  { apply filter_In. rewrite Eh. auto. }
  rewrite E in Hin. contradiction.
Qed.

Lemma get_col_tabulate (V : string -> series) (cols : list string) (n : string) :
  get_col (map (fun n => (n, V n)) cols) n
  = if mem_string n cols then Some (V n) else None.
Proof.
  induction cols as [| m cols IH]; simpl; [reflexivity |].
  rewrite String.eqb_sym.
  destruct (String.eqb n m) eqn:E; simpl.
  - apply String.eqb_eq in E. subst m. reflexivity.
  - exact IH.
Qed.

Lemma get_col_map_cols (f : series -> series) (df : DataFrame) (n : string) :
  get_col (map_cols f df) n = option_map f (get_col df n).
Proof.
  induction df as [| [m v] df IH]; simpl; [reflexivity |].
  destruct (String.eqb m n); [reflexivity | exact IH].
Qed.

Lemma assign_cols_get (sub : DataFrame) (cols : list string) :
  forall df c,
    get_col (assign_cols df cols sub) c
    = if mem_string c cols
      then match get_col sub c with
           | Some v => Some v
           | None => get_col df c
           end
      else get_col df c.
Proof.
  unfold assign_cols.
  induction cols as [| n cols IH]; intros df c; simpl; [reflexivity |].
  rewrite IH.
  destruct (String.eqb c n) eqn:E; simpl.
  - apply String.eqb_eq in E. subst n.
    destruct (get_col sub c) eqn:Es.
    + rewrite get_col_set_col_same. destruct (mem_string c cols); reflexivity.
    + destruct (mem_string c cols); reflexivity.
  - apply String.eqb_neq in E.
    destruct (get_col sub n) eqn:Es; [| reflexivity].
    rewrite get_col_set_col_other by congruence. reflexivity.
Qed.

(** Filling a set of present columns succeeds, fills those and leaves the
    others. *)
Lemma fill_columns_get (fill : series -> series) (cols : list string)
  (df : DataFrame) :
  (forall n, In n cols -> has_col df n = true) ->
  exists df', fill_columns fill cols df = Ok df' /\
    forall c, get_col df' c
              = if mem_string c cols then option_map fill (get_col df c)
                else get_col df c.
Proof.
  intros H. unfold fill_columns. rewrite (select_ok _ _ H). simpl.
  eexists. split; [reflexivity |].
  intros c. rewrite assign_cols_get.
  destruct (mem_string c cols) eqn:E; [| reflexivity].
  rewrite get_col_map_cols, get_col_tabulate, E. simpl.
  apply mem_string_In in E. specialize (H c E). unfold has_col in H.
  unfold column. destruct (get_col df c); [reflexivity | discriminate].
Qed.

Lemma mem_all_weather_columns (df : DataFrame) (c : string) :
  mem_string c (all_weather_columns df)
  = has_col df c && negb (mem_string c exclude_columns).
Proof.
  apply eq_true_iff_eq. rewrite andb_true_iff, mem_string_In.
  unfold all_weather_columns. rewrite filter_In, has_col_columns. tauto.
Qed.

(** The repair always succeeds; it replaces every column outside the
    excluded set by its forward-then-backward fill and keeps the others. *)
Lemma fill_stage_get (d : DataFrame) :
  exists e, fill_stage d = Ok e /\
    forall c, get_col e c
              = if mem_string c exclude_columns then get_col d c
                else option_map (fun v => bfill (ffill v)) (get_col d c).
Proof.
  unfold fill_stage.
  assert (forall n, In n (all_weather_columns d) -> has_col d n = true) as H1.
  { intros n Hn. apply mem_string_In in Hn.
    rewrite mem_all_weather_columns in Hn. apply andb_true_iff in Hn. tauto. }
  destruct (fill_columns_get ffill _ d H1) as (d1 & E1 & G1).
  rewrite E1. cbn [bind].
  assert (forall n, In n (all_weather_columns d) -> has_col d1 n = true) as H2.
  { intros n Hn. unfold has_col. rewrite G1.
    apply mem_string_In in Hn as Hm. rewrite Hm.
    specialize (H1 n Hn). unfold has_col in H1.
    destruct (get_col d n); [reflexivity | discriminate]. }
  destruct (fill_columns_get bfill _ d1 H2) as (e & E2 & G2).
  exists e. split; [exact E2 |].
  intros c. rewrite G2, G1, mem_all_weather_columns.
  unfold has_col.
  destruct (mem_string c exclude_columns); destruct (get_col d c); reflexivity.
Qed.

Lemma in_assign_cols (sub : DataFrame) (cols : list string) :
  forall df p,
    In p (assign_cols df cols sub) ->
    In p df \/ get_col sub (fst p) = Some (snd p).
Proof.
  unfold assign_cols.
  induction cols as [| n cols IH]; intros df p H; simpl in H; [auto |].
  destruct (IH _ _ H) as [Hin | Hs]; [| auto].
  destruct (get_col sub n) eqn:E; [| auto].
  destruct (in_set_col _ _ _ _ Hin) as [H' | ->]; auto.
Qed.

Lemma nrows_assign_cols (sub : DataFrame) (cols : list string) :
  forall df,
    (forall n v, get_col sub n = Some v -> List.length v = nrows df) ->
    nrows (assign_cols df cols sub) = nrows df.
Proof.
  unfold assign_cols.
  induction cols as [| n cols IH]; intros df L; simpl; [reflexivity |].
  destruct (get_col sub n) eqn:E; [| apply IH; exact L].
  rewrite IH.
  - apply nrows_set_col. eapply L; eauto.
  - intros m v Hv. rewrite nrows_set_col by (eapply L; eauto). eapply L; eauto.
Qed.

Lemma fill_columns_rect (fill : series -> series) (cols : list string)
  (df df' : DataFrame) :
  (forall v, List.length (fill v) = List.length v) ->
  rectangular df -> fill_columns fill cols df = Ok df' ->
  rectangular df' /\ nrows df' = nrows df.
Proof.
  intros Lf R H. unfold fill_columns in H. inv_bind H. injection H as <-.
  apply select_inv in E. destruct E as [Hp ->].
  assert (forall n v,
            get_col (map_cols fill (map (fun n => (n, column df n)) cols)) n
            = Some v -> List.length v = nrows df) as L.
  { intros n v Hv. rewrite get_col_map_cols, get_col_tabulate in Hv.
    destruct (mem_string n cols) eqn:Em; [| discriminate Hv].
    simpl in Hv. injection Hv as <-. rewrite Lf.
    apply mem_string_In in Em. specialize (Hp n Em).
    unfold has_col in Hp. unfold column.
    destruct (get_col df n) eqn:Ev; [| discriminate Hp].
    eapply rectangular_get_col; eauto. }
  pose proof (nrows_assign_cols _ cols df L) as N.
  split; [| exact N].
  intros n v Hin. rewrite N.
  destruct (in_assign_cols _ _ _ _ Hin) as [H | H].
  - eapply R; eauto.
  - eapply L; eauto.
Qed.

Lemma fill_stage_rect (d e : DataFrame) :
  rectangular d -> fill_stage d = Ok e -> rectangular e /\ nrows e = nrows d.
Proof.
  intros R H. unfold fill_stage in H. inv_bind H.
  destruct (fill_columns_rect ffill _ _ _
              (fun v => ffill_from_length v NaN) R E) as [R1 N1].
  destruct (fill_columns_rect bfill _ _ _ bfill_length R1 H) as [R2 N2].
  split; [exact R2 | congruence].
Qed.

(** *** The row filter *)

Lemma filter_rows_all (mask : list bool) (df : DataFrame) :
  rectangular df -> Forall (fun b => b = true) mask ->
  List.length mask = nrows df ->
  filter_rows mask df = df.
Proof.
  intros R Hm L. unfold filter_rows.
  rewrite <- (map_id df) at 2. apply map_ext_in. intros [n v] Hin.
  rewrite mask_filter_all_true; [reflexivity | exact Hm |].
  rewrite L. symmetry. eapply R; eauto.
Qed.


Lemma get_col_filter_rows (mask : list bool) (df : DataFrame) (n : string) :
  get_col (filter_rows mask df) n = option_map (mask_filter mask) (get_col df n).
Proof.
  induction df as [| [m v] df IH]; simpl; [reflexivity |].
  destruct (String.eqb m n); [reflexivity | exact IH].
Qed.

Lemma dropna_inv (df : DataFrame) (subset : list string) (out : DataFrame) :
  dropna df subset = Ok out ->
  (forall n, In n subset -> has_col df n = true) /\
  out = filter_rows
          (map (fun i => forallb (fun n => notna (cell_at df n i)) subset)
               (seq 0 (nrows df))) df.
Proof.
  unfold dropna. intros H.
  destruct (filter (fun n => negb (has_col df n)) subset) eqn:E;
    [| discriminate].
  inv_ok H. split; [| reflexivity].
  intros n Hn. destruct (has_col df n) eqn:Eh; [reflexivity |].
  assert (In n (filter (fun n => negb (has_col df n)) subset)) as Hin.
  { apply filter_In. rewrite Eh. auto. }
  rewrite E in Hin. contradiction.
Qed.

(** A frame whose subset columns hold a value in every row loses no row. *)
Lemma dropna_nothing (df : DataFrame) (subset : list string) (out : DataFrame) :
  rectangular df ->
  (forall n i, In n subset -> (i < nrows df)%nat ->
               isna (cell_at df n i) = false) ->
  dropna df subset = Ok out -> out = df.
Proof.
  intros R Hfull H. apply dropna_inv in H. destruct H as [_ ->].
  apply filter_rows_all; [exact R | | rewrite length_map, length_seq; reflexivity].
  apply Forall_map. apply Forall_forall. intros i Hi.
  apply in_seq in Hi. apply forallb_forall. intros n Hn.
  unfold notna. rewrite Hfull by (auto; lia). reflexivity.
Qed.

(** *** The three stages together *)

Lemma derived_names_distinct : NoDup derived_names.
Proof. apply distinctb_NoDup. vm_compute. reflexivity. Qed.

Lemma derived_names_not_excluded :
  forall c, In c derived_names -> mem_string c exclude_columns = false.
Proof.
  intros c Hc. destruct (mem_string c exclude_columns) eqn:E; [| reflexivity].
  apply mem_string_In in E.
  assert (disjointb derived_names exclude_columns = true) as D
    by (vm_compute; reflexivity).
  exfalso. exact (disjointb_spec _ _ D c Hc E).
Qed.

Lemma rolling_not_later :
  forall c, In c rolling_names -> ~ In c (indicator_names ++ lag_names).
Proof. apply NoDup_app_apart. exact derived_names_distinct. Qed.

Lemma indicators_not_lags :
  forall c, In c indicator_names -> ~ In c lag_names.
Proof.
  apply NoDup_app_apart.
  exact (NoDup_app_remove_l _ _ derived_names_distinct).
Qed.

Lemma derive_inv (df d : DataFrame) :
  derive_weather_features df = Ok d ->
  exists r o b,
    rolling_stage df = Ok r /\ populated o /\ populated b /\
    lag_stage (set_col (set_col r "optimal_mosquito_temp" o)
                 "breeding_conditions" b) = Ok d /\
    (rectangular df -> List.length o = nrows df /\ List.length b = nrows df).
Proof.
  unfold derive_weather_features. intros H. inv_bind H.
  apply indicator_stage_inv in E0.
  destruct E0 as (o & b & -> & Po & Pb & L).
  exists a, o, b. do 4 (split; [assumption |]).
  intros R. destruct (rolling_stage_rect _ _ R E) as [R1 N1].
  rewrite <- N1. apply L. exact R1.
Qed.

(** The derived columns apart, the stages change nothing. *)
Lemma derive_frame (df d : DataFrame) :
  derive_weather_features df = Ok d ->
  forall c, ~ In c derived_names -> get_col d c = get_col df c.
Proof.
  intros H c Hc. apply derive_inv in H.
  destruct H as (r & o & b & Hr & _ & _ & Hl & _).
  unfold derived_names in Hc. rewrite !in_app_iff in Hc.
  rewrite (lag_fold_frame _ _ _ Hl) by tauto.
  rewrite !get_col_set_col_other
    by (intros Heq; apply Hc; right; left; subst c; simpl; auto).
  apply (rolling_stage_frame _ _ Hr). tauto.
Qed.

Lemma derive_rolling (df r d : DataFrame) :
  rolling_stage df = Ok r -> derive_weather_features df = Ok d ->
  forall c, In c rolling_names -> get_col d c = get_col r c.
Proof.
  intros Hr H c Hc. apply derive_inv in H.
  destruct H as (r' & o & b & Hr' & _ & _ & Hl & _).
  rewrite Hr in Hr'. injection Hr' as <-.
  pose proof (rolling_not_later c Hc) as Hn. rewrite in_app_iff in Hn.
  rewrite (lag_fold_frame _ _ _ Hl) by tauto.
  rewrite !get_col_set_col_other
    by (intros Heq; apply Hn; left; subst c; simpl; auto).
  reflexivity.
Qed.

Lemma derive_indicators (df d : DataFrame) :
  derive_weather_features df = Ok d ->
  exists o b,
    populated o /\ populated b /\
    get_col d "optimal_mosquito_temp" = Some o /\
    get_col d "breeding_conditions" = Some b /\
    (rectangular df -> List.length b = nrows df) /\
    forall keys, get_col df "city" = Some keys ->
    forall lag, In lag lag_days ->
      get_col d (lag_name lag)
      = Some (fillna (Num 0) (groupby_transform NaN (shift NaN lag) keys b)).
Proof.
  intros H. pose proof (derive_frame _ _ H) as F. apply derive_inv in H.
  destruct H as (r & o & b & Hr & Po & Pb & Hl & L).
  exists o, b. do 2 (split; [assumption |]).
  assert (~ In "optimal_mosquito_temp" lag_names) as N1
    by (apply indicators_not_lags; simpl; auto).
  assert (~ In "breeding_conditions" lag_names) as N2
    by (apply indicators_not_lags; simpl; auto).
  split.
  { rewrite (lag_fold_frame _ _ _ Hl) by exact N1.
    rewrite get_col_set_col_other
      by (apply String.eqb_neq; vm_compute; reflexivity).
    apply get_col_set_col_same. }
  split.
  { rewrite (lag_fold_frame _ _ _ Hl) by exact N2.
    apply get_col_set_col_same. }
  split; [intros R; apply L, R |].
  intros keys Hk lag Hlag.
  apply (lag_stage_result _ _ Hl lag Hlag).
  - rewrite !get_col_set_col_other
      by (apply String.eqb_neq; vm_compute; reflexivity).
    rewrite (rolling_stage_frame _ _ Hr); [exact Hk |].
    apply rolling_sources_apart. simpl. auto.
  - apply get_col_set_col_same.
Qed.

Lemma derive_rect (df d : DataFrame) :
  rectangular df -> derive_weather_features df = Ok d ->
  rectangular d /\ nrows d = nrows df.
Proof.
  intros R H. apply derive_inv in H.
  destruct H as (r & o & b & Hr & _ & _ & Hl & L).
  destruct (L R) as [Lo Lb].
  destruct (rolling_stage_rect _ _ R Hr) as [R1 N1].
  rewrite <- N1 in Lo, Lb.
  pose proof (rectangular_set_col _ "optimal_mosquito_temp" _ R1 Lo) as R2.
  pose proof (nrows_set_col _ "optimal_mosquito_temp" _ Lo) as N2.
  rewrite <- N2 in Lb.
  pose proof (rectangular_set_col _ "breeding_conditions" _ R2 Lb) as R3.
  pose proof (nrows_set_col _ "breeding_conditions" _ Lb) as N3.
  destruct (lag_fold_rect _ _ _ R3 Hl) as [R4 N4].
  split; [exact R4 | congruence].
Qed.

(** *** The whole method *)

Lemma create_inv (df out : DataFrame) :
  create_weather_features df = Ok out ->
  exists d e,
    derive_weather_features df = Ok d /\ fill_stage d = Ok e /\
    repaired_weather_features df = Ok e /\
    dropna e exclude_columns = Ok out.
Proof.
  unfold create_weather_features. intros H. inv_bind H.
  pose proof E as E'. unfold repaired_weather_features in E'. inv_bind E'.
  eauto 8.
Qed.

(** A column outside the excluded set: derived, repaired, filtered. *)
Lemma create_column (df d out : DataFrame) (c : string) (v : series) :
  derive_weather_features df = Ok d ->
  create_weather_features df = Ok out ->
  mem_string c exclude_columns = false ->
  get_col d c = Some v ->
  exists mask, get_col out c = Some (mask_filter mask (bfill (ffill v))).
Proof.
  intros Hd H Hc Hv. apply create_inv in H.
  destruct H as (d' & e & Hd' & He & _ & Ho).
  rewrite Hd in Hd'. injection Hd' as <-.
  destruct (fill_stage_get d) as (e' & He' & G).
  rewrite He in He'. injection He' as <-.
  apply dropna_inv in Ho. destruct Ho as [_ ->].
  eexists. rewrite get_col_filter_rows, G, Hc, Hv. reflexivity.
Qed.

(** Inside a city the lagged indicator is the indicator [lag] rows up, and 0
    on the city's first [lag] rows. *)
Lemma lagged_group (keys b : series) (city : cell) (lag : nat) :
  isna city = false -> List.length keys = List.length b -> populated b ->
  forall i, (i < count_key city keys)%nat ->
    nth i (group_values city keys
             (fillna (Num 0) (groupby_transform NaN (shift NaN lag) keys b)))
        NaN
    = if (i <? lag)%nat then Num 0
      else nth (i - lag) (group_values city keys b) NaN.
Proof.
  intros Hc L Pb i Hi. unfold fillna.
  rewrite group_values_map.
  rewrite groupby_transform_group
    by (auto; intros g; apply shift_length).
  pose proof (group_values_length city keys b L) as Lg.
  set (own := group_values city keys b) in *.
  set (f := fun c : cell => if isna c then Num 0 else c).
  rewrite nth_indep with (d' := f NaN)
    by (rewrite length_map, shift_length; lia).
  rewrite (map_nth f), shift_nth by lia. unfold f.
  destruct (i <? lag)%nat eqn:E; [reflexivity |].
  assert (isna (nth (i - lag) own NaN) = false) as Hn.
  { assert (populated own) as Po by (apply mask_filter_Forall; exact Pb).
    unfold populated in Po. rewrite Forall_forall in Po.
    apply Po. apply nth_In. lia. }
  rewrite Hn. reflexivity.
Qed.

(** *** What a successful run read *)

Lemma rolling_fold_sources (l : list (string * nat)) :
  (forall c, In c ("city" :: map fst l) -> ~ In c (flat_map stat_names l)) ->
  forall df df', foldM rolling_step l df = Ok df' ->
  forall col w, In (col, w) l ->
  exists keys vals x,
    get_col df "city" = Some keys /\ get_col df col = Some vals /\
    floats vals = Ok x.
Proof.
  induction l as [| cw l IH]; intros Hs df df' H col w Hin; [contradiction |].
  simpl in H. inv_bind H.
  change (flat_map stat_names (cw :: l))
    with (stat_names cw ++ flat_map stat_names l) in Hs.
  destruct Hin as [-> | Hl].
  - unfold rolling_step in E. inv_bind E.
    apply grouped_rolling_inv in E0.
    destruct E0 as (keys & vals & x & Hk & Hv & Hx & _).
    exists keys, vals, x. auto.
  - destruct (IH) with (df := a) (df' := df') (col := col) (w := w)
      as (keys & vals & x & Hk & Hv & Hx); auto.
    { intros c Hc Hn. apply (Hs c); [simpl in *; tauto |].
      apply in_or_app. auto. }
    exists keys, vals, x.
    rewrite <- (rolling_step_frame _ _ _ E "city"),
            <- (rolling_step_frame _ _ _ E col); auto.
    + intros Hn. apply (Hs col).
      * simpl. right. right. change col with (fst (col, w)).
        apply in_map. exact Hl.
      * apply in_or_app. auto.
    + intros Hn. apply (Hs "city"); [simpl; auto |].
      apply in_or_app. auto.
Qed.

(** *** What an absent column does *)

Lemma rolling_step_ok (df : DataFrame) (cw : string * nat)
  (keys vals : series) (x : list (option Q)) :
  ~ In "city" (stat_names cw) -> ~ In (fst cw) (stat_names cw) ->
  get_col df "city" = Some keys -> get_col df (fst cw) = Some vals ->
  floats vals = Ok x ->
  exists df', rolling_step df cw = Ok df'.
Proof.
  destruct cw as [col w]. unfold stat_names. simpl.
  intros Hc Hs Hk Hv Hx.
  unfold rolling_step, grouped_rolling, getitem.
  rewrite Hk, Hv. cbn [bind]. rewrite Hx. cbn [bind].
  rewrite !get_col_set_col_other by tauto.
  rewrite Hk, Hv. cbn [bind]. rewrite Hx. cbn [bind].
  eexists. reflexivity.
Qed.

Lemma rolling_step_absent (df : DataFrame) (cw : string * nat) (keys : series) :
  get_col df "city" = Some keys -> get_col df (fst cw) = None ->
  rolling_step df cw = Raise (KeyError [fst cw]).
Proof.
  destruct cw as [col w]. simpl. intros Hk Hv.
  unfold rolling_step, grouped_rolling, getitem.
  rewrite Hk, Hv. reflexivity.
Qed.

(** The loop stops at the first turn whose column is absent, with a
    [KeyError] that names it. *)
Lemma rolling_fold_raise (l1 : list (string * nat)) (cw : string * nat)
  (l2 : list (string * nat)) :
  (forall c, In c ("city" :: map fst (l1 ++ [cw])) ->
             ~ In c (flat_map stat_names l1)) ->
  forall df keys,
    get_col df "city" = Some keys ->
    (forall cw', In cw' l1 ->
       exists vals x, get_col df (fst cw') = Some vals /\ floats vals = Ok x) ->
    get_col df (fst cw) = None ->
    foldM rolling_step (l1 ++ cw :: l2) df = Raise (KeyError [fst cw]).
Proof.
  induction l1 as [| a l1 IH]; intros Hs df keys Hk Hn Hv.
  - simpl. rewrite (rolling_step_absent df cw keys Hk Hv). reflexivity.
  - change (flat_map stat_names (a :: l1))
      with (stat_names a ++ flat_map stat_names l1) in Hs.
    assert (forall c, In c ("city" :: map fst ((a :: l1) ++ [cw])) ->
                      ~ In c (stat_names a)) as Hs1.
    { intros c Hc Hin. apply (Hs c Hc). apply in_or_app. auto. }
    destruct (Hn a (or_introl eq_refl)) as (vals & x & Hva & Hx).
    destruct (rolling_step_ok df a keys vals x) as (df1 & E); auto.
    { apply Hs1. simpl. auto. }
    { apply Hs1. simpl. auto. }
    simpl. rewrite E. cbn [bind].
    apply (IH) with (keys := keys).
    + intros c Hc Hin. apply (Hs c).
      * simpl in *. tauto.
      * apply in_or_app. auto.
    + rewrite (rolling_step_frame _ _ _ E); [exact Hk |].
      apply Hs1. simpl. auto.
    + intros cw' Hcw'. destruct (Hn cw' (or_intror Hcw')) as (v' & x' & Hv' & Hx').
      exists v', x'. split; [| exact Hx'].
      rewrite (rolling_step_frame _ _ _ E); [exact Hv' |].
      apply Hs1. simpl. right. right. rewrite map_app. apply in_or_app. left.
      apply in_map. exact Hcw'.
    + rewrite (rolling_step_frame _ _ _ E); [exact Hv |].
      apply Hs1. simpl. right. right. rewrite map_app. apply in_or_app. right.
      simpl. auto.
Qed.

Lemma has_col_false (df : DataFrame) (c : string) :
  has_col df c = false -> get_col df c = None.
Proof. unfold has_col. destruct (get_col df c); [discriminate | reflexivity]. Qed.

Lemma rolling_stage_first_absent (df : DataFrame) (col : string) (keys : series) :
  get_col df "city" = Some keys ->
  find (fun c => negb (has_col df c)) weather_cols = Some col ->
  (forall c vals, In c weather_cols -> get_col df c = Some vals ->
                  exists x, floats vals = Ok x) ->
  rolling_stage df = Raise (KeyError [col]).
Proof.
  intros Hk Hfind Hnum.
  assert (forall c, In c weather_cols -> has_col df c = true ->
                    exists vals x, get_col df c = Some vals /\ floats vals = Ok x)
    as Hpresent.
  { intros c Hc Hh. unfold has_col in Hh.
    destruct (get_col df c) as [vals |] eqn:Ev; [| discriminate Hh].
    destruct (Hnum c vals Hc Ev) as (x & Hx). eauto. }
  assert (forall l1 cw l2,
            list_prod weather_cols windows = l1 ++ cw :: l2 ->
            disjointb ("city" :: map fst (l1 ++ [cw]))
                      (flat_map stat_names l1) = true ->
            (forall cw', In cw' l1 -> In (fst cw') weather_cols /\
                                      has_col df (fst cw') = true) ->
            has_col df (fst cw) = false ->
            rolling_stage df = Raise (KeyError [fst cw])) as Stop.
  { intros l1 cw l2 Hl Hd Hp Ha. unfold rolling_stage. rewrite Hl.
    apply rolling_fold_raise with (keys := keys).
    - apply disjointb_spec. exact Hd.
    - exact Hk.
    - intros cw' Hcw'. destruct (Hp cw' Hcw'). apply Hpresent; assumption.
    - apply has_col_false. exact Ha. }
  unfold weather_cols in Hfind. cbn [find] in Hfind.
  destruct (has_col df "temperature_2m_max") eqn:H1; cbn [negb] in Hfind.
  2:{ injection Hfind as <-.
      apply (Stop [] ("temperature_2m_max", 3%nat)
               (skipn 1 (list_prod weather_cols windows)));
        [reflexivity | vm_compute; reflexivity | intros ? [] | exact H1]. }
  destruct (has_col df "temperature_2m_min") eqn:H2; cbn [negb] in Hfind.
  2:{ injection Hfind as <-.
      apply (Stop (firstn 3 (list_prod weather_cols windows))
               ("temperature_2m_min", 3%nat)
               (skipn 4 (list_prod weather_cols windows)));
        [reflexivity | vm_compute; reflexivity | | exact H2].
      intros cw' Hcw'. simpl in Hcw'.
      repeat (destruct Hcw' as [<- | Hcw'];
              [split; [apply mem_string_In; reflexivity | assumption] |]).
      contradiction. }
  destruct (has_col df "precipitation_sum") eqn:H3; cbn [negb] in Hfind.
  2:{ injection Hfind as <-.
      apply (Stop (firstn 6 (list_prod weather_cols windows))
               ("precipitation_sum", 3%nat)
               (skipn 7 (list_prod weather_cols windows)));
        [reflexivity | vm_compute; reflexivity | | exact H3].
      intros cw' Hcw'. simpl in Hcw'.
      repeat (destruct Hcw' as [<- | Hcw'];
              [split; [apply mem_string_In; reflexivity | assumption] |]).
      contradiction. }
  destruct (has_col df "wind_speed_10m_max") eqn:H4; cbn [negb] in Hfind.
  2:{ injection Hfind as <-.
      apply (Stop (firstn 9 (list_prod weather_cols windows))
               ("wind_speed_10m_max", 3%nat)
               (skipn 10 (list_prod weather_cols windows)));
        [reflexivity | vm_compute; reflexivity | | exact H4].
      intros cw' Hcw'. simpl in Hcw'.
      repeat (destruct Hcw' as [<- | Hcw'];
              [split; [apply mem_string_In; reflexivity | assumption] |]).
      contradiction. }
  discriminate Hfind.
Qed.

Lemma rolling_stage_sources (df df' : DataFrame) :
  rolling_stage df = Ok df' ->
  forall col w, In col weather_cols -> In w windows ->
  exists keys vals x,
    get_col df "city" = Some keys /\ get_col df col = Some vals /\
    floats vals = Ok x.
Proof.
  intros H col w Hc Hw.
  apply (rolling_fold_sources _ rolling_sources_apart df df' H col w).
  apply in_prod; assumption.
Qed.

End Facts.
End FeatureEngineerFacts.

(* ================================================================== *)
(** * The feature engineer against its specification *)
(* ================================================================== *)

Module FeatureEngineerSpec.
Import Pandas Spec FeatureEngineer PandasFacts FillFacts FeatureEngineerFacts.

Section Claims.
Context {prim : Primitives}.

Lemma cyclic_step_frame (df : DataFrame) (cm : string * Z) (df' : DataFrame) :
  cyclic_step df cm = Ok df' ->
  forall c, ~ In c (cyclic_names cm) -> get_col df' c = get_col df c.
Proof.
  destruct cm as [col max_val]. unfold cyclic_step, cyclic_names. simpl.
  intros H c Hc. inv_bind H. inv_ok H.
  rewrite !get_col_set_col_other by (intros Heq; subst c; tauto). reflexivity.
Qed.

Lemma add_dt_inv (name : string) (field : date -> Z) (df df' : DataFrame) :
  add_dt name field df = Ok df' ->
  exists dates v,
    get_col df "date" = Some dates /\ dt field dates = Ok v /\
    df' = set_col df name v.
Proof.
  unfold add_dt. intros H. inv_bind H. inv_ok H.
  apply getitem_ok in E. eauto.
Qed.

Lemma season_bins_by_month (m : Z) :
  1 <= m <= 12 ->
  cut_bins (inject_Z m) season_bins season_labels = Str (season_of_month m).
Proof.
  intros Hm.
  assert (m = 1 \/ m = 2 \/ m = 3 \/ m = 4 \/ m = 5 \/ m = 6 \/ m = 7 \/
          m = 8 \/ m = 9 \/ m = 10 \/ m = 11 \/ m = 12) as Hc by lia.
  repeat (destruct Hc as [-> | Hc]; [reflexivity |]). subst m. reflexivity.
Qed.

Lemma season_cell (df out : DataFrame) (dates : series) :
  create_temporal_features df = Ok out ->
  get_col df "date" = Some dates ->
  forall i d,
    nth_error dates i = Some (Ts d) ->
    1 <= month d <= 12 ->
    cell_at out "season" i = Str (season_of_month (month d)).
Proof.
  intros H Hdates i d Hi Hm.
  unfold create_temporal_features in H. inv_bind H.
  apply add_dt_inv in E, E0, E1, E2, E3.
  destruct E as (dates0 & v0 & Hd0 & Hv0 & ->).
  destruct E0 as (? & v1 & _ & _ & ->).
  destruct E1 as (? & v2 & _ & _ & ->).
  destruct E2 as (? & v3 & _ & _ & ->).
  destruct E3 as (? & v4 & _ & _ & ->).
  rewrite Hdates in Hd0. injection Hd0 as <-.
  apply getitem_ok in E4.
  rewrite !get_col_set_col_other in E4
    by (apply String.eqb_neq; vm_compute; reflexivity).
  rewrite get_col_set_col_same in E4. injection E4 as <-.
  destruct (mapM_nth_error _ _ _ Hv0 i _ Hi) as (c & Hc & Hvi).
  injection Hc as <-.
  destruct (mapM_nth_error _ _ _ E5 i _ Hvi) as (s & Hs & Hsi).
  injection Hs as <-.
  unfold cell_at.
  rewrite (fold_frame cyclic_step cyclic_names cyclic_step_frame _ _ _ H).
  - rewrite get_col_set_col_same.
    rewrite (nth_error_nth _ _ _ Hsi).
    apply season_bins_by_month. exact Hm.
  - apply (disjointb_spec ["season"]); [vm_compute; reflexivity | simpl; auto].
Qed.

(** C9.  The season of a row is read off its month alone: months 1 to 5
    give "Dry", months 6 to 10 "Rainy", months 11 and 12 "Dry", each bin
    closed on its upper edge. *)
Theorem season_by_month (df out : DataFrame) (dates : series) :
  create_temporal_features df = Ok out ->
  get_col df "date" = Some dates ->
  forall i d,
    nth_error dates i = Some (Ts d) ->
    (1 <= month d <= 5 -> cell_at out "season" i = Str "Dry") /\
    (6 <= month d <= 10 -> cell_at out "season" i = Str "Rainy") /\
    (11 <= month d <= 12 -> cell_at out "season" i = Str "Dry").
Proof.
  intros H Hdates i d Hi.
  pose proof (season_cell df out dates H Hdates i d Hi) as S.
  unfold season_of_month in S.
  repeat split; intros Hm; rewrite S by lia.
  - destruct (Z.leb_spec (month d) 5); [reflexivity | lia].
  - destruct (Z.leb_spec (month d) 5); [lia |].
    destruct (Z.leb_spec (month d) 10); [reflexivity | lia].
  - destruct (Z.leb_spec (month d) 5); [lia |].
    destruct (Z.leb_spec (month d) 10); [lia | reflexivity].
Qed.

(** C2, as amended.  When one of the four expected weather columns is
    absent the weather feature builder does not skip it: the method raises,
    and no enriched dataset is returned.  With the city column in place and
    the weather columns that are present numeric, the error is a [KeyError]
    that names the first absent column. *)
Theorem absent_weather_column_raises (df : DataFrame) (col : string) :
  In col weather_cols ->
  has_col df col = false ->
  (exists err, create_weather_features df = Raise err) /\
  (has_col df "city" = true ->
   find (fun c => negb (has_col df c)) weather_cols = Some col ->
   (forall c vals, In c weather_cols -> get_col df c = Some vals ->
                   exists x, floats vals = Ok x) ->
   create_weather_features df = Raise (KeyError [col])).
Proof.
  intros Hcol Hmiss. split.
  - destruct (create_weather_features df) as [out | err] eqn:E; [| eauto].
    exfalso.
    destruct (create_inv _ _ E) as (d & _ & Hd & _).
    destruct (derive_inv _ _ Hd) as (r & _ & _ & Hr & _).
    destruct (rolling_stage_sources _ _ Hr col 3%nat Hcol)
      as (_ & vals & _ & _ & Hv & _); [simpl; auto |].
    unfold has_col in Hmiss. rewrite Hv in Hmiss. discriminate Hmiss.
  - intros Hcity Hfind Hnum.
    unfold has_col in Hcity.
    destruct (get_col df "city") as [keys |] eqn:Hk; [| discriminate Hcity].
    unfold create_weather_features, repaired_weather_features,
      derive_weather_features.
    rewrite (rolling_stage_first_absent df col keys Hk Hfind Hnum).
    reflexivity.
Qed.

(** C4, as amended.  After the rolling loop, for every weather column and
    every window of 3, 7 or 14 rows, the statistics of a city are the
    rolling statistics of that city's own values and of no other row: at
    position [i] of the city's series the mean is the mean of the values
    present among the city's last [w] rows and is missing only when there is
    none, while the standard deviation is missing whenever fewer than two
    values are present, hence always at the city's first row. *)
Theorem rolling_statistics_per_city (df r : DataFrame) :
  rectangular df ->
  rolling_stage df = Ok r ->
  forall col w, In col weather_cols -> In w windows ->
  exists keys vals x means stds,
    get_col df "city" = Some keys /\ get_col df col = Some vals /\
    floats vals = Ok x /\
    get_col r (stat_name col w "mean") = Some means /\
    get_col r (stat_name col w "std") = Some stds /\
    forall city, isna city = false ->
      let own := group_values city keys x in
      group_values city keys means = map of_float (rolling w (mean_agg 1) own) /\
      group_values city keys stds = map of_float (rolling w (std_agg 1) own) /\
      (forall i, (i < List.length own)%nat ->
         let obs := observations (window_at w own i) in
         nth i (group_values city keys means) NaN
         = match obs with [] => NaN | _ => Num (Qmean obs) end /\
         (isna (nth i (group_values city keys stds) NaN) = true
          <-> (List.length obs < 2)%nat)) /\
      (own <> [] -> nth 0 (group_values city keys stds) NaN = NaN).
Proof.
  intros R H col w Hc Hw.
  destruct (rolling_stage_sources _ _ H col w Hc Hw)
    as (keys & vals & x & Hk & Hv & Hx).
  destruct (rolling_stage_result _ _ H col w Hc Hw keys vals x Hk Hv Hx)
    as [Hm Hs].
  do 5 eexists. do 5 (split; [eassumption |]).
  intros city Hcity own.
  assert (List.length keys = List.length x) as L.
  { apply mapM_length in Hx.
    rewrite Hx, (rectangular_get_col _ _ _ R Hk),
            (rectangular_get_col _ _ _ R Hv). reflexivity. }
  assert (forall agg,
            group_values city keys
              (map of_float (groupby_transform None (rolling w agg) keys x))
            = map of_float (rolling w agg own)) as G.
  { intros agg. rewrite group_values_map.
    rewrite groupby_transform_group; auto.
    intros g. apply rolling_length. }
  rewrite !G. split; [reflexivity |]. split; [reflexivity |].
  assert (forall agg i, (i < List.length own)%nat ->
            nth i (map of_float (rolling w agg own)) NaN
            = of_float (agg (observations (window_at w own i)))) as N.
  { intros agg i Hi.
    change NaN with (of_float None). rewrite map_nth.
    rewrite rolling_nth by exact Hi. reflexivity. }
  split.
  - intros i Hi obs. rewrite !N by exact Hi. fold obs. split.
    + unfold mean_agg. destruct obs; reflexivity.
    + destruct (std_agg 1 obs) eqn:Es; simpl.
      * split; [discriminate |]. intros Hlt.
        apply std_agg_none in Hlt. congruence.
      * split; [| reflexivity]. intros _. apply std_agg_none. exact Es.
  - intros Hne. destruct own as [| y own']; [congruence |].
    rewrite N by (simpl; lia).
    assert (1 <= w)%nat as Hw1.
    { unfold windows in Hw. simpl in Hw. lia. }
    rewrite window_at_start by exact Hw1.
    destruct y; reflexivity.
Qed.

(** C5, as amended.  After the repair every derived weather column that
    held a value somewhere before it is fully populated, and the indicator
    and lag columns always are; a rolling statistic without any value stays
    missing throughout. *)
Theorem repaired_columns_populated (df out : DataFrame) :
  create_weather_features df = Ok out ->
  exists d,
    derive_weather_features df = Ok d /\
    forall c, In c derived_names ->
    exists v v',
      get_col d c = Some v /\ get_col out c = Some v' /\
      (Exists (fun x => isna x = false) v -> populated v') /\
      (In c (indicator_names ++ lag_names) -> populated v') /\
      (Forall (fun x => isna x = true) v -> Forall (fun x => isna x = true) v').
Proof.
  intros H. destruct (create_inv _ _ H) as (d & e & Hd & _ & _ & _).
  exists d. split; [exact Hd |].
  intros c Hc.
  pose proof (derive_inv _ _ Hd) as (r & o0 & b0 & Hr & _).
  destruct (derive_indicators _ _ Hd) as (o & b & Po & Pb & Ho & Hb & _ & Hl).
  destruct (rolling_stage_sources _ _ Hr "temperature_2m_max" 3%nat)
    as (keys & _ & _ & Hk & _); [simpl; auto | simpl; auto |].
  assert (exists v, get_col d c = Some v /\
                    (In c (indicator_names ++ lag_names) -> populated v))
    as (v & Hv & Pv).
  { unfold derived_names in Hc. rewrite !in_app_iff in Hc.
    destruct Hc as [Hc | [Hc | Hc]].
    - pose proof (rolling_not_later c Hc) as Hn.
      rewrite (derive_rolling _ _ _ Hr Hd c Hc).
      apply in_flat_map in Hc. destruct Hc as ([col w] & Hcw & Hc).
      apply in_prod_iff in Hcw. destruct Hcw as [Hcol Hw].
      destruct (rolling_stage_sources _ _ Hr col w Hcol Hw)
        as (keys' & vals & x & Hk' & Hv & Hx).
      destruct (rolling_stage_result _ _ Hr col w Hcol Hw _ _ _ Hk' Hv Hx)
        as [Hm Hs].
      destruct Hc as [<- | [<- | []]]; eexists; (split; [eassumption |]);
        intros Hin; contradiction.
    - destruct Hc as [<- | [<- | []]]; eexists; (split; [eassumption |]);
        intros _; assumption.
    - apply in_map_iff in Hc. destruct Hc as (lag & <- & Hlag).
      eexists. split; [apply (Hl keys Hk lag Hlag) |].
      intros _. apply fillna_populated. reflexivity. }
  destruct (create_column df d out c v Hd H (derived_names_not_excluded c Hc) Hv)
    as (mask & Hout).
  exists v, (mask_filter mask (bfill (ffill v))).
  split; [exact Hv |]. split; [exact Hout |]. split; [| split].
  - intros Hex. apply mask_filter_Forall. apply fill_populated. exact Hex.
  - intros Hin. apply mask_filter_Forall.
    rewrite fill_id; apply Pv, Hin.
  - intros Hall. apply mask_filter_Forall.
    apply Forall_nth. intros i dflt Hi.
    rewrite bfill_length in Hi. unfold ffill in Hi.
    rewrite ffill_from_length in Hi.
    rewrite nth_indep with (d' := NaN)
      by (rewrite bfill_length; unfold ffill; rewrite ffill_from_length;
          exact Hi).
    rewrite fill_neighbour by exact Hi.
    destruct (isna (neighbour_fill v i)) eqn:E; [reflexivity |].
    exfalso. unfold neighbour_fill in E.
    apply filter_notna_nil in Hall.
    assert (forall n, filter notna (firstn n v) = []) as F1.
    { intros n. apply filter_notna_nil.
      apply filter_notna_nil in Hall.
      rewrite <- (firstn_skipn n v) in Hall. apply Forall_app in Hall. tauto. }
    assert (forall n, filter notna (skipn n v) = []) as F2.
    { intros n. apply filter_notna_nil.
      apply filter_notna_nil in Hall.
      rewrite <- (firstn_skipn n v) in Hall. apply Forall_app in Hall. tauto. }
    unfold last_valid, first_valid in E. rewrite F1, F2 in E.
    simpl in E. discriminate E.
Qed.

(** C6, as amended.  In the frame the method builds, before its final row
    filter, for every city and every lag of
    3, 7 or 14, the lag column at position [i] of the city's series is the
    city's [breeding_conditions] at position [i - lag], and 0, not missing,
    when [i < lag].  The positions are those of the city's rows in frame
    order, as they are when the lags are computed; the frame is the
    returned one whenever every row holds its context columns, the final
    row filter then dropping nothing. *)
Theorem lag_features_by_position (df out : DataFrame) :
  rectangular df ->
  create_weather_features df = Ok out ->
  exists e keys b,
    repaired_weather_features df = Ok e /\
    dropna e exclude_columns = Ok out /\
    get_col df "city" = Some keys /\
    get_col e "city" = Some keys /\
    get_col e "breeding_conditions" = Some b /\
    (forall lag, In lag lag_days ->
     exists l,
      get_col e (lag_name lag) = Some l /\
      forall city, isna city = false ->
      forall i, (i < count_key city keys)%nat ->
        nth i (group_values city keys l) NaN
        = if (i <? lag)%nat then Num 0
          else nth (i - lag) (group_values city keys b) NaN)
    /\ ((forall n i, In n exclude_columns -> (i < nrows df)%nat ->
                    isna (cell_at df n i) = false) ->
        out = e).
Proof.
  intros R H. destruct (create_inv _ _ H) as (d & e & Hd & He & Hrep & Ho).
  destruct (fill_stage_get d) as (e' & He' & G).
  rewrite He in He'. injection He' as <-.
  pose proof (derive_inv _ _ Hd) as (r & _ & _ & Hr & _).
  destruct (rolling_stage_sources _ _ Hr "temperature_2m_max" 3%nat)
    as (keys & _ & _ & Hk & _); [simpl; auto | simpl; auto |].
  destruct (derive_indicators _ _ Hd) as (o & b & Po & Pb & _ & Hb & Lb & Hl).
  exists e, keys, b. do 3 (split; [assumption |]).
  assert (forall n, In n exclude_columns -> get_col e n = get_col df n) as Ctx.
  { intros n Hn. rewrite G.
    assert (mem_string n exclude_columns = true) as ->
      by (apply mem_string_In; exact Hn).
    apply (derive_frame _ _ Hd). intros Hin.
    apply derived_names_not_excluded in Hin.
    apply mem_string_In in Hn. congruence. }
  split.
  { rewrite G. change (mem_string "city" exclude_columns) with true.
    rewrite (derive_frame _ _ Hd); [exact Hk |].
    apply (disjointb_spec ["city"] derived_names); [| simpl; auto].
    vm_compute. reflexivity. }
  split.
  { rewrite G. change (mem_string "breeding_conditions" exclude_columns)
      with false. cbv iota. rewrite Hb. simpl. rewrite fill_id by exact Pb.
    reflexivity. }
  split.
  - intros lag Hlag.
    exists (fillna (Num 0) (groupby_transform NaN (shift NaN lag) keys b)).
    split.
    { rewrite G, derived_names_not_excluded.
      - rewrite (Hl keys Hk lag Hlag). simpl.
        rewrite fill_id by (apply fillna_populated; reflexivity).
        reflexivity.
      - unfold derived_names. rewrite !in_app_iff. right. right.
        apply in_map. exact Hlag. }
    intros city Hc i Hi. apply lagged_group; auto.
    rewrite (rectangular_get_col _ _ _ R Hk). symmetry. apply Lb, R.
  - intros Hfull.
    destruct (derive_rect _ _ R Hd) as [Rd Nd].
    destruct (fill_stage_rect _ _ Rd He) as [Re Ne].
    apply (dropna_nothing e exclude_columns out Re); [| exact Ho].
    intros n i Hn Hi. unfold cell_at. rewrite (Ctx n Hn).
    apply (Hfull n i Hn). congruence.
Qed.

(** C10, as amended.  The repair forward-fills, then backward-fills, every
    column of the frame that is not in the excluded context set, the target
    column [arbovirus_bool] among them; it does so over the whole frame,
    cities mixed: a missing cell receives the most recent value above it in
    frame order, or else the first value below it, whatever the city of the
    row that lends it.  A cell is still missing after the repair exactly
    when its column holds no value at all: such a column, the target
    included, stays missing throughout.  The columns of the context set are
    left as they are. *)
Theorem repair_fills_every_other_column (df out : DataFrame) :
  create_weather_features df = Ok out ->
  exists d e,
    derive_weather_features df = Ok d /\
    repaired_weather_features df = Ok e /\
    dropna e exclude_columns = Ok out /\
    mem_string "arbovirus_bool" exclude_columns = false /\
    get_col d "arbovirus_bool" = get_col df "arbovirus_bool" /\
    forall c v, get_col d c = Some v ->
      if mem_string c exclude_columns then get_col e c = Some v
      else exists v',
          get_col e c = Some v' /\ List.length v' = List.length v /\
          (forall i, (i < List.length v)%nat ->
                     nth i v' NaN = neighbour_fill v i) /\
          (forall i, (i < List.length v)%nat ->
                     (isna (nth i v' NaN) = true <->
                      Forall (fun x => isna x = true) v)).
Proof.
  intros H. destruct (create_inv _ _ H) as (d & e & Hd & He & Hrep & Ho).
  destruct (fill_stage_get d) as (e' & He' & G).
  rewrite He in He'. injection He' as <-.
  exists d, e. do 3 (split; [assumption |]).
  split; [reflexivity |].
  split.
  { apply (derive_frame _ _ Hd).
    apply (disjointb_spec ["arbovirus_bool"] derived_names); [| simpl; auto].
    vm_compute. reflexivity. }
  intros c v Hv. rewrite G, Hv.
  destruct (mem_string c exclude_columns); [reflexivity |].
  exists (bfill (ffill v)). split; [reflexivity |].
  split; [rewrite bfill_length; unfold ffill; apply ffill_from_length |].
  split; [intros i Hi; apply fill_neighbour; exact Hi |].
  intros i Hi. rewrite (fill_neighbour v i Hi). split.
  - apply neighbour_fill_isna.
  - apply neighbour_fill_missing.
Qed.

End Claims.
End FeatureEngineerSpec.

(* ================================================================== *)
(** * Grouping *)
(* ================================================================== *)

Module GroupByFacts.
Import Pandas GroupBy Spec.

Lemma key_eqb_eq (a b : key) : key_eqb a b = true -> a = b.
Proof.
  destruct a as [a1 a2], b as [b1 b2]. unfold key_eqb. simpl.
  rewrite andb_true_iff. intros [H1 H2].
  apply cell_eqb_eq in H1, H2. congruence.
Qed.

Lemma key_eqb_refl (a : key) : valid_key a = true -> key_eqb a a = true.
Proof.
  destruct a as [a1 a2]. unfold valid_key, key_eqb, notna. simpl.
  rewrite !andb_true_iff, !negb_true_iff. intros [H1 H2].
  split; apply cell_eqb_refl; assumption.
Qed.

Section Dedup.
Context {A : Type} (eqb : A -> A -> bool).
Hypothesis eqb_eq : forall a b, eqb a b = true -> a = b.

Lemma dedup_In (l : list A) (x : A) : In x (dedup eqb l) <-> In x l.
Proof.
  induction l as [| a l IH]; simpl; [tauto |].
  destruct (existsb (eqb a) l) eqn:E; simpl; rewrite IH.
  - apply existsb_exists in E. destruct E as (b & Hb & Hab).
    apply eqb_eq in Hab. subst b. split; [auto |].
    intros [<- | H]; assumption.
  - tauto.
Qed.

Lemma dedup_NoDup (l : list A) :
  (forall a, In a l -> eqb a a = true) -> NoDup (dedup eqb l).
Proof.
  induction l as [| a l IH]; simpl; intros R; [constructor |].
  destruct (existsb (eqb a) l) eqn:E; [apply IH; auto |].
  constructor; [| apply IH; auto].
  rewrite dedup_In. intros Hin.
  assert (existsb (eqb a) l = true) as E'.
  { apply existsb_exists. exists a. split; [exact Hin | apply R; auto]. }
  congruence.
Qed.

End Dedup.

Section Sorted.
Context {A : Type} (leb : A -> A -> bool).

Lemma insert_perm (a : A) (l : list A) : Permutation (insert leb a l) (a :: l).
Proof.
  induction l as [| b l IH]; simpl; [reflexivity |].
  destruct (leb a b); [reflexivity |].
  rewrite IH. apply perm_swap.
Qed.

Lemma sort_perm (l : list A) : Permutation (sort leb l) l.
Proof.
  induction l as [| a l IH]; simpl; [reflexivity |].
  rewrite insert_perm. constructor. exact IH.
Qed.

End Sorted.

(** The groups are the keys without a missing part, each once. *)
Lemma group_keys_In (keys : list key) (k : key) :
  In k (group_keys keys) <-> In k keys /\ valid_key k = true.
Proof.
  unfold group_keys. split.
  - intros H. apply (Permutation_in _ (sort_perm _ _)) in H.
    apply (proj1 (dedup_In key_eqb key_eqb_eq _ _)) in H.
    apply filter_In in H. exact H.
  - intros H. apply (Permutation_in _ (Permutation_sym (sort_perm _ _))).
    apply (proj2 (dedup_In key_eqb key_eqb_eq _ _)). apply filter_In. exact H.
Qed.

Lemma group_keys_NoDup (keys : list key) : NoDup (group_keys keys).
Proof.
  unfold group_keys.
  apply (Permutation_NoDup (Permutation_sym (sort_perm _ _))).
  apply dedup_NoDup; [exact key_eqb_eq |].
  intros a Ha. apply filter_In in Ha. apply key_eqb_refl. tauto.
Qed.

(** ['first'] skips the missing cells of a group. *)
Lemma agg_first_spec (g : series) :
  (Forall (fun c => isna c = true) g -> agg_first g = NaN) /\
  (forall j, (j < List.length g)%nat ->
             isna (nth j g NaN) = false ->
             (forall j', (j' < j)%nat -> isna (nth j' g NaN) = true) ->
             agg_first g = nth j g NaN).
Proof.
  unfold agg_first. split.
  - intros H. apply FillFacts.filter_notna_nil in H. rewrite H. reflexivity.
  - induction g as [| c g IH]; intros j Hj Hn Hbefore; simpl in Hj; [lia |].
    simpl. unfold notna at 1.
    destruct j as [| j].
    + simpl in Hn. rewrite Hn. reflexivity.
    + pose proof (Hbefore 0%nat ltac:(lia)) as H0. simpl in H0.
      rewrite H0. simpl. apply IH; [lia | exact Hn |].
      intros j' Hj'. apply (Hbefore (S j')). lia.
Qed.

Lemma combine_map_fst_snd {A B : Type} (l : list (A * B)) :
  combine (map fst l) (map snd l) = l.
Proof.
  induction l as [| [a b] l IH]; simpl; [reflexivity | f_equal; exact IH].
Qed.

End GroupByFacts.

(* ================================================================== *)
(** * The forecaster against its specification *)
(* ================================================================== *)

Module ForecasterSpec.
Import Pandas GroupBy Spec DengueProphetForecaster.
Import PandasFacts FillFacts GroupByFacts FeatureEngineerFacts.

Section Claims.
Context {prim : Primitives} {engine : Engine}.

(** ** Aggregation *)

Lemma aggregate_inv (df : DataFrame) (target : string) (agg : DataFrame) :
  aggregate df target = Ok agg ->
  exists dates cities tvals sums,
    get_col df "date" = Some dates /\ get_col df "city" = Some cities /\
    get_col df target = Some tvals /\
    mapM (fun k => agg_sum (group_rows k (combine dates cities) tvals))
         (group_keys (combine dates cities)) = Ok sums /\
    agg = ("date", map fst (group_keys (combine dates cities)))
          :: ("city", map snd (group_keys (combine dates cities)))
          :: (target, sums)
          :: map (fun col =>
                    (col, map (fun k => agg_first
                                          (group_rows k (combine dates cities)
                                             (column df col)))
                              (group_keys (combine dates cities))))
                 (filter (fun col =>
                            negb (mem_string col ["date"; "city"; target]))
                         (columns df)).
Proof.
  unfold aggregate. intros H. inv_bind H. inv_ok H.
  apply getitem_ok in E, E0, E1. exists a, a0, a1, a2. auto.
Qed.

(** C7, as amended.  For every (date, city) group of the aggregation step
    there is one aggregated row; its target is the sum of the target values
    present in the group, and every other column holds the first value of
    the group, in input order, that is not missing: a row without a value
    is passed over, and the cell is missing only when the whole group is. *)
Theorem aggregation_by_city_day (df : DataFrame) (target : string)
  (prophet_data : list (cell * DataFrame)) :
  target <> "date" -> target <> "city" ->
  prepare_data df target = Ok prophet_data ->
  exists agg dates cities tvals adates acities,
    aggregate df target = Ok agg /\
    get_col df "date" = Some dates /\ get_col df "city" = Some cities /\
    get_col df target = Some tvals /\
    get_col agg "date" = Some adates /\ get_col agg "city" = Some acities /\
    NoDup (combine adates acities) /\
    forall k, In k (combine dates cities) -> valid_key k = true ->
    exists i,
      nth_error adates i = Some (fst k) /\
      nth_error acities i = Some (snd k) /\
      (exists x,
          floats (group_rows k (combine dates cities) tvals) = Ok x /\
          cell_at agg target i = Num (Qred (Qsum (observations x)))) /\
      forall col v,
        get_col df col = Some v ->
        col <> "date" -> col <> "city" -> col <> target ->
        let g := group_rows k (combine dates cities) v in
        (Forall (fun c => isna c = true) g -> cell_at agg col i = NaN) /\
        (forall j, (j < List.length g)%nat ->
                   isna (nth j g NaN) = false ->
                   (forall j', (j' < j)%nat -> isna (nth j' g NaN) = true) ->
                   cell_at agg col i = nth j g NaN).
Proof.
  intros Hd Hc H. unfold prepare_data in H. inv_bind H. clear H E0.
  rename a into agg.
  destruct (aggregate_inv _ _ _ E)
    as (dates & cities & tvals & sums & Hdates & Hcities & Htv & Hsums & Hagg).
  set (keys := combine dates cities) in *.
  set (groups := group_keys keys) in *.
  apply String.eqb_neq in Hd as Hd', Hc as Hc'.
  rewrite String.eqb_sym in Hd', Hc'.
  exists agg, dates, cities, tvals, (map fst groups), (map snd groups).
  do 4 (split; [assumption |]).
  split; [rewrite Hagg; reflexivity |].
  split; [rewrite Hagg; reflexivity |].
  split.
  { rewrite combine_map_fst_snd. apply group_keys_NoDup. }
  intros k Hk Hvalid.
  assert (In k groups) as Hin by (apply group_keys_In; auto).
  apply In_nth_error in Hin. destruct Hin as (i & Hi).
  exists i.
  split; [apply map_nth_error; exact Hi |].
  split; [apply map_nth_error; exact Hi |].
  split.
  - destruct (mapM_nth_error _ _ _ Hsums i k Hi) as (b & Hb & Hbi).
    unfold agg_sum in Hb. inv_bind Hb. injection Hb as <-.
    exists a. split; [exact E0 |].
    unfold cell_at. rewrite Hagg, !get_col_cons, Hd', Hc', String.eqb_refl.
    apply nth_error_nth. exact Hbi.
  - intros col v Hv Hn1 Hn2 Hn3 g.
    assert (cell_at agg col i = agg_first g) as ->.
    { unfold cell_at. rewrite Hagg, !get_col_cons.
      apply String.eqb_neq in Hn1, Hn2, Hn3.
      rewrite String.eqb_sym in Hn1, Hn2, Hn3. rewrite Hn1, Hn2, Hn3.
      rewrite (get_col_tabulate
                 (fun col => map (fun k => agg_first
                                             (group_rows k keys (column df col)))
                                 groups)).
      assert (mem_string col
                (filter (fun col => negb (mem_string col ["date"; "city"; target]))
                        (columns df)) = true) as ->.
      { apply mem_string_In. apply filter_In.
        split; [eapply get_col_columns; eauto |].
        unfold mem_string. cbn [existsb].
        rewrite (String.eqb_sym col "date"), Hn1.
        rewrite (String.eqb_sym col "city"), Hn2.
        rewrite (String.eqb_sym col target), Hn3. reflexivity. }
      apply nth_error_nth.
      rewrite (map_nth_error _ _ _ Hi). unfold column. rewrite Hv.
      reflexivity. }
    apply agg_first_spec.
Qed.

(** ** Regressors *)

Lemma nrows_set_scalar (df : DataFrame) (n : string) (c : cell) :
  nrows (set_scalar df n c) = nrows df.
Proof. unfold set_scalar. apply nrows_set_col. apply repeat_length. Qed.

Lemma carry_forward_inv (pdf future : DataFrame) (r : string) (future' : DataFrame) :
  carry_forward pdf future r = Ok future' ->
  (has_col pdf r = false /\ future' = future) \/
  (exists hist, get_col pdf r = Some hist /\ hist <> [] /\
                future' = set_scalar future r (last hist NaN)).
Proof.
  unfold carry_forward. destruct (has_col pdf r) eqn:Eh; intros H.
  - right. inv_bind H. injection H as <-. apply getitem_ok in E.
    unfold iloc_last in E0. destruct a as [| c a]; [discriminate |].
    injection E0 as <-. exists (c :: a). split; [exact E |].
    split; [discriminate | reflexivity].
  - left. injection H as <-. auto.
Qed.

(** What the loop over the regressors can have done to a column. *)
Lemma carry_fold_cases (pdf : DataFrame) (l : list string) :
  forall future future',
    foldM (carry_forward pdf) l future = Ok future' ->
    nrows future' = nrows future /\
    forall c, get_col future' c = get_col future c \/
              exists hist, get_col pdf c = Some hist /\ hist <> [] /\
                get_col future' c
                = Some (repeat (last hist NaN) (nrows future)).
Proof.
  induction l as [| r l IH]; simpl; intros future future' H.
  - injection H as <-. auto.
  - inv_bind H. destruct (IH _ _ H) as [N C].
    destruct (carry_forward_inv _ _ _ _ E) as [[_ ->] | (hist & Hh & Hne & ->)].
    + auto.
    + rewrite nrows_set_scalar in N, C. split; [exact N |].
      intros c. destruct (C c) as [Hc | Hc]; [| right; exact Hc].
      rewrite Hc. unfold set_scalar.
      destruct (String.eqb r c) eqn:Erc.
      * apply String.eqb_eq in Erc. subst c. right. exists hist.
        rewrite get_col_set_col_same. auto.
      * apply String.eqb_neq in Erc. left.
        apply get_col_set_col_other. exact Erc.
Qed.

Lemma carry_fold_result (pdf : DataFrame) (l : list string) :
  forall future future',
    foldM (carry_forward pdf) l future = Ok future' ->
    forall r, In r l -> has_col pdf r = true ->
    exists hist, get_col pdf r = Some hist /\ hist <> [] /\
      get_col future' r = Some (repeat (last hist NaN) (nrows future)).
Proof.
  induction l as [| r0 l IH]; simpl; intros future future' H r Hin Hr;
    [contradiction |].
  inv_bind H. destruct Hin as [-> | Hin].
  - destruct (carry_forward_inv _ _ _ _ E) as [[Hf _] | (hist & Hh & Hne & ->)];
      [congruence |].
    destruct (carry_fold_cases _ _ _ _ H) as [_ C].
    destruct (C r) as [Hc | Hc].
    + exists hist. rewrite Hc. unfold set_scalar.
      rewrite get_col_set_col_same. auto.
    + rewrite nrows_set_scalar in Hc. exact Hc.
  - destruct (IH _ _ H r Hin Hr) as (hist & Hh & Hne & Hc).
    exists hist. split; [exact Hh |]. split; [exact Hne |].
    rewrite Hc. f_equal. f_equal.
    destruct (carry_forward_inv _ _ _ _ E) as [[_ ->] | (h & _ & _ & ->)];
      [reflexivity | apply nrows_set_scalar].
Qed.

(** C8.  The frame a city's model predicts from holds, for every registered
    regressor, the last value of the city's history in every row: the value
    is repeated unchanged across the whole horizon (and across the dates of
    the history the frame also covers). *)
Theorem regressors_carried_forward (prophet_df : DataFrame)
  (forecast_periods : nat) (add_regressors : bool)
  (regressors : option (list string)) (m : model) (forecast : DataFrame) :
  train_prophet_model prophet_df forecast_periods add_regressors regressors
  = Ok (m, forecast) ->
  exists future,
    predict m future = Ok forecast /\
    nrows future = nrows (make_future_dataframe m forecast_periods) /\
    forall r,
      In r (registered prophet_df
              (match regressors with
               | None => default_regressors
               | Some l => l
               end)) ->
      exists hist,
        get_col prophet_df r = Some hist /\ hist <> [] /\
        get_col future r = Some (repeat (last hist NaN) (nrows future)) /\
        forall i, (i < nrows future)%nat ->
                  cell_at future r i = last hist NaN.
Proof.
  unfold train_prophet_model, prediction_input. intros H. inv_bind H.
  inv_bind E. injection E as <-. simpl in *.
  injection H as Hm Hf. subst a1 a0.
  rename a2 into future, E2 into Hfold.
  exists future. split; [exact E0 |].
  destruct (carry_fold_cases _ _ _ _ Hfold) as [N _].
  split; [exact N |].
  intros r Hr. unfold registered in Hr. apply filter_In in Hr.
  destruct Hr as [Hin Hhas].
  destruct (carry_fold_result _ _ _ _ Hfold r Hin Hhas)
    as (hist & Hh & Hne & Hc).
  exists hist. rewrite N. do 3 (split; [assumption |]).
  intros i Hi. unfold cell_at. rewrite Hc. apply nth_repeat_lt. exact Hi.
Qed.

(** ** The combined table *)


Lemma city_frame_ok (city : cell) (fc : DataFrame) :
  (forall n, In n ["ds"; "yhat"; "yhat_lower"; "yhat_upper"] ->
             has_col fc n = true) ->
  city_frame city fc = Ok (public_frame city fc).
Proof.
  intros H. unfold city_frame. rewrite (select_ok _ _ H). reflexivity.
Qed.

Lemma first_occurrences_seen (seen l : list string) :
  (forall x, In x l -> In x seen) -> first_occurrences seen l = [].
Proof.
  induction l as [| x l IH]; simpl; intros H; [reflexivity |].
  assert (mem_string x seen = true) as -> by (apply mem_string_In; auto).
  apply IH. auto.
Qed.

Lemma flat_map_map {A B C : Type} (g : A -> B) (f : B -> list C) (l : list A) :
  flat_map f (map g l) = flat_map (fun a => f (g a)) l.
Proof.
  induction l as [| a l IH]; simpl; [reflexivity | rewrite IH; reflexivity].
Qed.

(** Stacking public frames: the five public columns, each the frames'
    columns one after the other. *)
Lemma concat_public {A : Type} (city : A -> cell) (fc : A -> DataFrame)
  (l : list A) :
  l <> [] ->
  concat (map (fun a => public_frame (city a) (fc a)) l)
  = Ok (map (fun n =>
               (n, flat_map (fun a => column (public_frame (city a) (fc a)) n) l))
            public_columns).
Proof.
  destruct l as [| a0 l]; [congruence |]. intros _.
  unfold concat. cbn [map].
  assert (first_occurrences []
            (flat_map columns
               (public_frame (city a0) (fc a0)
                :: map (fun a => public_frame (city a) (fc a)) l))
          = public_columns) as ->.
  { cbn [flat_map]. unfold public_frame at 1. unfold columns at 1.
    cbn [map fst app]. cbn.
    rewrite first_occurrences_seen; [reflexivity |].
    intros x Hx. apply in_flat_map in Hx. destruct Hx as (f & Hf & Hx).
    apply in_map_iff in Hf. destruct Hf as (a & <- & _).
    simpl in Hx. simpl. tauto. }
  f_equal. apply map_ext_in. intros n Hn. f_equal.
  change (public_frame (city a0) (fc a0)
          :: map (fun a => public_frame (city a) (fc a)) l)
    with (map (fun a => public_frame (city a) (fc a)) (a0 :: l)).
  rewrite flat_map_map. apply flat_map_ext. intros a.
  unfold column.
  destruct (get_col (public_frame (city a) (fc a)) n) eqn:E; [reflexivity |].
  exfalso. simpl in Hn.
  destruct Hn as [<- | [<- | [<- | [<- | [<- | []]]]]]; discriminate E.
Qed.

Lemma forecast_runs_ok (periods : nat) (b : bool)
  (pd : list (cell * DataFrame)) (runs : list (model * DataFrame)) :
  Forall2 (fun entry run =>
             train_prophet_model (snd entry) periods b None = Ok run)
          pd runs ->
  (forall run n, In run runs ->
                 In n ["ds"; "yhat"; "yhat_lower"; "yhat_upper"] ->
                 has_col (snd run) n = true) ->
  mapM (forecast_city periods b) pd
  = Ok (map (fun er => public_frame (fst (fst er)) (snd (snd er)))
            (combine pd runs)).
Proof.
  induction 1 as [| [city data] run pd runs Ht F IH]; intros Hc;
    [reflexivity |].
  simpl in Ht. cbn [mapM forecast_city]. rewrite Ht. cbn [bind].
  rewrite city_frame_ok by (intros n Hn; apply (Hc run n); simpl; auto).
  cbn [bind]. rewrite IH by (intros r n Hr; apply Hc; simpl; auto).
  reflexivity.
Qed.

(** The run does return a table as soon as there is a city and the engine
    forecasts every city with the four columns the forecaster reads. *)
Lemma forecast_table_exists (df : DataFrame) (forecast_periods : nat)
  (add_regressors : bool) (prophet_data : list (cell * DataFrame))
  (runs : list (model * DataFrame)) :
  prepare_data df "arbovirus_bool" = Ok prophet_data ->
  prophet_data <> [] ->
  Forall2 (fun entry run =>
             train_prophet_model (snd entry) forecast_periods
               add_regressors None = Ok run)
          prophet_data runs ->
  (forall run n, In run runs ->
                 In n ["ds"; "yhat"; "yhat_lower"; "yhat_upper"] ->
                 has_col (snd run) n = true) ->
  exists table,
    generate_forecast_dataframe df forecast_periods add_regressors = Ok table.
Proof.
  intros Hp Hne F Hc. unfold generate_forecast_dataframe.
  rewrite Hp. cbn [bind]. rewrite (forecast_runs_ok _ _ _ _ F Hc). cbn [bind].
  rewrite (concat_public (fun er => fst (fst er)) (fun er => snd (snd er))).
  - eexists. reflexivity.
  - destruct F; [congruence | discriminate].
Qed.

(** ** Failures *)

Lemma mapM_app_raise {A B : Type} (f : A -> result B) (l1 l2 : list A) (x : A)
  (err : error) :
  (forall a, In a l1 -> exists b, f a = Ok b) ->
  f x = Raise err ->
  mapM f (l1 ++ x :: l2) = Raise err.
Proof.
  induction l1 as [| a l1 IH]; simpl; intros H Hx.
  - rewrite Hx. reflexivity.
  - destruct (H a (or_introl eq_refl)) as (b & ->). simpl.
    rewrite IH; auto.
Qed.

(** C3, as amended.  A fit failure for one city is not recovered: when the
    engine refuses the series of a city, and the cities before it in
    iteration order went through, the whole run ends with the engine's
    error; no table is returned, for any city. *)
Theorem fit_failure_aborts_run (df : DataFrame) (forecast_periods : nat)
  (add_regressors : bool) (before after : list (cell * DataFrame))
  (city : cell) (city_data : DataFrame) (err : error) :
  prepare_data df "arbovirus_bool" = Ok (before ++ (city, city_data) :: after) ->
  (forall entry, In entry before ->
     exists frame,
       forecast_city forecast_periods add_regressors entry = Ok frame) ->
  fit params (registered city_data default_regressors) city_data = Raise err ->
  generate_forecast_dataframe df forecast_periods add_regressors = Raise err.
Proof.
  intros Hp Hb Hf. unfold generate_forecast_dataframe. rewrite Hp. simpl.
  rewrite (mapM_app_raise _ _ _ _ err Hb); [reflexivity |].
  unfold forecast_city, train_prophet_model, prediction_input.
  rewrite Hf. reflexivity.
Qed.

End Claims.
End ForecasterSpec.

(* ================================================================== *)
(** * The theorems at work on concrete data *)
(* ================================================================== *)

Module Runs.
Import Pandas GroupBy Spec Samples.

(** The season theorem on four dates around the bin edges. *)
Lemma season_by_month_witness :
  exists out,
    @FeatureEngineer.create_temporal_features reference seasons = Ok out /\
    cell_at out "season" 0 = Str "Dry" /\
    cell_at out "season" 1 = Str "Rainy" /\
    cell_at out "season" 2 = Str "Rainy" /\
    cell_at out "season" 3 = Str "Dry".
Proof.
  destruct (@FeatureEngineer.create_temporal_features reference seasons)
    as [out | err] eqn:E; [| vm_compute in E; discriminate E].
  exists out. split; [reflexivity |].
  pose proof (@FeatureEngineerSpec.season_by_month reference seasons out
                (column seasons "date") E eq_refl) as S.
  repeat split.
  - apply (proj1 (S 0%nat (mkDate 2024 5 31) eq_refl)). simpl. lia.
  - apply (proj1 (proj2 (S 1%nat (mkDate 2024 6 1) eq_refl))). simpl. lia.
  - apply (proj1 (proj2 (S 2%nat (mkDate 2024 10 31) eq_refl))). simpl. lia.
  - apply (proj2 (proj2 (S 3%nat (mkDate 2024 11 1) eq_refl))). simpl. lia.
Defined.

(** The amended C2 on [two_cities] without its wind column. *)
Lemma absent_weather_column_raises_witness :
  In "wind_speed_10m_max" FeatureEngineer.weather_cols /\
  has_col no_wind "wind_speed_10m_max" = false /\
  @FeatureEngineer.create_weather_features reference no_wind
  = Raise (KeyError ["wind_speed_10m_max"]).
Proof.
  assert (In "wind_speed_10m_max" FeatureEngineer.weather_cols) as Hin
    by (apply mem_string_In; reflexivity).
  split; [exact Hin |]. split; [reflexivity |].
  apply (proj2 (@FeatureEngineerSpec.absent_weather_column_raises reference
                  no_wind "wind_speed_10m_max" Hin eq_refl)).
  - reflexivity.
  - reflexivity.
  - intros c vals Hc Hv. simpl in Hc.
    destruct Hc as [<- | [<- | [<- | [<- | []]]]];
      vm_compute in Hv; try discriminate Hv; injection Hv as <-;
      eexists; vm_compute; reflexivity.
Defined.

(** C2 refuted: the wind column is absent, the three other weather
    columns are there, and the builder raises instead of computing their
    features. *)
Lemma absent_wind_column_is_an_error :
  has_col no_wind "wind_speed_10m_max" = false /\
  has_col no_wind "temperature_2m_max" = true /\
  has_col no_wind "temperature_2m_min" = true /\
  has_col no_wind "precipitation_sum" = true /\
  @FeatureEngineer.create_weather_features reference no_wind
  = Raise (KeyError ["wind_speed_10m_max"]).
Proof.
  repeat match goal with |- _ /\ _ => split end; vm_compute; reflexivity.
Qed.

(** The amended C4 on the second city of [two_cities]. *)
Lemma rolling_statistics_per_city_witness :
  exists r,
    rectangular two_cities /\
    @FeatureEngineer.rolling_stage reference two_cities = Ok r /\
    group_values (Str "Bouake") (column two_cities "city")
                 (column r "temperature_2m_max_3d_mean")
    = [Num 28; Num (57 # 2)] /\
    nth 0 (group_values (Str "Bouake") (column two_cities "city")
                        (column r "temperature_2m_max_3d_std")) NaN
    = NaN.
Proof.
  destruct (@FeatureEngineer.rolling_stage reference two_cities)
    as [r | err] eqn:E; [| vm_compute in E; discriminate E].
  assert (rectangular two_cities) as R
    by (apply rectangularb_sound; vm_compute; reflexivity).
  exists r. split; [exact R |]. split; [reflexivity |].
  destruct (@FeatureEngineerSpec.rolling_statistics_per_city reference
              two_cities r R E "temperature_2m_max" 3%nat)
    as (keys & vals & x & means & stds & Hk & Hv & Hx & Hm & Hs & P).
  { apply mem_string_In. reflexivity. }
  { simpl. auto. }
  assert (column two_cities "city" = keys) as ->
    by (unfold column; rewrite Hk; reflexivity).
  change (FeatureEngineer.stat_name "temperature_2m_max" 3 "mean")
    with "temperature_2m_max_3d_mean" in Hm.
  change (FeatureEngineer.stat_name "temperature_2m_max" 3 "std")
    with "temperature_2m_max_3d_std" in Hs.
  unfold column. rewrite Hm, Hs.
  destruct (P (Str "Bouake") eq_refl) as (G1 & _ & _ & G4).
  vm_compute in Hk. injection Hk as <-.
  vm_compute in Hv. injection Hv as <-.
  vm_compute in Hx. injection Hx as <-.
  split.
  - rewrite G1. vm_compute. reflexivity.
  - apply G4. vm_compute. discriminate.
Defined.

(** C4 refuted: at the first row of each city the rolling standard
    deviation is missing, although the temperature is there; in the
    returned dataset the second city's first row then carries the standard
    deviation of the first city's last row. *)
Lemma rolling_std_missing_at_city_start :
  exists r out,
    @FeatureEngineer.rolling_stage reference two_cities = Ok r /\
    @FeatureEngineer.create_weather_features reference two_cities = Ok out /\
    cell_at two_cities "city" 0 = Str "Abidjan" /\
    cell_at two_cities "temperature_2m_max" 0 = Num 30 /\
    cell_at r "temperature_2m_max_3d_std" 0 = NaN /\
    cell_at two_cities "city" 3 = Str "Abidjan" /\
    cell_at two_cities "city" 4 = Str "Bouake" /\
    cell_at two_cities "temperature_2m_max" 4 = Num 28 /\
    cell_at r "temperature_2m_max_3d_std" 4 = NaN /\
    cell_at out "temperature_2m_max_3d_std" 4
    = cell_at r "temperature_2m_max_3d_std" 3.
Proof.
  eexists. eexists.
  repeat match goal with |- _ /\ _ => split end; vm_compute; reflexivity.
Qed.

(** The amended C5 on [two_cities]. *)
Lemma repaired_columns_populated_witness :
  exists out,
    @FeatureEngineer.create_weather_features reference two_cities = Ok out /\
    populated (column out "temperature_2m_max_3d_std") /\
    populated (column out "breeding_conditions_lag_3").
Proof.
  destruct (@FeatureEngineer.create_weather_features reference two_cities)
    as [out | err] eqn:E; [| vm_compute in E; discriminate E].
  exists out. split; [reflexivity |].
  destruct (@FeatureEngineerSpec.repaired_columns_populated reference
              two_cities out E) as (d & Hd & P).
  split.
  - destruct (P "temperature_2m_max_3d_std") as (v & v' & Hv & Hv' & Pex & _).
    { apply mem_string_In. vm_compute. reflexivity. }
    unfold column. rewrite Hv'. apply Pex.
    vm_compute in Hd. injection Hd as <-.
    vm_compute in Hv. injection Hv as <-.
    apply Exists_cons_tl, Exists_cons_hd. reflexivity.
  - destruct (P "breeding_conditions_lag_3") as (v & v' & _ & Hv' & _ & Pl & _).
    { apply mem_string_In. vm_compute. reflexivity. }
    unfold column. rewrite Hv'. apply Pl.
    apply mem_string_In. vm_compute. reflexivity.
Defined.

(** C5 refuted: with a single record the rolling standard deviations have
    no value anywhere, and the repair leaves them missing in the result. *)
Lemma single_record_std_stays_missing :
  exists out,
    @FeatureEngineer.create_weather_features reference one_row = Ok out /\
    nrows out = 1%nat /\
    cell_at out "temperature_2m_max_3d_std" 0 = NaN.
Proof.
  eexists.
  repeat match goal with |- _ /\ _ => split end; vm_compute; reflexivity.
Qed.

(** C6 refuted on the returned dataset: the first record of
    [first_without_country] lacks its country and is dropped by the final
    row filter, after the lags were computed.  The city's third returned
    row holds 1 at lag 3, though no record lies three rows above it and no
    returned row has the indicator set. *)
Lemma dropped_row_keeps_its_lag :
  exists out,
    @FeatureEngineer.create_weather_features reference first_without_country
    = Ok out /\
    nrows out = 4%nat /\
    column out "city" = repeat (Str "Abidjan") 4 /\
    column out "breeding_conditions" = repeat (Num 0) 4 /\
    cell_at out "breeding_conditions_lag_3" 2 = Num 1.
Proof.
  eexists.
  repeat match goal with |- _ /\ _ => split end; vm_compute; reflexivity.
Qed.

(** The amended C6 on the first city of [two_cities], where the row filter
    drops nothing: the city's fourth row holds, at lag 3, the indicator of
    its first row, and its third row holds 0. *)
Lemma lag_features_by_position_witness :
  exists out,
    rectangular two_cities /\
    @FeatureEngineer.create_weather_features reference two_cities = Ok out /\
    nth 3 (group_values (Str "Abidjan") (column out "city")
             (column out "breeding_conditions_lag_3")) NaN
    = nth 0 (group_values (Str "Abidjan") (column out "city")
               (column out "breeding_conditions")) NaN /\
    nth 2 (group_values (Str "Abidjan") (column out "city")
             (column out "breeding_conditions_lag_3")) NaN
    = Num 0.
Proof.
  destruct (@FeatureEngineer.create_weather_features reference two_cities)
    as [out | err] eqn:E; [| vm_compute in E; discriminate E].
  assert (rectangular two_cities) as R
    by (apply rectangularb_sound; vm_compute; reflexivity).
  destruct (@FeatureEngineerSpec.lag_features_by_position reference
              two_cities out R E)
    as (e & keys & b & He & _ & Hk & Hke & Hb & P & Pout).
  exists out. split; [exact R |]. split; [reflexivity |].
  assert (out = e) as ->.
  { apply Pout. intros n i Hn Hi.
    change (nrows two_cities) with 6%nat in Hi.
    simpl in Hn.
    repeat (destruct Hn as [<- | Hn];
            [do 6 (destruct i as [| i]; [reflexivity |]); lia |]).
    contradiction. }
  destruct (P 3%nat) as (l & Hl & Q); [simpl; auto |].
  change (FeatureEngineer.lag_name 3) with "breeding_conditions_lag_3" in Hl.
  unfold column. rewrite Hke, Hb, Hl.
  vm_compute in Hk. injection Hk as <-.
  split.
  - apply (Q (Str "Abidjan") eq_refl 3%nat). vm_compute. lia.
  - apply (Q (Str "Abidjan") eq_refl 2%nat). vm_compute. lia.
Defined.

(** The amended C10 on [missing_target]: the second city's first record
    has no target and receives the target of the row above it, a record of
    the first city. *)
Lemma repair_fills_every_other_column_witness :
  exists out e,
    @FeatureEngineer.create_weather_features reference missing_target = Ok out /\
    @FeatureEngineer.repaired_weather_features reference missing_target = Ok e /\
    cell_at missing_target "city" 1 = Str "Abidjan" /\
    cell_at missing_target "city" 2 = Str "Bouake" /\
    cell_at missing_target "arbovirus_bool" 2 = NaN /\
    cell_at e "arbovirus_bool" 2 = cell_at missing_target "arbovirus_bool" 1.
Proof.
  destruct (@FeatureEngineer.create_weather_features reference missing_target)
    as [out | err] eqn:E; [| vm_compute in E; discriminate E].
  destruct (@FeatureEngineerSpec.repair_fills_every_other_column reference
              missing_target out E)
    as (d & e & Hd & He & _ & _ & Ht & P).
  exists out, e. split; [reflexivity |]. split; [exact He |].
  do 3 (split; [reflexivity |]).
  pose proof (P "arbovirus_bool" (column missing_target "arbovirus_bool")) as Q.
  change (mem_string "arbovirus_bool" FeatureEngineer.exclude_columns)
    with false in Q. cbv iota in Q.
  destruct Q as (v' & Hv' & _ & Hfill & _); [rewrite Ht; reflexivity |].
  unfold cell_at at 1. rewrite Hv'.
  rewrite Hfill by (vm_compute; lia). reflexivity.
Defined.

(** C10 refuted: a target column without any value has nothing to lend
    and is left missing in every row of the returned dataset. *)
Lemma target_without_value_stays_missing :
  exists out,
    @FeatureEngineer.create_weather_features reference no_target_values
    = Ok out /\
    nrows out = 3%nat /\
    column out "arbovirus_bool" = [NaN; NaN; NaN].
Proof.
  eexists.
  repeat match goal with |- _ /\ _ => split end; vm_compute; reflexivity.
Qed.

(** The amended C7 on [same_day]: the two records of the first day make
    one row, target 2, temperature 31, the first value there is. *)
Lemma aggregation_by_city_day_witness :
  exists prophet_data agg i,
    DengueProphetForecaster.prepare_data same_day "arbovirus_bool"
    = Ok prophet_data /\
    DengueProphetForecaster.aggregate same_day "arbovirus_bool" = Ok agg /\
    cell_at agg "date" i = Ts (mkDate 2024 1 1) /\
    cell_at agg "city" i = Str "Abidjan" /\
    cell_at agg "arbovirus_bool" i = Num 2 /\
    cell_at agg "temperature_2m_max" i = Num 31.
Proof.
  destruct (DengueProphetForecaster.prepare_data same_day "arbovirus_bool")
    as [pd | err] eqn:E; [| vm_compute in E; discriminate E].
  destruct (ForecasterSpec.aggregation_by_city_day same_day "arbovirus_bool" pd)
    as (agg & dates & cities & tvals & adates & acities
        & Hagg & Hd & Hc & Ht & Had & Hac & _ & P);
    [discriminate | discriminate | exact E |].
  pose proof (get_col_In _ _ _ Hd) as Vd.
  vm_compute in Hd. injection Hd as <-.
  vm_compute in Hc. injection Hc as <-.
  vm_compute in Ht. injection Ht as <-.
  destruct (P (Ts (mkDate 2024 1 1), Str "Abidjan"))
    as (i & Hi1 & Hi2 & (x & Hx & Hsum) & Q); [simpl; auto | reflexivity |].
  exists pd, agg, i. split; [reflexivity |]. split; [exact Hagg |].
  split; [unfold cell_at; rewrite Had; apply nth_error_nth; exact Hi1 |].
  split; [unfold cell_at; rewrite Hac; apply nth_error_nth; exact Hi2 |].
  split.
  - rewrite Hsum. vm_compute in Hx. injection Hx as <-. reflexivity.
  - destruct (Q "temperature_2m_max" (column same_day "temperature_2m_max"))
      as [_ Qv]; [reflexivity | discriminate | discriminate | discriminate |].
    rewrite (Qv 1%nat).
    + reflexivity.
    + vm_compute. lia.
    + reflexivity.
    + intros j Hj. assert (j = 0%nat) as -> by lia. reflexivity.
Defined.

(** C7 refuted: the first record of the city-day has no temperature, and
    the aggregated row holds the temperature of the second record. *)
Lemma first_row_value_is_not_kept :
  exists agg,
    DengueProphetForecaster.aggregate same_day "arbovirus_bool" = Ok agg /\
    cell_at same_day "date" 0 = cell_at same_day "date" 1 /\
    cell_at same_day "city" 0 = cell_at same_day "city" 1 /\
    cell_at agg "date" 0 = cell_at same_day "date" 0 /\
    cell_at agg "city" 0 = cell_at same_day "city" 0 /\
    cell_at same_day "temperature_2m_max" 0 = NaN /\
    cell_at agg "temperature_2m_max" 0 = Num 31 /\
    cell_at agg "temperature_2m_max" 0 <> cell_at same_day "temperature_2m_max" 0.
Proof.
  eexists.
  repeat match goal with |- _ /\ _ => split end;
    try (vm_compute; reflexivity).
  vm_compute. discriminate.
Qed.

(** C8 on [history], two days ahead: the last temperature of the history
    fills the whole frame handed to the engine. *)
Lemma regressors_carried_forward_witness :
  exists m forecast future,
    @DengueProphetForecaster.train_prophet_model naive history 2 true None
    = Ok (m, forecast) /\
    @predict naive m future = Ok forecast /\
    nrows future = 5%nat /\
    last (column history "temperature_2m_max") NaN = Num 24 /\
    column future "temperature_2m_max" = repeat (Num 24) 5.
Proof.
  destruct (@DengueProphetForecaster.train_prophet_model naive history 2 true None)
    as [[m forecast] | err] eqn:E; [| vm_compute in E; discriminate E].
  destruct (@ForecasterSpec.regressors_carried_forward naive history 2 true
              None m forecast E) as (future & Hp & Hn & P).
  exists m, forecast, future. split; [reflexivity |]. split; [exact Hp |].
  vm_compute in E. injection E as <- _.
  assert (nrows future = 5%nat) as N by (rewrite Hn; reflexivity).
  split; [exact N |]. split; [reflexivity |].
  destruct (P "temperature_2m_max") as (hist & Hh & _ & Hc & _).
  { apply mem_string_In. reflexivity. }
  vm_compute in Hh. injection Hh as <-.
  unfold column. rewrite Hc, N. reflexivity.
Defined.


(** The amended C3 on [short_history]: the second city has a single day,
    the engine refuses it, and the run ends with the engine's error. *)
Lemma fit_failure_aborts_run_witness :
  exists before city_data,
    DengueProphetForecaster.prepare_data short_history "arbovirus_bool"
    = Ok (before ++ [(Str "Bouake", city_data)]) /\
    map fst before = [Str "Abidjan"] /\
    @DengueProphetForecaster.generate_forecast_dataframe naive short_history 2 true
    = Raise (ValueError "Dataframe has less than 2 non-NaN rows.").
Proof.
  destruct (DengueProphetForecaster.prepare_data short_history "arbovirus_bool")
    as [pd | err] eqn:E; [| vm_compute in E; discriminate E].
  exists (firstn 1 pd), (snd (nth 1 pd (NaN, []))).
  assert (pd = firstn 1 pd ++ [(Str "Bouake", snd (nth 1 pd (NaN, [])))]) as Hpd
    by (vm_compute in E; injection E as <-; reflexivity).
  split; [f_equal; exact Hpd |].
  split; [vm_compute in E; injection E as <-; reflexivity |].
  apply (@ForecasterSpec.fit_failure_aborts_run naive short_history 2 true
           (firstn 1 pd) [] (Str "Bouake") (snd (nth 1 pd (NaN, [])))).
  - rewrite <- Hpd. exact E.
  - vm_compute in E. injection E as <-.
    intros entry [<- | []]. eexists. vm_compute. reflexivity.
  - vm_compute in E. injection E as <-. vm_compute. reflexivity.
Defined.

(** C3 refuted: the first city has history enough and would be forecast,
    the second has not, and the run returns no table, the first city's
    forecast included. *)
Lemma one_short_city_loses_every_forecast :
  exists prophet_data frame,
    DengueProphetForecaster.prepare_data short_history "arbovirus_bool"
    = Ok prophet_data /\
    map fst prophet_data = [Str "Abidjan"; Str "Bouake"] /\
    @DengueProphetForecaster.forecast_city naive 2 true
       (nth 0 prophet_data (NaN, [])) = Ok frame /\
    @DengueProphetForecaster.forecast_city naive 2 true
       (nth 1 prophet_data (NaN, []))
    = Raise (ValueError "Dataframe has less than 2 non-NaN rows.") /\
    @DengueProphetForecaster.generate_forecast_dataframe naive short_history 2 true
    = Raise (ValueError "Dataframe has less than 2 non-NaN rows.").
Proof.
  eexists. eexists. split; [vm_compute; reflexivity |].
  repeat match goal with |- _ /\ _ => split end; vm_compute; reflexivity.
Qed.

End Runs.

(* ================================================================== *)
(** * Further properties of the feature engineer *)
(* ================================================================== *)

Module FeatureEngineerMore.
Import Pandas Spec FeatureEngineer PandasFacts FillFacts FeatureEngineerFacts.

Section More.
Context {prim : Primitives}.

(** ** The indicators, row by row *)

Lemma compare_nth (test : Q -> bool) (s : series) :
  forall m, compare test s = Ok m ->
  forall i, nth i m false
            = match nth i s NaN with Num q => test q | _ => false end.
Proof.
  unfold compare.
  induction s as [| c s IH]; simpl; intros m H i.
  - injection H as <-. destruct i; reflexivity.
  - inv_bind H. injection H as <-. destruct i as [| i]; simpl.
    + destruct c; try discriminate E; injection E as <-; reflexivity.
    + apply IH. exact E0.
Qed.

Lemma and_mask_nth (a b : list bool) (i : nat) :
  List.length a = List.length b ->
  nth i (and_mask a b) false = nth i a false && nth i b false.
Proof.
  revert b i. induction a as [| x a IH]; intros [| y b] i L; simpl in L;
    try discriminate L.
  - destruct i; reflexivity.
  - destruct i as [| i]; simpl; [reflexivity |]. apply IH. lia.
Qed.

Lemma astype_int_nth (m : list bool) (i : nat) :
  (i < List.length m)%nat ->
  nth i (astype_int m) NaN = if nth i m false then Num 1 else Num 0.
Proof.
  revert i. induction m as [| b m IH]; intros i H; simpl in H; [lia |].
  destruct i as [| i]; simpl; [reflexivity |]. apply IH. lia.
Qed.

Lemma indicator_stage_values (r r' : DataFrame) :
  indicator_stage r = Ok r' ->
  exists tmax prec tmin ge le wet warm,
    get_col r "temperature_2m_max" = Some tmax /\
    get_col r "precipitation_sum" = Some prec /\
    get_col r "temperature_2m_min" = Some tmin /\
    compare (Qge_bool 25) tmax = Ok ge /\
    compare (fun x => Qle_bool x 35) tmax = Ok le /\
    compare (Qgt_bool 0) prec = Ok wet /\
    compare (Qgt_bool 20) tmin = Ok warm /\
    r' = set_col (set_col r "optimal_mosquito_temp"
                    (astype_int (and_mask ge le)))
           "breeding_conditions" (astype_int (and_mask wet warm)).
Proof.
  unfold indicator_stage. intros H. inv_bind H. injection H as <-.
  apply getitem_ok in E, E1, E3, E5.
  rewrite get_col_set_col_other in E3, E5
    by (apply String.eqb_neq; vm_compute; reflexivity).
  rewrite E in E1. injection E1 as <-.
  exists a, a3, a5, a0, a2, a4, a6. auto 10.
Qed.

(** The two indicator columns of the repaired frame, read from the input's
    weather columns. *)
Lemma indicator_cells (df e : DataFrame) :
  rectangular df ->
  repaired_weather_features df = Ok e ->
  forall i, (i < nrows df)%nat ->
    cell_at e "optimal_mosquito_temp" i
    = (if match cell_at df "temperature_2m_max" i with
          | Num q => Qle_bool 25 q && Qle_bool q 35
          | _ => false
          end
       then Num 1 else Num 0) /\
    cell_at e "breeding_conditions" i
    = (if match cell_at df "precipitation_sum" i with
          | Num q => negb (Qle_bool q 0)
          | _ => false
          end
          && match cell_at df "temperature_2m_min" i with
             | Num q => negb (Qle_bool q 20)
             | _ => false
             end
       then Num 1 else Num 0).
Proof.
  intros R H i Hi. unfold repaired_weather_features in H. inv_bind H.
  rename a into d, E into Hd, H into He.
  pose proof Hd as Hd'. unfold derive_weather_features in Hd'. inv_bind Hd'.
  rename a into r, a0 into r', E into Hr, E0 into Hind, Hd' into Hlag.
  destruct (indicator_stage_values _ _ Hind)
    as (tmax & prec & tmin & ge & le & wet & warm
        & Htmax & Hprec & Htmin & Hge & Hle & Hwet & Hwarm & ->).
  destruct (rolling_stage_rect _ _ R Hr) as [Rr Nr].
  assert (forall c, In c weather_cols -> get_col r c = get_col df c) as Src.
  { intros c Hc. apply (rolling_stage_frame _ _ Hr).
    apply rolling_sources_apart. right.
    change c with (fst (c, 3%nat)). apply in_map.
    apply in_prod; [exact Hc | simpl; auto]. }
  rewrite Src in Htmax, Hprec, Htmin by (apply mem_string_In; reflexivity).
  pose proof (rectangular_get_col _ _ _ R Htmax) as Ltmax.
  pose proof (rectangular_get_col _ _ _ R Hprec) as Lprec.
  pose proof (rectangular_get_col _ _ _ R Htmin) as Ltmin.
  pose proof (compare_length _ _ _ Hge) as Lge.
  pose proof (compare_length _ _ _ Hle) as Lle.
  pose proof (compare_length _ _ _ Hwet) as Lwet.
  pose proof (compare_length _ _ _ Hwarm) as Lwarm.
  destruct (fill_stage_get d) as (e' & He' & G).
  rewrite He in He'. injection He' as <-.
  assert (~ In "optimal_mosquito_temp" lag_names) as N1
    by (apply indicators_not_lags; simpl; auto).
  assert (~ In "breeding_conditions" lag_names) as N2
    by (apply indicators_not_lags; simpl; auto).
  unfold cell_at. rewrite !G.
  change (mem_string "optimal_mosquito_temp" exclude_columns) with false.
  change (mem_string "breeding_conditions" exclude_columns) with false.
  cbv iota.
  rewrite (lag_fold_frame _ _ _ Hlag _ N1), (lag_fold_frame _ _ _ Hlag _ N2).
  rewrite get_col_set_col_other
    by (apply String.eqb_neq; vm_compute; reflexivity).
  rewrite !get_col_set_col_same. simpl option_map.
  rewrite !fill_id by apply astype_int_populated.
  rewrite Htmax, Hprec, Htmin.
  rewrite !astype_int_nth by (rewrite and_mask_length; lia).
  rewrite !and_mask_nth by lia.
  rewrite (compare_nth _ _ _ Hge), (compare_nth _ _ _ Hle),
          (compare_nth _ _ _ Hwet), (compare_nth _ _ _ Hwarm).
  unfold Qge_bool, Qgt_bool.
  split.
  - destruct (nth i tmax NaN); reflexivity.
  - reflexivity.
Qed.

(** X1.  [optimal_mosquito_temp] is 1 or 0 and never missing; it is 1
    exactly when the record's own [temperature_2m_max], as it was given,
    lies between 25 and 35, bounds included, and 0 when that temperature is
    missing. *)
Theorem optimal_temperature_indicator (df e : DataFrame) :
  rectangular df ->
  repaired_weather_features df = Ok e ->
  forall i, (i < nrows df)%nat ->
    (cell_at e "optimal_mosquito_temp" i = Num 1 \/
     cell_at e "optimal_mosquito_temp" i = Num 0) /\
    (cell_at e "optimal_mosquito_temp" i = Num 1 <->
     exists q, cell_at df "temperature_2m_max" i = Num q /\
               (25 <= q)%Q /\ (q <= 35)%Q).
Proof.
  intros R H i Hi. destruct (indicator_cells df e R H i Hi) as [-> _].
  destruct (cell_at df "temperature_2m_max" i) as [| q | s | d];
    try (split; [right; reflexivity |];
         split; [discriminate | intros (q & Hq & _); discriminate Hq]).
  split; [destruct (Qle_bool 25 q && Qle_bool q 35); auto |].
  split.
  - intros Hc.
    destruct (Qle_bool 25 q) eqn:E1; destruct (Qle_bool q 35) eqn:E2;
      try discriminate Hc.
    exists q. rewrite <- !Qle_bool_iff. auto.
  - intros (q' & Hq & H1 & H2). injection Hq as <-.
    apply Qle_bool_iff in H1, H2. rewrite H1, H2. reflexivity.
Qed.

(** X2.  [breeding_conditions] is 1 or 0 and never missing; it is 1
    exactly when the record's own [precipitation_sum] is above 0 and its
    [temperature_2m_min] above 20, and 0 as soon as one of the two is
    missing. *)
Theorem breeding_conditions_indicator (df e : DataFrame) :
  rectangular df ->
  repaired_weather_features df = Ok e ->
  forall i, (i < nrows df)%nat ->
    (cell_at e "breeding_conditions" i = Num 1 \/
     cell_at e "breeding_conditions" i = Num 0) /\
    (cell_at e "breeding_conditions" i = Num 1 <->
     exists p t, cell_at df "precipitation_sum" i = Num p /\
                 cell_at df "temperature_2m_min" i = Num t /\
                 (0 < p)%Q /\ (20 < t)%Q).
Proof.
  intros R H i Hi. destruct (indicator_cells df e R H i Hi) as [_ ->].
  assert (forall c x, negb (Qle_bool x c) = true <-> (c < x)%Q) as Gt.
  { intros c x. rewrite negb_true_iff. split.
    - intros Hb. apply Qnot_le_lt. intros Hle.
      apply Qle_bool_iff in Hle. congruence.
    - intros Hlt. destruct (Qle_bool x c) eqn:E; [| reflexivity].
      apply Qle_bool_iff in E. exfalso. exact (Qlt_not_le _ _ Hlt E). }
  destruct (cell_at df "precipitation_sum" i) as [| p | s | d];
    try (split; [right; reflexivity |];
         split; [discriminate | intros (p & t & Hp & _); discriminate Hp]).
  destruct (cell_at df "temperature_2m_min" i) as [| t | s | d];
    try (rewrite andb_false_r; split; [right; reflexivity |];
         split; [discriminate | intros (p' & t & _ & Ht & _); discriminate Ht]).
  split; [destruct (negb (Qle_bool p 0) && negb (Qle_bool t 20)); auto |].
  split.
  - intros Hc.
    destruct (negb (Qle_bool p 0)) eqn:E1;
      destruct (negb (Qle_bool t 20)) eqn:E2; try discriminate Hc.
    exists p, t. rewrite <- !Gt. auto.
  - intros (p' & t' & Hp & Ht & H1 & H2).
    injection Hp as <-. injection Ht as <-.
    apply Gt in H1, H2. rewrite H1, H2. reflexivity.
Qed.

(** ** When the method succeeds *)

Lemma compare_ok (test : Q -> bool) (vals : series) (x : list (option Q)) :
  floats vals = Ok x -> exists m, compare test vals = Ok m.
Proof.
  unfold floats, compare. revert x.
  induction vals as [| c vals IH]; simpl; intros x H; [eauto |].
  inv_bind H. destruct (IH _ E0) as (m & ->).
  destruct c; try discriminate E; simpl; eauto.
Qed.

Lemma rolling_fold_ok (l : list (string * nat)) :
  (forall c, In c ("city" :: map fst l) -> ~ In c (flat_map stat_names l)) ->
  forall df keys,
    get_col df "city" = Some keys ->
    (forall cw, In cw l ->
       exists vals x, get_col df (fst cw) = Some vals /\ floats vals = Ok x) ->
    exists df', foldM rolling_step l df = Ok df'.
Proof.
  induction l as [| a l IH]; intros Hs df keys Hk Hn; [simpl; eauto |].
  change (flat_map stat_names (a :: l))
    with (stat_names a ++ flat_map stat_names l) in Hs.
  assert (forall c, In c ("city" :: map fst (a :: l)) ->
                    ~ In c (stat_names a)) as Hs1.
  { intros c Hc Hin. apply (Hs c Hc). apply in_or_app. auto. }
  destruct (Hn a (or_introl eq_refl)) as (vals & x & Hva & Hx).
  destruct (rolling_step_ok df a keys vals x) as (df1 & E); auto.
  { apply Hs1. simpl. auto. }
  { apply Hs1. simpl. auto. }
  simpl. rewrite E. cbn [bind].
  apply IH with (keys := keys).
  - intros c Hc Hin. apply (Hs c); [simpl in *; tauto |].
    apply in_or_app. auto.
  - rewrite (rolling_step_frame _ _ _ E); [exact Hk |].
    apply Hs1. simpl. auto.
  - intros cw Hcw. destruct (Hn cw (or_intror Hcw)) as (v' & x' & Hv' & Hx').
    exists v', x'. split; [| exact Hx'].
    rewrite (rolling_step_frame _ _ _ E); [exact Hv' |].
    apply Hs1. simpl. right. right. apply in_map. exact Hcw.
Qed.

Lemma indicator_stage_ok (r : DataFrame) :
  (forall c, In c ["temperature_2m_max"; "precipitation_sum";
                   "temperature_2m_min"] ->
     exists vals x, get_col r c = Some vals /\ floats vals = Ok x) ->
  exists r', indicator_stage r = Ok r'.
Proof.
  intros H.
  destruct (H "temperature_2m_max") as (tmax & x1 & Ht & Hx1); [simpl; auto |].
  destruct (H "precipitation_sum") as (prec & x2 & Hp & Hx2); [simpl; auto |].
  destruct (H "temperature_2m_min") as (tmin & x3 & Hm & Hx3); [simpl; auto |].
  destruct (compare_ok (Qge_bool 25) _ _ Hx1) as (ge & Hge).
  destruct (compare_ok (fun x => Qle_bool x 35) _ _ Hx1) as (le & Hle).
  destruct (compare_ok (Qgt_bool 0) _ _ Hx2) as (wet & Hwet).
  destruct (compare_ok (Qgt_bool 20) _ _ Hx3) as (warm & Hwarm).
  unfold indicator_stage, getitem.
  rewrite Ht. cbn [bind]. rewrite Hge. cbn [bind]. rewrite Hle. cbn [bind].
  rewrite !get_col_set_col_other
    by (apply String.eqb_neq; vm_compute; reflexivity).
  rewrite Hp. cbn [bind]. rewrite Hwet. cbn [bind].
  rewrite Hm. cbn [bind]. rewrite Hwarm. cbn [bind].
  eexists. reflexivity.
Qed.

Lemma lag_fold_ok (l : list nat) :
  (forall c, In c ["city"; "breeding_conditions"] -> ~ In c (map lag_name l)) ->
  forall df keys b,
    get_col df "city" = Some keys ->
    get_col df "breeding_conditions" = Some b ->
    exists d, foldM lag_step l df = Ok d.
Proof.
  induction l as [| a l IH]; intros Hs df keys b Hk Hb; [simpl; eauto |].
  simpl. unfold lag_step at 1, getitem. rewrite Hk, Hb. cbn [bind].
  apply IH with (keys := keys) (b := b).
  - intros c Hc Hin. apply (Hs c Hc). simpl. auto.
  - rewrite get_col_set_col_other; [exact Hk |].
    intros Heq. apply (Hs "city"); simpl; auto.
  - rewrite get_col_set_col_other; [exact Hb |].
    intros Heq. apply (Hs "breeding_conditions"); simpl; auto.
Qed.

(** The derived columns are computed as soon as the city column is there
    and the four weather columns are there and numeric. *)
Lemma derive_ok (df : DataFrame) :
  has_col df "city" = true ->
  (forall c, In c weather_cols ->
     exists vals x, get_col df c = Some vals /\ floats vals = Ok x) ->
  exists d, derive_weather_features df = Ok d.
Proof.
  intros Hcity Hw. unfold has_col in Hcity.
  destruct (get_col df "city") as [keys |] eqn:Hk; [| discriminate Hcity].
  destruct (rolling_fold_ok _ rolling_sources_apart df keys Hk) as (r & Hr).
  { intros [c w] Hcw. apply in_prod_iff in Hcw. apply Hw. tauto. }
  assert (forall c, In c ("city" :: weather_cols) -> get_col r c = get_col df c)
    as Src.
  { intros c Hc. apply (rolling_fold_frame _ _ _ Hr).
    apply rolling_sources_apart. destruct Hc as [<- | Hc]; [left; reflexivity |].
    right. change c with (fst (c, 3%nat)). apply in_map.
    apply in_prod; [exact Hc | simpl; auto]. }
  destruct (indicator_stage_ok r) as (r' & Hr').
  { intros c Hc. rewrite Src.
    - apply Hw. simpl in Hc. simpl. tauto.
    - simpl in Hc. simpl. tauto. }
  destruct (indicator_stage_values _ _ Hr')
    as (tmax & prec & tmin & ge & le & wet & warm
        & _ & _ & _ & _ & _ & _ & _ & Er').
  destruct (lag_fold_ok lag_days lag_sources_apart r' keys
              (astype_int (and_mask wet warm))) as (d & Hd).
  { rewrite Er'.
    rewrite !get_col_set_col_other
      by (apply String.eqb_neq; vm_compute; reflexivity).
    rewrite Src by (simpl; auto). exact Hk. }
  { rewrite Er'. apply get_col_set_col_same. }
  exists d. unfold derive_weather_features, rolling_stage, lag_stage.
  rewrite Hr. cbn [bind]. rewrite Hr'. cbn [bind]. exact Hd.
Qed.

Lemma context_columns_kept (df d e : DataFrame) :
  derive_weather_features df = Ok d -> fill_stage d = Ok e ->
  forall n, In n exclude_columns -> get_col e n = get_col df n.
Proof.
  intros Hd He n Hn.
  destruct (fill_stage_get d) as (e' & He' & G).
  rewrite He in He'. injection He' as <-. rewrite G.
  assert (mem_string n exclude_columns = true) as ->
    by (apply mem_string_In; exact Hn).
  apply (derive_frame _ _ Hd). intros Hin.
  apply derived_names_not_excluded in Hin.
  apply mem_string_In in Hn. congruence.
Qed.

Lemma floats_numeric (vals : series) :
  Forall num_or_missing vals -> exists x, floats vals = Ok x.
Proof.
  unfold floats. induction 1 as [| c vals Hc F (x & IH)]; [exists []; reflexivity |].
  cbn [mapM]. rewrite IH.
  destruct Hc as [-> | (q & ->)]; eexists; reflexivity.
Qed.

(** X3.  The weather feature builder returns a dataset whenever each of the
    four weather columns is present and holds only numbers and missing
    cells and each of the eleven context columns, [city] and [date] among
    them, is present.  Conversely it returns nothing, and so has raised,
    as soon as one of these fifteen columns is absent. *)
Theorem weather_features_succeed (df : DataFrame) :
  ((forall c, In c weather_cols ->
      exists vals, get_col df c = Some vals /\ Forall num_or_missing vals) ->
   (forall n, In n exclude_columns -> has_col df n = true) ->
   exists out, create_weather_features df = Ok out) /\
  ((exists out, create_weather_features df = Ok out) ->
   (forall c, In c weather_cols -> has_col df c = true) /\
   (forall n, In n exclude_columns -> has_col df n = true)).
Proof.
  split.
  - intros Hw' Hc.
    assert (forall c, In c weather_cols ->
              exists vals x, get_col df c = Some vals /\ floats vals = Ok x)
      as Hw.
    { intros c Hin. destruct (Hw' c Hin) as (vals & Hv & F).
      destruct (floats_numeric _ F) as (x & Hx). eauto. }
    clear Hw'.
    destruct (derive_ok df) as (d & Hd); [apply Hc; simpl; auto 20 | exact Hw |].
    destruct (fill_stage_get d) as (e & He & _).
    unfold create_weather_features, repaired_weather_features.
    rewrite Hd. cbn [bind]. rewrite He. cbn [bind].
    unfold dropna. rewrite filter_nil; [eauto |].
    intros n Hn. unfold has_col.
    rewrite (context_columns_kept _ _ _ Hd He n Hn).
    specialize (Hc n Hn). unfold has_col in Hc. rewrite Hc. reflexivity.
  - intros (out & H).
    destruct (create_inv _ _ H) as (d & e & Hd & He & _ & Ho).
    destruct (derive_inv _ _ Hd) as (r & _ & _ & Hr & _).
    split.
    + intros c Hc.
      destruct (rolling_stage_sources _ _ Hr c 3%nat Hc)
        as (_ & vals & x & _ & Hv & Hx); [simpl; auto |].
      unfold has_col. rewrite Hv. reflexivity.
    + intros n Hn. apply dropna_inv in Ho. destruct Ho as [Hp _].
      specialize (Hp n Hn). unfold has_col in *.
      rewrite (context_columns_kept _ _ _ Hd He n Hn) in Hp. exact Hp.
Qed.

(** X4.  Without a [city] column nothing is computed: the method raises a
    [KeyError] naming [city]. *)
Theorem absent_city_raises (df : DataFrame) :
  has_col df "city" = false ->
  create_weather_features df = Raise (KeyError ["city"]).
Proof.
  intros H. apply has_col_false in H.
  unfold create_weather_features, repaired_weather_features,
    derive_weather_features, rolling_stage.
  change (list_prod weather_cols windows)
    with (("temperature_2m_max", 3%nat)
          :: tl (list_prod weather_cols windows)).
  cbn [foldM]. unfold rolling_step at 1, grouped_rolling, getitem.
  rewrite H. reflexivity.
Qed.

(** X5.  The context columns are checked last: when the weather columns
    and the city column are in order but context columns are absent, every
    feature is computed first and the method then raises one [KeyError]
    that lists all the absent context columns, in the order of the
    exclusion list. *)
Theorem absent_context_columns_raise (df : DataFrame) :
  has_col df "city" = true ->
  (forall c, In c weather_cols ->
     exists vals x, get_col df c = Some vals /\ floats vals = Ok x) ->
  filter (fun n => negb (has_col df n)) exclude_columns <> [] ->
  (exists e, repaired_weather_features df = Ok e) /\
  create_weather_features df
  = Raise (KeyError (filter (fun n => negb (has_col df n)) exclude_columns)).
Proof.
  intros Hcity Hw Habsent.
  destruct (derive_ok df Hcity Hw) as (d & Hd).
  destruct (fill_stage_get d) as (e & He & _).
  assert (repaired_weather_features df = Ok e) as Hrep.
  { unfold repaired_weather_features. rewrite Hd. exact He. }
  split; [eauto |].
  unfold create_weather_features. rewrite Hrep. cbn [bind]. unfold dropna.
  assert (filter (fun n => negb (has_col e n)) exclude_columns
          = filter (fun n => negb (has_col df n)) exclude_columns) as ->.
  { apply filter_ext_in. intros n Hn. unfold has_col.
    rewrite (context_columns_kept _ _ _ Hd He n Hn). reflexivity. }
  destruct (filter (fun n => negb (has_col df n)) exclude_columns);
    [congruence | reflexivity].
Qed.

(** ** The rows that are returned *)

Lemma mask_filter_length {A : Type} (mask : list bool) (l : list A) :
  List.length mask = List.length l ->
  List.length (mask_filter mask l) = List.length (filter (fun b => b) mask).
Proof.
  revert l. induction mask as [| b mask IH]; intros [| a l] L; simpl in *;
    try reflexivity; try discriminate L.
  destruct b; simpl; rewrite IH by lia; reflexivity.
Qed.

Lemma mask_kept {A : Type} (keep : nat -> bool) (P : A -> Prop) (d : A)
  (v : list A) :
  forall a,
    (forall i, (i < List.length v)%nat -> keep (a + i)%nat = true ->
               P (nth i v d)) ->
    Forall P (mask_filter (map keep (seq a (List.length v))) v).
Proof.
  induction v as [| x v IH]; intros a H; simpl; [constructor |].
  assert (Forall P (mask_filter (map keep (seq (S a) (List.length v))) v))
    as Hrest.
  { apply IH. intros i Hi Hk. apply (H (S i)); [simpl; lia |].
    replace (a + S i)%nat with (S a + i)%nat by lia. exact Hk. }
  destruct (keep a) eqn:E; [| exact Hrest].
  constructor; [| exact Hrest].
  apply (H 0%nat); [simpl; lia |]. rewrite Nat.add_0_r. exact E.
Qed.

Lemma nrows_filter_rows (mask : list bool) (df : DataFrame) :
  rectangular df -> List.length mask = nrows df ->
  nrows (filter_rows mask df)
  = match df with
    | [] => 0%nat
    | _ => List.length (filter (fun b => b) mask)
    end.
Proof.
  intros R L. destruct df as [| [n v] df]; [reflexivity |].
  simpl. apply mask_filter_length. rewrite L. reflexivity.
Qed.

Lemma rectangular_filter_rows (mask : list bool) (df : DataFrame) :
  rectangular df -> List.length mask = nrows df ->
  rectangular (filter_rows mask df).
Proof.
  intros R L n v Hin. rewrite nrows_filter_rows by assumption.
  unfold filter_rows in Hin. apply in_map_iff in Hin.
  destruct Hin as ([m w] & Heq & Hw). injection Heq as <- <-.
  destruct df as [| p df]; [contradiction |].
  apply mask_filter_length. rewrite L. symmetry. eapply R; eauto.
Qed.

Lemma repaired_rect (df e : DataFrame) :
  rectangular df -> repaired_weather_features df = Ok e ->
  rectangular e /\ nrows e = nrows df.
Proof.
  intros R H. unfold repaired_weather_features in H. inv_bind H.
  destruct (derive_rect _ _ R E) as [Rd Nd].
  destruct (fill_stage_rect _ _ Rd H) as [Re Ne].
  split; [exact Re | congruence].
Qed.

(** X6.  The returned dataset is the repaired frame without the rows that
    lack a context value: a record is kept exactly when, as it was given,
    it holds every one of the eleven context columns; the result is
    rectangular, has no more rows than the input, and none of its context
    cells is missing. *)
Theorem returned_rows_are_complete (df out : DataFrame) :
  rectangular df ->
  create_weather_features df = Ok out ->
  exists e mask,
    repaired_weather_features df = Ok e /\
    out = filter_rows mask e /\
    List.length mask = nrows df /\
    (forall i, (i < nrows df)%nat ->
       (nth i mask false = true <->
        forall n, In n exclude_columns -> isna (cell_at df n i) = false)) /\
    rectangular out /\
    (nrows out <= nrows df)%nat /\
    forall n, In n exclude_columns ->
      exists v, get_col out n = Some v /\ populated v.
Proof.
  intros R H. destruct (create_inv _ _ H) as (d & e & Hd & He & Hrep & Ho).
  destruct (repaired_rect _ _ R Hrep) as [Re Ne].
  pose proof (context_columns_kept _ _ _ Hd He) as Ctx.
  apply dropna_inv in Ho. destruct Ho as [Hp Hout].
  set (keep := fun i => forallb (fun n => notna (cell_at e n i)) exclude_columns)
    in *.
  exists e, (map keep (seq 0 (nrows e))).
  assert (List.length (map keep (seq 0 (nrows e))) = nrows e) as Lm
    by (rewrite length_map, length_seq; reflexivity).
  split; [exact Hrep |]. split; [exact Hout |].
  split; [congruence |].
  split.
  { intros i Hi.
    rewrite nth_indep with (d' := keep 0%nat) by (rewrite Lm; lia).
    rewrite map_nth, seq_nth by lia. simpl. unfold keep.
    rewrite forallb_forall. split; intros Hk n Hn; specialize (Hk n Hn);
      unfold cell_at, notna in *; rewrite (Ctx n Hn) in *.
    - apply negb_true_iff. exact Hk.
    - rewrite Hk. reflexivity. }
  split; [rewrite Hout; apply rectangular_filter_rows; assumption |].
  split.
  { rewrite Hout, nrows_filter_rows by assumption. rewrite <- Ne.
    pose proof (filter_length_le (fun b : bool => b)
                  (map keep (seq 0 (nrows e)))) as Hle.
    rewrite Lm in Hle. destruct e; [lia | exact Hle]. }
  intros n Hn. specialize (Hp n Hn). unfold has_col in Hp.
  destruct (get_col e n) as [v |] eqn:Ev; [| discriminate Hp].
  exists (mask_filter (map keep (seq 0 (nrows e))) v).
  split; [rewrite Hout, get_col_filter_rows, Ev; reflexivity |].
  rewrite <- (rectangular_get_col _ _ _ Re Ev).
  apply (mask_kept keep (fun c => isna c = false) NaN v 0%nat).
  intros i Hi Hk. simpl in Hk. unfold keep in Hk.
  rewrite forallb_forall in Hk. specialize (Hk n Hn).
  unfold cell_at, notna in Hk. rewrite Ev in Hk.
  apply negb_true_iff. exact Hk.
Qed.

(** ** The columns that are returned *)

Lemma columns_set_col (df : DataFrame) (n : string) (v : series) :
  columns (set_col df n v)
  = if mem_string n (columns df) then columns df else columns df ++ [n].
Proof.
  induction df as [| [m w] df IH]; simpl; [reflexivity |].
  rewrite (String.eqb_sym n m).
  destruct (String.eqb m n) eqn:E; simpl; [reflexivity |].
  rewrite IH. fold (mem_string n (columns df)).
  destruct (mem_string n (columns df)); reflexivity.
Qed.

Lemma add_names_app (cols a b : list string) :
  add_names cols (a ++ b) = add_names (add_names cols a) b.
Proof. apply fold_left_app. Qed.

Lemma add_names_present (names cols : list string) :
  (forall n, In n names -> In n cols) -> add_names cols names = cols.
Proof.
  unfold add_names. induction names as [| n names IH]; simpl; intros H;
    [reflexivity |].
  assert (mem_string n cols = true) as -> by (apply mem_string_In; auto).
  apply IH. auto.
Qed.

Lemma add_names_fresh (names : list string) :
  NoDup names ->
  forall cols, (forall n, In n names -> ~ In n cols) ->
               add_names cols names = cols ++ names.
Proof.
  unfold add_names. induction 1 as [| n names Hn Hd IH]; simpl; intros cols H.
  - rewrite app_nil_r. reflexivity.
  - assert (mem_string n cols = false) as ->.
    { destruct (mem_string n cols) eqn:E; [| reflexivity].
      apply mem_string_In in E. exfalso. apply (H n); auto. }
    rewrite IH.
    + rewrite <- app_assoc. reflexivity.
    + intros m Hm Hin. apply in_app_or in Hin. destruct Hin as [Hin | [<- | []]].
      * apply (H m); auto.
      * contradiction.
Qed.

Lemma rolling_fold_columns (l : list (string * nat)) :
  forall df df', foldM rolling_step l df = Ok df' ->
  columns df' = add_names (columns df) (flat_map stat_names l).
Proof.
  induction l as [| [col w] l IH]; intros df df' H.
  - injection H as <-. reflexivity.
  - cbn [foldM] in H. inv_bind H. rewrite (IH _ _ H).
    change (flat_map stat_names ((col, w) :: l))
      with (stat_names (col, w) ++ flat_map stat_names l).
    rewrite add_names_app. f_equal.
    unfold rolling_step in E. inv_bind E. injection E as <-.
    rewrite !columns_set_col. reflexivity.
Qed.

Lemma lag_fold_columns (l : list nat) :
  forall df df', foldM lag_step l df = Ok df' ->
  columns df' = add_names (columns df) (map lag_name l).
Proof.
  induction l as [| a l IH]; simpl; intros df df' H.
  - injection H as <-. reflexivity.
  - inv_bind H. rewrite (IH _ _ H).
    apply lag_step_inv in E. destruct E as (keys & b & _ & _ & ->).
    rewrite columns_set_col. reflexivity.
Qed.

Lemma columns_assign_cols (sub : DataFrame) (cols : list string) :
  forall df, (forall n, In n cols -> In n (columns df)) ->
             columns (assign_cols df cols sub) = columns df.
Proof.
  unfold assign_cols. induction cols as [| n cols IH]; simpl; intros df H;
    [reflexivity |].
  assert (columns (match get_col sub n with
                   | Some v => set_col df n v
                   | None => df
                   end) = columns df) as Hc.
  { destruct (get_col sub n); [| reflexivity].
    rewrite columns_set_col.
    assert (mem_string n (columns df) = true) as ->
      by (apply mem_string_In; auto).
    reflexivity. }
  rewrite IH; [exact Hc |]. intros m Hm. rewrite Hc. auto.
Qed.

Lemma fill_columns_columns (fill : series -> series) (cols : list string)
  (df df' : DataFrame) :
  fill_columns fill cols df = Ok df' -> columns df' = columns df.
Proof.
  unfold fill_columns. intros H. inv_bind H. injection H as <-.
  apply select_inv in E. destruct E as [Hp _].
  apply columns_assign_cols. intros n Hn. apply has_col_columns. auto.
Qed.

Lemma columns_filter_rows (mask : list bool) (df : DataFrame) :
  columns (filter_rows mask df) = columns df.
Proof.
  unfold columns, filter_rows. rewrite map_map. apply map_ext.
  intros [n v]. reflexivity.
Qed.

(** X7.  The method returns the columns of the input with the 29 derived
    columns written after them in the order they are computed: the rolling
    statistics, the two indicators, the three lags.  A derived name the
    input already has is overwritten where it stands, so that a dataset
    that is enriched a second time keeps its columns. *)
Theorem returned_columns (df out : DataFrame) :
  create_weather_features df = Ok out ->
  columns out = add_names (columns df) derived_names /\
  ((forall n, In n derived_names -> ~ In n (columns df)) ->
   columns out = columns df ++ derived_names) /\
  ((forall n, In n derived_names -> In n (columns df)) ->
   columns out = columns df).
Proof.
  intros H.
  assert (columns out = add_names (columns df) derived_names) as Hc.
  { destruct (create_inv _ _ H) as (d & e & Hd & He & _ & Ho).
    apply dropna_inv in Ho. destruct Ho as [_ ->].
    rewrite columns_filter_rows.
    unfold fill_stage in He. inv_bind He.
    rewrite (fill_columns_columns _ _ _ _ He),
            (fill_columns_columns _ _ _ _ E).
    unfold derive_weather_features in Hd. inv_bind Hd.
    rename a0 into r, a1 into r', E0 into Hr, E1 into Hind.
    unfold derived_names.
    rewrite (add_names_app _ rolling_names (indicator_names ++ lag_names)).
    rewrite (add_names_app _ indicator_names lag_names).
    assert (columns r = add_names (columns df) rolling_names) as <-
      by (exact (rolling_fold_columns _ _ _ Hr)).
    assert (columns r' = add_names (columns r) indicator_names) as <-.
    { destruct (indicator_stage_values _ _ Hind)
        as (? & ? & ? & ? & ? & ? & ? & _ & _ & _ & _ & _ & _ & _ & ->).
      rewrite !columns_set_col. reflexivity. }
    exact (lag_fold_columns _ _ _ Hd). }
  split; [exact Hc |]. split; intros Hn; rewrite Hc.
  - apply add_names_fresh; [exact derived_names_distinct | exact Hn].
  - apply add_names_present. exact Hn.
Qed.

(** ** The temporal features *)

Lemma dt_inv (field : date -> Z) (dates v : series) :
  dt field dates = Ok v ->
  Forall ts_or_missing dates /\ v = map (calendar_cell field) dates.
Proof.
  unfold dt. revert v. induction dates as [| c dates IH]; simpl; intros v H.
  - injection H as <-. auto.
  - inv_bind H. injection H as <-. destruct (IH _ E0) as [F ->].
    destruct c; try discriminate E; injection E as <-; split;
      try reflexivity; constructor; unfold ts_or_missing; eauto.
Qed.

Lemma dt_ok (field : date -> Z) (dates : series) :
  Forall ts_or_missing dates ->
  dt field dates = Ok (map (calendar_cell field) dates).
Proof.
  unfold dt. induction 1 as [| c dates Hc F IH]; simpl; [reflexivity |].
  rewrite IH. destruct Hc as [-> | (d & ->)]; reflexivity.
Qed.

Lemma map_float_inv (f : Q -> Q) (s r : series) :
  map_float f s = Ok r ->
  Forall num_or_missing s /\ r = map (lift_float f) s.
Proof.
  unfold map_float. revert r. induction s as [| c s IH]; simpl; intros r H.
  - injection H as <-. auto.
  - inv_bind H. injection H as <-. destruct (IH _ E0) as [F ->].
    destruct c; try discriminate E; injection E as <-; split;
      try reflexivity; constructor; unfold num_or_missing; eauto.
Qed.

Lemma map_float_ok (f : Q -> Q) (s : series) :
  Forall num_or_missing s -> map_float f s = Ok (map (lift_float f) s).
Proof.
  unfold map_float. induction 1 as [| c s Hc F IH]; simpl; [reflexivity |].
  rewrite IH. destruct Hc as [-> | (q & ->)]; reflexivity.
Qed.

Lemma cut_ok (s : series) (bins : list Q) (labels : list string) :
  Forall num_or_missing s ->
  cut s bins labels
  = Ok (map (fun c => match c with
                      | Num q => cut_bins q bins labels
                      | _ => NaN
                      end) s).
Proof.
  unfold cut. induction 1 as [| c s Hc F IH]; simpl; [reflexivity |].
  rewrite IH. destruct Hc as [-> | (q & ->)]; reflexivity.
Qed.

Lemma calendar_cells_numeric (field : date -> Z) (dates : series) :
  Forall num_or_missing (map (calendar_cell field) dates).
Proof.
  apply Forall_map. apply Forall_forall. intros c _.
  unfold num_or_missing. destruct c; simpl; eauto.
Qed.

Lemma add_dt_ok (name : string) (field : date -> Z) (df : DataFrame)
  (dates : series) :
  get_col df "date" = Some dates -> Forall ts_or_missing dates ->
  add_dt name field df = Ok (set_col df name (map (calendar_cell field) dates)).
Proof.
  intros Hd F. unfold add_dt, getitem. rewrite Hd. cbn [bind].
  rewrite (dt_ok _ _ F). reflexivity.
Qed.

Lemma add_dt_values (name : string) (field : date -> Z) (df df' : DataFrame)
  (dates : series) :
  get_col df "date" = Some dates ->
  add_dt name field df = Ok df' ->
  Forall ts_or_missing dates /\
  df' = set_col df name (map (calendar_cell field) dates).
Proof.
  intros Hd H. unfold add_dt in H. inv_bind H. injection H as <-.
  apply getitem_ok in E. rewrite Hd in E. injection E as <-.
  destruct (dt_inv _ _ _ E0) as [F ->]. auto.
Qed.

Lemma cyclic_step_values (df : DataFrame) (cm : string * Z) (df' : DataFrame) :
  ~ In (fst cm) (cyclic_names cm) ->
  cyclic_step df cm = Ok df' ->
  exists x,
    get_col df (fst cm) = Some x /\ Forall num_or_missing x /\
    df' = set_col
            (set_col df (fst cm ++ "_sin")%string
               (map (lift_float
                       (fun q => sin_turn (q / inject_Z (snd cm)))) x))
            (fst cm ++ "_cos")%string
            (map (lift_float (fun q => cos_turn (q / inject_Z (snd cm)))) x).
Proof.
  destruct cm as [col m]. unfold cyclic_names. simpl. intros Hs H.
  unfold cyclic_step in H. inv_bind H. injection H as <-.
  apply getitem_ok in E, E1.
  rewrite get_col_set_col_other in E1 by tauto.
  rewrite E in E1. injection E1 as <-.
  destruct (map_float_inv _ _ _ E0) as [F ->].
  destruct (map_float_inv _ _ _ E2) as [_ ->].
  exists a. auto.
Qed.

Lemma cyclic_step_ok (df : DataFrame) (cm : string * Z) (x : series) :
  ~ In (fst cm) (cyclic_names cm) ->
  get_col df (fst cm) = Some x -> Forall num_or_missing x ->
  exists df', cyclic_step df cm = Ok df'.
Proof.
  destruct cm as [col m]. unfold cyclic_names. simpl. intros Hs Hx F.
  unfold cyclic_step, getitem. rewrite Hx. cbn [bind].
  rewrite (map_float_ok _ _ F). cbn [bind].
  rewrite get_col_set_col_other by tauto. rewrite Hx. cbn [bind].
  rewrite (map_float_ok _ _ F). cbn [bind]. eauto.
Qed.

Lemma cyclic_fold_frame (l : list (string * Z)) (df df' : DataFrame) :
  foldM cyclic_step l df = Ok df' ->
  forall c, ~ In c (flat_map cyclic_names l) -> get_col df' c = get_col df c.
Proof. apply fold_frame. apply FeatureEngineerSpec.cyclic_step_frame. Qed.

(** Every turn of the encoding loop leaves the sine and the cosine of its
    column, computed from the column the frame had on entry. *)
Lemma cyclic_fold_result (l : list (string * Z)) :
  NoDup (flat_map cyclic_names l) ->
  (forall c, In c (map fst l) -> ~ In c (flat_map cyclic_names l)) ->
  forall df df', foldM cyclic_step l df = Ok df' ->
  forall col m, In (col, m) l ->
  exists x,
    get_col df col = Some x /\ Forall num_or_missing x /\
    get_col df' (col ++ "_sin")%string
    = Some (map (lift_float (fun q => sin_turn (q / inject_Z m))) x) /\
    get_col df' (col ++ "_cos")%string
    = Some (map (lift_float (fun q => cos_turn (q / inject_Z m))) x).
Proof.
  induction l as [| cm l IH]; intros Hd Hs df df' H col m Hin; [contradiction |].
  cbn [foldM] in H. inv_bind H.
  change (flat_map cyclic_names (cm :: l))
    with (cyclic_names cm ++ flat_map cyclic_names l) in Hd, Hs.
  assert (forall c, In c (map fst (cm :: l)) -> ~ In c (cyclic_names cm)) as Hs1.
  { intros c Hc Hn. apply (Hs c Hc). apply in_or_app. auto. }
  destruct (cyclic_step_values df cm a) as (x0 & Hx0 & F0 & Ha); auto.
  { apply Hs1. simpl. auto. }
  destruct Hin as [-> | Hl].
  - simpl in Hx0, Ha. exists x0. split; [exact Hx0 |]. split; [exact F0 |].
    assert (forall n, In n (cyclic_names (col, m)) ->
                      ~ In n (flat_map cyclic_names l)) as Hfresh.
    { intros n Hn. eapply NoDup_app_apart; eauto. }
    rewrite !(cyclic_fold_frame _ _ _ H)
      by (apply Hfresh; unfold cyclic_names; simpl; auto).
    apply NoDup_app_remove_r in Hd. unfold cyclic_names in Hd. simpl in Hd.
    inversion Hd as [| ? ? Hnot _]; subst. simpl in Hnot.
    split.
    + rewrite get_col_set_col_other by tauto. apply get_col_set_col_same.
    + apply get_col_set_col_same.
  - destruct (IH (NoDup_app_remove_l _ _ Hd)) with (df := a) (df' := df')
      (col := col) (m := m) as (x & Hx & F & Hsin & Hcos); auto.
    { intros c Hc Hn. apply (Hs c); [simpl; auto |]. apply in_or_app. auto. }
    exists x. split; [| auto].
    rewrite <- Hx. symmetry. rewrite Ha.
    assert (~ In col (cyclic_names cm)) as Hn.
    { apply Hs1. simpl. right. change col with (fst (col, m)).
      apply in_map. exact Hl. }
    unfold cyclic_names in Hn. simpl in Hn.
    rewrite !get_col_set_col_other by tauto. reflexivity.
Qed.

Lemma cyclic_fold_ok (l : list (string * Z)) :
  (forall c, In c (map fst l) -> ~ In c (flat_map cyclic_names l)) ->
  forall df,
    (forall c, In c (map fst l) ->
       exists x, get_col df c = Some x /\ Forall num_or_missing x) ->
    exists df', foldM cyclic_step l df = Ok df'.
Proof.
  induction l as [| cm l IH]; intros Hs df Hx; [simpl; eauto |].
  change (flat_map cyclic_names (cm :: l))
    with (cyclic_names cm ++ flat_map cyclic_names l) in Hs.
  assert (forall c, In c (map fst (cm :: l)) -> ~ In c (cyclic_names cm)) as Hs1.
  { intros c Hc Hn. apply (Hs c Hc). apply in_or_app. auto. }
  destruct (Hx (fst cm)) as (x & Hc & F); [simpl; auto |].
  destruct (cyclic_step_ok df cm x) as (df1 & E); auto.
  { apply Hs1. simpl. auto. }
  cbn [foldM]. rewrite E. cbn [bind]. apply IH.
  - intros c Hc' Hn. apply (Hs c); [simpl; auto |]. apply in_or_app. auto.
  - intros c Hc'. destruct (Hx c) as (x' & Hx' & F'); [simpl; auto |].
    exists x'. split; [| exact F'].
    rewrite (FeatureEngineerSpec.cyclic_step_frame _ _ _ E); [exact Hx' |].
    apply Hs1. simpl. auto.
Qed.

Lemma cyclic_names_distinct : NoDup (flat_map cyclic_names cyclic_periods).
Proof. apply distinctb_NoDup. vm_compute. reflexivity. Qed.

Lemma cyclic_sources_apart :
  forall c, In c (map fst cyclic_periods) ->
            ~ In c (flat_map cyclic_names cyclic_periods).
Proof. apply disjointb_spec. vm_compute. reflexivity. Qed.

Lemma temporal_inv (df out : DataFrame) :
  create_temporal_features df = Ok out ->
  exists dates,
    get_col df "date" = Some dates /\ Forall ts_or_missing dates /\
    foldM cyclic_step cyclic_periods (calendar_frame df dates) = Ok out.
Proof.
  unfold create_temporal_features. intros H. inv_bind H.
  pose proof E as E'. unfold add_dt in E'. inv_bind E'.
  apply getitem_ok in E6. rename a6 into dates. clear E7 E'.
  exists dates. split; [exact E6 |].
  destruct (add_dt_values _ _ _ _ _ E6 E) as [F ->].
  split; [exact F |].
  assert (forall d n v, n <> "date" -> get_col d "date" = Some dates ->
                        get_col (set_col d n v) "date" = Some dates) as Keep.
  { intros d n v Hn Hd. rewrite get_col_set_col_other; assumption. }
  assert (forall d name field d',
            get_col d "date" = Some dates -> add_dt name field d = Ok d' ->
            d' = set_col d name (map (calendar_cell field) dates)) as Step.
  { intros d name field d' Hd Hs.
    destruct (add_dt_values _ _ _ _ _ Hd Hs) as [_ ->]. reflexivity. }
  pose proof (Keep df "month" (map (calendar_cell month) dates)
                ltac:(discriminate) E6) as K1.
  pose proof (Step _ _ _ _ K1 E0) as ->.
  pose proof (Keep _ "year" (map (calendar_cell year) dates)
                ltac:(discriminate) K1) as K2.
  pose proof (Step _ _ _ _ K2 E1) as ->.
  pose proof (Keep _ "day_of_year" (map (calendar_cell dayofyear) dates)
                ltac:(discriminate) K2) as K3.
  pose proof (Step _ _ _ _ K3 E2) as ->.
  pose proof (Keep _ "week_of_year" (map (calendar_cell isoweek) dates)
                ltac:(discriminate) K3) as K4.
  pose proof (Step _ _ _ _ K4 E3) as ->.
  apply getitem_ok in E4.
  rewrite !get_col_set_col_other in E4
    by (apply String.eqb_neq; vm_compute; reflexivity).
  rewrite get_col_set_col_same in E4. injection E4 as <-.
  rewrite (cut_ok _ _ _ (calendar_cells_numeric month dates)) in E5.
  injection E5 as <-. exact H.
Qed.

Lemma calendar_frame_column (df : DataFrame) (dates : series) :
  get_col (calendar_frame df dates) "month"
  = Some (map (calendar_cell month) dates) /\
  get_col (calendar_frame df dates) "year"
  = Some (map (calendar_cell year) dates) /\
  get_col (calendar_frame df dates) "day_of_year"
  = Some (map (calendar_cell dayofyear) dates) /\
  get_col (calendar_frame df dates) "week_of_year"
  = Some (map (calendar_cell isoweek) dates) /\
  get_col (calendar_frame df dates) "day_of_week"
  = Some (map (calendar_cell dayofweek) dates) /\
  get_col (calendar_frame df dates) "season"
  = Some (map season_of_cell (map (calendar_cell month) dates)).
Proof.
  unfold calendar_frame.
  repeat match goal with |- _ /\ _ => split end;
    rewrite ?get_col_set_col_other
      by (apply String.eqb_neq; vm_compute; reflexivity);
    apply get_col_set_col_same.
Qed.

Lemma calendar_frame_other (df : DataFrame) (dates : series) (c : string) :
  ~ In c ["month"; "year"; "day_of_year"; "week_of_year"; "day_of_week";
          "season"] ->
  get_col (calendar_frame df dates) c = get_col df c.
Proof.
  intros Hc. unfold calendar_frame.
  rewrite !get_col_set_col_other by (intros Heq; apply Hc; simpl; tauto).
  reflexivity.
Qed.

Lemma temporal_ok (df : DataFrame) (dates : series) :
  get_col df "date" = Some dates -> Forall ts_or_missing dates ->
  exists out, create_temporal_features df = Ok out.
Proof.
  intros Hd F.
  assert (forall d n v, n <> "date" -> get_col d "date" = Some dates ->
                        get_col (set_col d n v) "date" = Some dates) as Keep.
  { intros d n v Hn Hd'. rewrite get_col_set_col_other; assumption. }
  destruct (cyclic_fold_ok _ cyclic_sources_apart (calendar_frame df dates))
    as (out & Hout).
  { destruct (calendar_frame_column df dates) as (C1 & _ & C3 & C4 & C5 & _).
    intros c Hc. simpl in Hc.
    destruct Hc as [<- | [<- | [<- | [<- | []]]]]; eexists;
      (split; [eassumption | apply calendar_cells_numeric]). }
  pose proof (Keep df "month" (map (calendar_cell month) dates)
                ltac:(discriminate) Hd) as K1.
  pose proof (Keep _ "year" (map (calendar_cell year) dates)
                ltac:(discriminate) K1) as K2.
  pose proof (Keep _ "day_of_year" (map (calendar_cell dayofyear) dates)
                ltac:(discriminate) K2) as K3.
  pose proof (Keep _ "week_of_year" (map (calendar_cell isoweek) dates)
                ltac:(discriminate) K3) as K4.
  exists out. unfold create_temporal_features.
  rewrite (add_dt_ok _ _ _ dates Hd F). cbn [bind].
  rewrite (add_dt_ok _ _ _ dates K1 F). cbn [bind].
  rewrite (add_dt_ok _ _ _ dates K2 F). cbn [bind].
  rewrite (add_dt_ok _ _ _ dates K3 F). cbn [bind].
  rewrite (add_dt_ok _ _ _ dates K4 F).
  cbn [bind]. unfold getitem.
  rewrite !get_col_set_col_other
    by (apply String.eqb_neq; vm_compute; reflexivity).
  rewrite get_col_set_col_same. cbn [bind].
  rewrite (cut_ok _ _ _ (calendar_cells_numeric month dates)). cbn [bind].
  exact Hout.
Qed.

Lemma temporal_calendar_columns (df out : DataFrame) (dates : series) :
  create_temporal_features df = Ok out ->
  get_col df "date" = Some dates ->
  get_col out "month" = Some (map (calendar_cell month) dates) /\
  get_col out "year" = Some (map (calendar_cell year) dates) /\
  get_col out "day_of_year" = Some (map (calendar_cell dayofyear) dates) /\
  get_col out "week_of_year" = Some (map (calendar_cell isoweek) dates) /\
  get_col out "day_of_week" = Some (map (calendar_cell dayofweek) dates) /\
  get_col out "season"
  = Some (map season_of_cell (map (calendar_cell month) dates)).
Proof.
  intros H Hd. destruct (temporal_inv _ _ H) as (dates' & Hd' & _ & Hf).
  rewrite Hd in Hd'. injection Hd' as <-.
  assert (forall c, In c ["month"; "year"; "day_of_year"; "week_of_year";
                          "day_of_week"; "season"] ->
                    get_col out c = get_col (calendar_frame df dates) c) as Fr.
  { intros c Hc. apply (cyclic_fold_frame _ _ _ Hf).
    apply (disjointb_spec ["month"; "year"; "day_of_year"; "week_of_year";
                           "day_of_week"; "season"]);
      [vm_compute; reflexivity | exact Hc]. }
  rewrite !Fr by (apply mem_string_In; reflexivity).
  apply calendar_frame_column.
Qed.

Lemma temporal_cyclic_columns (df out : DataFrame) :
  create_temporal_features df = Ok out ->
  forall col period, In (col, period) cyclic_periods ->
  exists x,
    get_col out col = Some x /\
    get_col out (col ++ "_sin")%string
    = Some (map (lift_float (fun q => sin_turn (q / inject_Z period))) x) /\
    get_col out (col ++ "_cos")%string
    = Some (map (lift_float (fun q => cos_turn (q / inject_Z period))) x).
Proof.
  intros H col period Hin.
  destruct (temporal_inv _ _ H) as (dates & Hd & _ & Hf).
  destruct (cyclic_fold_result _ cyclic_names_distinct cyclic_sources_apart
              _ _ Hf col period Hin) as (x & Hx & _ & Hs & Hc).
  exists x. split; [| auto].
  rewrite (cyclic_fold_frame _ _ _ Hf); [exact Hx |].
  apply cyclic_sources_apart. change col with (fst (col, period)).
  apply in_map. exact Hin.
Qed.

(** X8.  Each of the four calendar columns [month], [day_of_year],
    [week_of_year] and [day_of_week] is encoded, row by row, as the sine and
    the cosine of its value over a fixed period, 12, 365, 52 and 7: the
    period of [day_of_year] is 365 in leap years too, and an encoding is
    missing exactly where the calendar value is. *)
Theorem cyclic_encoding (df out : DataFrame) :
  create_temporal_features df = Ok out ->
  forall col period,
    In (col, period) [("month", 12); ("day_of_year", 365);
                      ("week_of_year", 52); ("day_of_week", 7)] ->
    forall i,
      cell_at out (col ++ "_sin")%string i
      = lift_float (fun q => sin_turn (q / inject_Z period)) (cell_at out col i)
      /\
      cell_at out (col ++ "_cos")%string i
      = lift_float (fun q => cos_turn (q / inject_Z period)) (cell_at out col i).
Proof.
  intros H col period Hin i.
  destruct (temporal_cyclic_columns _ _ H col period Hin) as (x & Hx & Hs & Hc).
  unfold cell_at. rewrite Hx, Hs, Hc.
  split.
  - change NaN with (lift_float (fun q => sin_turn (q / inject_Z period)) NaN)
      at 1.
    apply map_nth.
  - change NaN with (lift_float (fun q => cos_turn (q / inject_Z period)) NaN)
      at 1.
    apply map_nth.
Qed.

(** X9.  A record whose date is missing raises nothing and receives no
    temporal feature: its calendar fields, its season and its eight cyclic
    encodings are all missing. *)
Theorem undated_record_has_no_temporal_feature (df out : DataFrame)
  (dates : series) :
  create_temporal_features df = Ok out ->
  get_col df "date" = Some dates ->
  forall i, nth_error dates i = Some NaN ->
  forall n, In n temporal_names -> cell_at out n i = NaN.
Proof.
  intros H Hd i Hi n Hn.
  destruct (temporal_calendar_columns _ _ _ H Hd)
    as (C1 & C2 & C3 & C4 & C5 & C6).
  assert (forall field, nth i (map (calendar_cell field) dates) NaN = NaN) as Cal.
  { intros field.
    change NaN with (calendar_cell field NaN) at 1. rewrite map_nth.
    rewrite (nth_error_nth _ _ _ Hi). reflexivity. }
  assert (forall col period, In (col, period) cyclic_periods ->
            cell_at out col i = NaN ->
            cell_at out (col ++ "_sin")%string i = NaN /\
            cell_at out (col ++ "_cos")%string i = NaN) as Cyc.
  { intros col period Hin Hc.
    destruct (temporal_cyclic_columns _ _ H col period Hin) as (x & Hx & Hs & Hco).
    unfold cell_at in *. rewrite Hx in Hc. rewrite Hs, Hco.
    split.
    - change NaN with (lift_float (fun q => sin_turn (q / inject_Z period)) NaN)
        at 1.
      rewrite map_nth, Hc. reflexivity.
    - change NaN with (lift_float (fun q => cos_turn (q / inject_Z period)) NaN)
        at 1.
      rewrite map_nth, Hc. reflexivity. }
  assert (cell_at out "month" i = NaN) as M
    by (unfold cell_at; rewrite C1; apply Cal).
  assert (cell_at out "day_of_year" i = NaN) as D
    by (unfold cell_at; rewrite C3; apply Cal).
  assert (cell_at out "week_of_year" i = NaN) as W
    by (unfold cell_at; rewrite C4; apply Cal).
  assert (cell_at out "day_of_week" i = NaN) as K
    by (unfold cell_at; rewrite C5; apply Cal).
  destruct (Cyc "month" 12 ltac:(simpl; auto) M) as [S1 S2].
  destruct (Cyc "day_of_year" 365 ltac:(simpl; auto) D) as [S3 S4].
  destruct (Cyc "week_of_year" 52 ltac:(simpl; auto) W) as [S5 S6].
  destruct (Cyc "day_of_week" 7 ltac:(simpl; auto) K) as [S7 S8].
  unfold temporal_names in Hn. simpl in Hn.
  repeat (destruct Hn as [<- | Hn]; [try assumption |]); try contradiction.
  - unfold cell_at. rewrite C2. apply Cal.
  - unfold cell_at. rewrite C6.
    change NaN with (season_of_cell NaN) at 1. rewrite map_nth, Cal. reflexivity.
Qed.

(** X10.  The temporal feature builder returns a dataset exactly when the
    frame has a [date] column that holds only timestamps and missing
    cells; without the column it raises a [KeyError] naming [date]. *)
Theorem temporal_features_succeed_iff (df : DataFrame) :
  ((exists out, create_temporal_features df = Ok out) <->
   exists dates, get_col df "date" = Some dates /\
                 Forall ts_or_missing dates) /\
  (has_col df "date" = false ->
   create_temporal_features df = Raise (KeyError ["date"])).
Proof.
  split; [split |].
  - intros (out & H). destruct (temporal_inv _ _ H) as (dates & Hd & F & _).
    eauto.
  - intros (dates & Hd & F). eapply temporal_ok; eauto.
  - intros H. apply has_col_false in H.
    unfold create_temporal_features, add_dt, getitem. rewrite H. reflexivity.
Qed.

(** X11.  The temporal feature builder only adds: every column of the
    input other than the fourteen it writes comes back unchanged, the
    number of rows is kept, and the fourteen new columns follow the input's
    in the order they are written (a name the input already has is
    overwritten where it stands). *)
Theorem temporal_features_only_add (df out : DataFrame) :
  create_temporal_features df = Ok out ->
  (forall c, ~ In c temporal_names -> get_col out c = get_col df c) /\
  columns out = add_names (columns df) temporal_names /\
  (rectangular df -> rectangular out /\ nrows out = nrows df).
Proof.
  intros H. destruct (temporal_inv _ _ H) as (dates & Hd & F & Hf).
  split; [| split].
  - intros c Hc. unfold temporal_names in Hc. rewrite in_app_iff in Hc.
    rewrite (cyclic_fold_frame _ _ _ Hf) by tauto.
    apply calendar_frame_other. tauto.
  - assert (forall l d d', foldM cyclic_step l d = Ok d' ->
              columns d' = add_names (columns d) (flat_map cyclic_names l)) as Cf.
    { induction l as [| [col m] l IH]; intros d d' Hl.
      - injection Hl as <-. reflexivity.
      - cbn [foldM] in Hl. inv_bind Hl. rewrite (IH _ _ Hl).
        change (flat_map cyclic_names ((col, m) :: l))
          with (cyclic_names (col, m) ++ flat_map cyclic_names l).
        rewrite add_names_app. f_equal.
        unfold cyclic_step in E. inv_bind E. injection E as <-.
        rewrite !columns_set_col. reflexivity. }
    rewrite (Cf _ _ _ Hf). unfold temporal_names.
    rewrite (add_names_app _ _ (flat_map cyclic_names cyclic_periods)).
    f_equal. unfold calendar_frame. rewrite !columns_set_col. reflexivity.
  - intros R.
    assert (List.length dates = nrows df) as Ld
      by (eapply rectangular_get_col; eauto).
    assert (rectangular (calendar_frame df dates) /\
            nrows (calendar_frame df dates) = nrows df) as [Rc Nc].
    { unfold calendar_frame.
      assert (forall d n (g : cell -> cell),
                rectangular d /\ nrows d = nrows df ->
                rectangular (set_col d n (map g dates)) /\
                nrows (set_col d n (map g dates)) = nrows df) as Put.
      { intros d n g [Rd Nd].
        assert (List.length (map g dates) = nrows d) as L
          by (rewrite length_map; congruence).
        split; [apply rectangular_set_col; assumption |].
        rewrite nrows_set_col by exact L. exact Nd. }
      rewrite (map_map (calendar_cell month) season_of_cell).
      repeat apply Put. auto. }
    assert (forall l d d', rectangular d -> foldM cyclic_step l d = Ok d' ->
              rectangular d' /\ nrows d' = nrows d) as Rf.
    { induction l as [| cm l IH]; intros d d' Rd Hl.
      - injection Hl as <-. auto.
      - cbn [foldM] in Hl. inv_bind Hl.
        assert (rectangular a /\ nrows a = nrows d) as [Ra Na].
        { destruct cm as [col m]. unfold cyclic_step in E. inv_bind E.
          injection E as <-. apply getitem_ok in E0, E2.
          apply mapM_length in E1, E3.
          assert (List.length a1 = nrows d) as L1
            by (rewrite E1; eapply rectangular_get_col; eauto).
          pose proof (rectangular_set_col _ (col ++ "_sin")%string _ Rd L1) as R1.
          pose proof (nrows_set_col _ (col ++ "_sin")%string _ L1) as N1.
          assert (List.length a3 = nrows (set_col d (col ++ "_sin")%string a1))
            as L2 by (rewrite E3; eapply rectangular_get_col; eauto).
          split; [apply rectangular_set_col; assumption |].
          rewrite nrows_set_col by exact L2. exact N1. }
        destruct (IH _ _ Ra Hl) as [R' N']. split; [exact R' | congruence]. }
    destruct (Rf _ _ _ Rc Hf) as [Ro No]. split; [exact Ro | congruence].
Qed.

(** X12.  The calendar fields of a dated record are those of its date:
    month, year, day of the year, ISO week and day of the week counted from
    Monday. *)
Theorem calendar_fields (df out : DataFrame) (dates : series) :
  create_temporal_features df = Ok out ->
  get_col df "date" = Some dates ->
  forall i d, nth_error dates i = Some (Ts d) ->
    cell_at out "month" i = Num (inject_Z (month d)) /\
    cell_at out "year" i = Num (inject_Z (year d)) /\
    cell_at out "day_of_year" i = Num (inject_Z (dayofyear d)) /\
    cell_at out "week_of_year" i = Num (inject_Z (isoweek d)) /\
    cell_at out "day_of_week" i = Num (inject_Z (dayofweek d)).
Proof.
  intros H Hd i d Hi.
  destruct (temporal_calendar_columns _ _ _ H Hd)
    as (C1 & C2 & C3 & C4 & C5 & _).
  assert (forall field,
            nth i (map (calendar_cell field) dates) NaN
            = Num (inject_Z (field d))) as Cal.
  { intros field.
    change NaN with (calendar_cell field NaN) at 1. rewrite map_nth.
    rewrite (nth_error_nth _ _ _ Hi). reflexivity. }
  unfold cell_at. rewrite C1, C2, C3, C4, C5, !Cal. auto.
Qed.

(** ** The constructor *)

Lemma to_datetime_inv (raw parsed : series) :
  to_datetime raw = Ok parsed ->
  List.length parsed = List.length raw /\
  Forall ts_or_missing parsed /\
  forall i, ts_or_missing (nth i raw NaN) -> nth i parsed NaN = nth i raw NaN.
Proof.
  unfold to_datetime. revert parsed.
  induction raw as [| c raw IH]; intros parsed H.
  - injection H as <-. split; [reflexivity |]. split; [constructor |].
    intros i _. reflexivity.
  - cbn [mapM] in H. inv_bind H. injection H as <-.
    destruct (IH _ E0) as (L & F & K).
    split; [simpl; congruence |]. split.
    + constructor; [| exact F].
      unfold to_datetime_cell in E.
      destruct c as [| q | t | d].
      * injection E as <-. left. reflexivity.
      * inv_bind E. injection E as <-. right. eauto.
      * inv_bind E. injection E as <-. right. eauto.
      * injection E as <-. right. eauto.
    + intros [| i] Hi; [| apply K; exact Hi].
      simpl in *. destruct Hi as [-> | (d & ->)]; simpl in E;
        injection E as <-; reflexivity.
Qed.

Lemma to_datetime_fixed (dates : series) :
  Forall ts_or_missing dates -> to_datetime dates = Ok dates.
Proof.
  unfold to_datetime. induction 1 as [| c dates Hc F IH]; [reflexivity |].
  cbn [mapM]. rewrite IH.
  destruct Hc as [-> | (d & ->)]; reflexivity.
Qed.

Lemma set_col_same (df : DataFrame) (n : string) (v : series) :
  get_col df n = Some v -> set_col df n v = df.
Proof.
  induction df as [| [m w] df IH]; simpl; [discriminate |].
  destruct (String.eqb m n) eqn:E.
  - intros H. injection H as ->. reflexivity.
  - intros H. rewrite IH by exact H. reflexivity.
Qed.

Lemma set_col_twice (df : DataFrame) (n : string) (v w : series) :
  set_col (set_col df n v) n w = set_col df n w.
Proof.
  induction df as [| [m u] df IH]; simpl.
  - rewrite String.eqb_refl. reflexivity.
  - destruct (String.eqb m n) eqn:E; simpl; rewrite E; [reflexivity |].
    rewrite IH. reflexivity.
Qed.

(** X13.  The constructor needs a [date] column, and raises a [KeyError]
    naming it otherwise.  When it succeeds it has replaced the [date]
    column only, by timestamps and missing cells, leaving the cells that
    already were so as they are; the temporal feature builder then runs on
    the result without raising, and constructing again changes nothing. *)
Theorem constructor_parses_dates (df : DataFrame) :
  (has_col df "date" = false -> init df = Raise (KeyError ["date"])) /\
  forall d, init df = Ok d ->
    (exists raw parsed,
        get_col df "date" = Some raw /\ get_col d "date" = Some parsed /\
        List.length parsed = List.length raw /\
        Forall ts_or_missing parsed /\
        forall i, ts_or_missing (nth i raw NaN) ->
                  nth i parsed NaN = nth i raw NaN) /\
    (forall c, c <> "date" -> get_col d c = get_col df c) /\
    columns d = columns df /\
    init d = Ok d /\
    exists out, create_temporal_features d = Ok out.
Proof.
  split.
  - intros H. apply has_col_false in H. unfold init, getitem. rewrite H.
    reflexivity.
  - intros d H. unfold init in H. inv_bind H. injection H as <-.
    rename a into raw, a0 into parsed. apply getitem_ok in E.
    destruct (to_datetime_inv _ _ E0) as (L & F & K).
    split; [| split; [| split; [| split]]].
    + exists raw, parsed. rewrite get_col_set_col_same. auto.
    + intros c Hc. apply get_col_set_col_other. congruence.
    + rewrite columns_set_col.
      assert (mem_string "date" (columns df) = true) as ->; [| reflexivity].
      apply mem_string_In. eapply get_col_columns; eauto.
    + unfold init, getitem. rewrite get_col_set_col_same. cbn [bind].
      rewrite (to_datetime_fixed _ F). cbn [bind].
      rewrite set_col_twice. reflexivity.
    + apply (temporal_ok _ parsed); [apply get_col_set_col_same | exact F].
Qed.

End More.
End FeatureEngineerMore.

(* ================================================================== *)
(** * The order of the groups *)
(* ================================================================== *)

Module OrderFacts.
Import Pandas GroupBy Spec GroupByFacts.

(** ** Insertion sort *)

Section Sort.
Context {A : Type} (leb : A -> A -> bool).
Hypothesis leb_total : forall a b, leb a b = false -> leb b a = true.
Hypothesis leb_trans :
  forall a b c, leb a b = true -> leb b c = true -> leb a c = true.

Lemma insert_In (a x : A) (l : list A) :
  In x (insert leb a l) -> x = a \/ In x l.
Proof.
  intros H. apply (Permutation_in _ (insert_perm leb a l)) in H.
  destruct H as [<- | H]; auto.
Qed.

Lemma insert_sorted (a : A) (l : list A) :
  StronglySorted (fun x y => leb x y = true) l ->
  StronglySorted (fun x y => leb x y = true) (insert leb a l).
Proof.
  induction 1 as [| b l S IH F]; simpl.
  - constructor; constructor.
  - destruct (leb a b) eqn:E.
    + constructor; [constructor; assumption |].
      constructor; [exact E |].
      rewrite Forall_forall in *. intros x Hx. eapply leb_trans; eauto.
    + constructor; [exact IH |].
      rewrite Forall_forall in *. intros x Hx.
      apply insert_In in Hx. destruct Hx as [-> | Hx]; auto.
Qed.

Lemma sort_sorted (l : list A) :
  StronglySorted (fun x y => leb x y = true) (sort leb l).
Proof.
  induction l as [| a l IH]; simpl; [constructor | apply insert_sorted, IH].
Qed.

End Sort.

Lemma mask_filter_sorted {A : Type} (R : A -> A -> Prop) (m : list bool)
  (l : list A) :
  StronglySorted R l -> StronglySorted R (mask_filter m l).
Proof.
  intros S. revert m. induction S as [| a l S IH F]; intros [| b m]; simpl;
    try constructor.
  destruct b; [| apply IH].
  constructor; [apply IH | apply mask_filter_Forall, F].
Qed.

Lemma sorted_map {A B : Type} (R : A -> A -> Prop) (R' : B -> B -> Prop)
  (f : A -> B) (l : list A) :
  (forall a b, In a l -> In b l -> R a b -> R' (f a) (f b)) ->
  StronglySorted R l -> StronglySorted R' (map f l).
Proof.
  intros H S. induction S as [| a l S IH F]; simpl; constructor.
  - apply IH. intros x y Hx Hy. apply H; right; assumption.
  - rewrite Forall_forall in *. intros y Hy. apply in_map_iff in Hy.
    destruct Hy as (x & <- & Hx). apply H; [left | right |]; auto.
Qed.

Lemma sorted_nth {A : Type} (R : A -> A -> Prop) (l : list A) :
  StronglySorted R l ->
  forall i j a b, (i < j)%nat ->
    nth_error l i = Some a -> nth_error l j = Some b -> R a b.
Proof.
  induction 1 as [| x l S IH F]; intros i j a b Hij Hi Hj.
  - destruct i; discriminate Hi.
  - destruct j as [| j]; [lia |]. simpl in Hj.
    destruct i as [| i]; simpl in Hi.
    + injection Hi as <-. rewrite Forall_forall in F. apply F.
      eapply nth_error_In; eauto.
    + apply (IH i j); [lia | assumption | assumption].
Qed.

(** ** The order on cells *)

Lemma date_compare_le (a b : date) :
  date_compare a b <> Gt <->
  (year a < year b \/
   (year a = year b /\
    (month a < month b \/ (month a = month b /\ day a <= day b))))%Z.
Proof.
  unfold date_compare.
  destruct (Z.compare_spec (year a) (year b));
    destruct (Z.compare_spec (month a) (month b));
    destruct (Z.compare_spec (day a) (day b));
    split; intros; try lia; try congruence; try discriminate.
Qed.

Lemma date_compare_eq (a b : date) : date_compare a b = Eq -> a = b.
Proof.
  unfold date_compare. destruct a as [y m d], b as [y' m' d']. simpl.
  destruct (Z.compare_spec y y'); try discriminate.
  destruct (Z.compare_spec m m'); try discriminate.
  destruct (Z.compare_spec d d'); try discriminate.
  intros _. subst. reflexivity.
Qed.

Lemma date_compare_antisym (a b : date) :
  date_compare b a = CompOpp (date_compare a b).
Proof.
  unfold date_compare.
  rewrite (Z.compare_antisym (year a) (year b)),
          (Z.compare_antisym (month a) (month b)),
          (Z.compare_antisym (day a) (day b)).
  destruct (year a ?= year b)%Z, (month a ?= month b)%Z,
           (day a ?= day b)%Z; reflexivity.
Qed.

Lemma string_le_trans (s1 : string) :
  forall s2 s3,
    String.compare s1 s2 <> Gt -> String.compare s2 s3 <> Gt ->
    String.compare s1 s3 <> Gt.
Proof.
  induction s1 as [| a1 s1 IH]; intros [| a2 s2] [| a3 s3]; simpl;
    try congruence; try discriminate.
  unfold Ascii.compare.
  destruct (N.compare_spec (N_of_ascii a1) (N_of_ascii a2));
    destruct (N.compare_spec (N_of_ascii a2) (N_of_ascii a3));
    destruct (N.compare_spec (N_of_ascii a1) (N_of_ascii a3));
    try lia; try congruence; try discriminate.
  apply IH.
Qed.

Lemma cell_compare_antisym (a b : cell) :
  cell_compare b a = CompOpp (cell_compare a b).
Proof.
  destruct a, b; simpl; try reflexivity.
  - symmetry. apply Qcompare_antisym.
  - apply String.compare_antisym.
  - apply date_compare_antisym.
Qed.

Lemma cell_le_trans (a b c : cell) :
  cell_compare a b <> Gt -> cell_compare b c <> Gt -> cell_compare a c <> Gt.
Proof.
  destruct a as [| p | s | d], b as [| q | t | e], c as [| r | u | f]; simpl;
    try congruence; try discriminate.
  - rewrite <- !Qle_alt. apply Qle_trans.
  - apply string_le_trans.
  - rewrite !date_compare_le. lia.
Qed.

Lemma cell_lt_le (a b c : cell) :
  cell_compare a b = Lt -> cell_compare b c <> Gt -> cell_compare a c = Lt.
Proof.
  intros H1 H2. destruct (cell_compare a c) eqn:E; [| reflexivity |];
    exfalso;
    (assert (cell_compare c a <> Gt) as H3
       by (rewrite (cell_compare_antisym a c), E; discriminate));
    pose proof (cell_le_trans _ _ _ H2 H3) as H4;
    rewrite (cell_compare_antisym a b), H1 in H4; apply H4; reflexivity.
Qed.

Lemma cell_le_lt (a b c : cell) :
  cell_compare a b <> Gt -> cell_compare b c = Lt -> cell_compare a c = Lt.
Proof.
  intros H1 H2. destruct (cell_compare a c) eqn:E; [| reflexivity |];
    exfalso;
    (assert (cell_compare c a <> Gt) as H3
       by (rewrite (cell_compare_antisym a c), E; discriminate));
    pose proof (cell_le_trans _ _ _ H3 H1) as H4;
    rewrite (cell_compare_antisym b c), H2 in H4; apply H4; reflexivity.
Qed.

Lemma cell_eq_eq (a b c : cell) :
  cell_compare a b = Eq -> cell_compare b c = Eq -> cell_compare a c = Eq.
Proof.
  intros H1 H2.
  assert (cell_compare a c <> Gt) as L
    by (apply (cell_le_trans a b c); [rewrite H1 | rewrite H2]; discriminate).
  assert (cell_compare c a <> Gt) as G.
  { apply (cell_le_trans c b a).
    - rewrite (cell_compare_antisym b c), H2. discriminate.
    - rewrite (cell_compare_antisym a b), H1. discriminate. }
  rewrite (cell_compare_antisym a c) in G.
  destruct (cell_compare a c); [reflexivity | | congruence].
  exfalso. apply G. reflexivity.
Qed.

Lemma cell_leb_le (a b : cell) : cell_leb a b = true <-> cell_compare a b <> Gt.
Proof.
  unfold cell_leb. destruct (cell_compare a b); split; intros;
    congruence || discriminate || reflexivity.
Qed.

Lemma cell_leb_total (a b : cell) : cell_leb a b = false -> cell_leb b a = true.
Proof.
  unfold cell_leb. rewrite (cell_compare_antisym a b).
  destruct (cell_compare a b); simpl; congruence.
Qed.

Lemma cell_leb_trans (a b c : cell) :
  cell_leb a b = true -> cell_leb b c = true -> cell_leb a c = true.
Proof. rewrite !cell_leb_le. apply cell_le_trans. Qed.

Lemma key_leb_spec (a b : key) :
  key_leb a b = true <->
  cell_compare (fst a) (fst b) = Lt \/
  (cell_compare (fst a) (fst b) = Eq /\ cell_compare (snd a) (snd b) <> Gt).
Proof.
  unfold key_leb. rewrite <- cell_leb_le.
  destruct (cell_compare (fst a) (fst b)); split; intros H.
  - right. auto.
  - destruct H as [H | [_ H]]; [discriminate | exact H].
  - left. reflexivity.
  - reflexivity.
  - discriminate.
  - destruct H as [H | [H _]]; discriminate.
Qed.

Lemma key_leb_total (a b : key) : key_leb a b = false -> key_leb b a = true.
Proof.
  unfold key_leb, cell_leb.
  rewrite (cell_compare_antisym (fst a) (fst b)),
          (cell_compare_antisym (snd a) (snd b)).
  destruct (cell_compare (fst a) (fst b)), (cell_compare (snd a) (snd b));
    simpl; congruence.
Qed.

Lemma key_leb_trans (a b c : key) :
  key_leb a b = true -> key_leb b c = true -> key_leb a c = true.
Proof.
  rewrite !key_leb_spec.
  intros [H1 | [H1 H1']] [H2 | [H2 H2']].
  - left. apply (cell_lt_le _ _ _ H1). rewrite H2. discriminate.
  - left. apply (cell_lt_le _ _ _ H1). rewrite H2. discriminate.
  - left. apply (cell_le_lt _ (fst b)); [rewrite H1; discriminate | exact H2].
  - right. split; [apply (cell_eq_eq _ _ _ H1 H2) |].
    apply (cell_le_trans _ _ _ H1' H2').
Qed.

(** The groups come in ascending order of their key, as [groupby] sorts
    them. *)
Lemma group_keys_sorted (keys : list key) :
  StronglySorted (fun a b => key_leb a b = true) (group_keys keys).
Proof.
  unfold group_keys. apply sort_sorted; [exact key_leb_total | exact key_leb_trans].
Qed.

Lemma single_keys_sorted (l : series) :
  StronglySorted (fun a b => cell_leb a b = true) (single_keys l).
Proof.
  unfold single_keys.
  apply sort_sorted; [exact cell_leb_total | exact cell_leb_trans].
Qed.

End OrderFacts.

(* ================================================================== *)
(** * More of the forecaster *)
(* ================================================================== *)

Module ForecasterMore.
Import Pandas GroupBy Spec DengueProphetForecaster.
Import PandasFacts FillFacts GroupByFacts FeatureEngineerFacts.
Import ForecasterSpec FeatureEngineerMore OrderFacts.

Section More.
Context {prim : Primitives} {engine : Engine}.

(** ** The cities of a prepared dataset *)

Lemma single_keys_In (l : series) (c : cell) :
  In c (single_keys l) <-> In c l /\ notna c = true.
Proof.
  unfold single_keys. split.
  - intros H. apply (Permutation_in _ (sort_perm _ _)) in H.
    apply (proj1 (dedup_In cell_eqb cell_eqb_eq _ _)) in H.
    apply filter_In in H. exact H.
  - intros H. apply (Permutation_in _ (Permutation_sym (sort_perm _ _))).
    apply (proj2 (dedup_In cell_eqb cell_eqb_eq _ _)). apply filter_In. exact H.
Qed.

Lemma single_keys_NoDup (l : series) : NoDup (single_keys l).
Proof.
  unfold single_keys.
  apply (Permutation_NoDup (Permutation_sym (sort_perm _ _))).
  apply dedup_NoDup; [exact cell_eqb_eq |].
  intros a Ha. apply filter_In in Ha. apply cell_eqb_refl.
  destruct Ha as [_ Ha]. unfold notna in Ha.
  apply negb_true_iff in Ha. exact Ha.
Qed.

Lemma rename_other (target col : string) :
  mem_string col ["date"; "city"; target] = false ->
  rename_one [("date", "ds"); (target, "y")] col = col.
Proof.
  unfold mem_string. cbn [existsb rename_one].
  rewrite !orb_false_iff. intros (H1 & _ & H3 & _).
  rewrite (String.eqb_sym "date" col), H1.
  rewrite (String.eqb_sym target col), H3. reflexivity.
Qed.

Lemma prepare_inv (df : DataFrame) (target : string)
  (prophet_data : list (cell * DataFrame)) :
  target <> "date" -> target <> "city" ->
  prepare_data df target = Ok prophet_data ->
  exists dates cities tvals sums,
    get_col df "date" = Some dates /\ get_col df "city" = Some cities /\
    get_col df target = Some tvals /\
    mapM (fun k => agg_sum (group_rows k (combine dates cities) tvals))
         (group_keys (combine dates cities)) = Ok sums /\
    prophet_data
    = map (fun city =>
             let groups := group_keys (combine dates cities) in
             let m := city_mask city groups in
             (city,
              ("ds", mask_filter m (map fst groups))
              :: ("city", mask_filter m (map snd groups))
              :: ("y", mask_filter m sums)
              :: map (fun col =>
                        (col, mask_filter m
                                (map (fun k =>
                                        agg_first
                                          (group_rows k (combine dates cities)
                                             (column df col)))
                                     groups)))
                     (filter (fun col =>
                                negb (mem_string col ["date"; "city"; target]))
                             (columns df))))
          (single_keys (map snd (group_keys (combine dates cities)))).
Proof.
  intros Hd Hc H. unfold prepare_data in H. inv_bind H.
  rename a into agg, a0 into acities.
  destruct (aggregate_inv _ _ _ E)
    as (dates & cities & tvals & sums & Hdates & Hcities & Htv & Hsums & Hagg).
  exists dates, cities, tvals, sums. do 4 (split; [assumption |]).
  injection H as <-.
  apply String.eqb_neq in Hd as Hd', Hc as Hc'.
  rewrite Hagg in E0. unfold getitem in E0. rewrite !get_col_cons in E0.
  cbn in E0. injection E0 as <-.
  apply map_ext. intros city. cbn zeta. f_equal.
  rewrite Hagg. unfold city_mask. rewrite <- (map_map snd (cell_eqb city)).
  set (m := map (cell_eqb city) (map snd (group_keys (combine dates cities)))).
  assert (rename_one [("date", "ds"); (target, "y")] "date" = "ds") as R1
    by reflexivity.
  assert (rename_one [("date", "ds"); (target, "y")] "city" = "city") as R2
    by (cbn [rename_one]; rewrite Hc'; reflexivity).
  assert (rename_one [("date", "ds"); (target, "y")] target = "y") as R3.
  { cbn [rename_one].
    rewrite (String.eqb_sym "date" target), Hd', String.eqb_refl.
    reflexivity. }
  cbn [filter_rows rename map]. rewrite R1, R2, R3.
  do 3 f_equal.
  rewrite !map_map. apply map_ext_in. intros col Hcol.
  apply filter_In in Hcol. destruct Hcol as [_ Hcol].
  apply negb_true_iff in Hcol. rewrite (rename_other _ _ Hcol). reflexivity.
Qed.

Lemma city_rows_In (city : cell) (groups : list key) (d : cell) :
  In d (mask_filter (city_mask city groups) (map fst groups)) ->
  In (d, city) groups.
Proof.
  unfold city_mask. induction groups as [| [d0 c0] groups IH]; simpl;
    [tauto |].
  destruct (cell_eqb city c0) eqn:E.
  - apply cell_eqb_eq in E. subst c0. intros [<- | H]; auto.
  - auto.
Qed.

Lemma In_city_rows (city : cell) (groups : list key) (d : cell) :
  isna city = false -> In (d, city) groups ->
  In d (mask_filter (city_mask city groups) (map fst groups)).
Proof.
  intros Hn. unfold city_mask.
  induction groups as [| [d0 c0] groups IH]; simpl; [tauto |].
  intros [Heq | H].
  - injection Heq as -> ->. rewrite (cell_eqb_refl _ Hn). left. reflexivity.
  - destruct (cell_eqb city c0); [right |]; auto.
Qed.

Lemma city_rows_NoDup (city : cell) (groups : list key) :
  NoDup groups ->
  NoDup (mask_filter (city_mask city groups) (map fst groups)).
Proof.
  induction 1 as [| [d0 c0] groups Hn Hd IH]; [constructor |].
  unfold city_mask. cbn [map mask_filter snd fst].
  destruct (cell_eqb city c0) eqn:E; [| exact IH].
  apply cell_eqb_eq in E. subst c0.
  constructor; [| exact IH].
  intros Hin. apply Hn. apply city_rows_In. exact Hin.
Qed.

Lemma city_rows_city (city : cell) (groups : list key) :
  mask_filter (city_mask city groups) (map snd groups)
  = repeat city
      (List.length (mask_filter (city_mask city groups) (map fst groups))).
Proof.
  unfold city_mask. induction groups as [| [d0 c0] groups IH]; simpl;
    [reflexivity |].
  destruct (cell_eqb city c0) eqn:E; [| exact IH].
  apply cell_eqb_eq in E. subst c0. simpl. f_equal. exact IH.
Qed.

Lemma mask_filter_same_length {A B : Type} (m : list bool) (a : list A)
  (b : list B) :
  List.length a = List.length b ->
  List.length (mask_filter m a) = List.length (mask_filter m b).
Proof.
  revert a b. induction m as [| x m IH]; intros [| a0 a] [| b0 b] L;
    simpl in *; try reflexivity; try discriminate L.
  destruct x; simpl; rewrite (IH a b) by lia; reflexivity.
Qed.

(** X14.  [prepare_data] hands out one series per city, each city once and
    none of them missing: the cities are those of the records that have
    both a date and a city.  A city's series has the columns [ds], [city]
    and [y] followed by the other columns of the input in their order; its
    [city] column holds the city in every row, it has at least one row, and
    its [ds] column holds each date recorded for the city exactly once. *)
Theorem one_series_per_city (df : DataFrame) (target : string)
  (prophet_data : list (cell * DataFrame)) (dates cities : series) :
  target <> "date" -> target <> "city" ->
  prepare_data df target = Ok prophet_data ->
  get_col df "date" = Some dates -> get_col df "city" = Some cities ->
  NoDup (map fst prophet_data) /\
  (forall city,
     In city (map fst prophet_data) <->
     isna city = false /\
     exists d, isna d = false /\ In (d, city) (combine dates cities)) /\
  forall city series, In (city, series) prophet_data ->
    exists ds ys,
      columns series
      = "ds" :: "city" :: "y"
        :: filter (fun col => negb (mem_string col ["date"; "city"; target]))
                  (columns df) /\
      get_col series "ds" = Some ds /\
      get_col series "city" = Some (repeat city (List.length ds)) /\
      get_col series "y" = Some ys /\
      List.length ys = List.length ds /\
      ds <> [] /\ NoDup ds /\
      forall d, In d ds <-> isna d = false /\ In (d, city) (combine dates cities).
Proof.
  intros Hd Hc H Hdates Hcities.
  destruct (prepare_inv _ _ _ Hd Hc H)
    as (dates' & cities' & tvals & sums & Hdates' & Hcities' & Htv & Hsums & ->).
  rewrite Hdates in Hdates'. injection Hdates' as <-.
  rewrite Hcities in Hcities'. injection Hcities' as <-.
  set (keys := combine dates cities) in *.
  set (groups := group_keys keys) in *.
  assert (forall city,
            In city (single_keys (map snd groups)) <->
            isna city = false /\
            exists d, isna d = false /\ In (d, city) keys) as Cities.
  { intros city. rewrite single_keys_In, in_map_iff. unfold notna.
    rewrite negb_true_iff. split.
    - intros (([d c] & Heq & Hin) & Hn). simpl in Heq. subst c.
      apply group_keys_In in Hin. destruct Hin as [Hin Hv].
      split; [exact Hn |]. exists d. split; [| exact Hin].
      unfold valid_key, notna in Hv. simpl in Hv.
      apply andb_true_iff in Hv. destruct Hv as [Hv _].
      apply negb_true_iff in Hv. exact Hv.
    - intros (Hn & d & Hdn & Hin). split; [| exact Hn].
      exists (d, city). split; [reflexivity |].
      apply group_keys_In. split; [exact Hin |].
      unfold valid_key, notna. simpl. rewrite Hdn, Hn. reflexivity. }
  split; [| split].
  - rewrite map_map. cbn [fst]. rewrite map_id. apply single_keys_NoDup.
  - intros city. rewrite map_map. cbn [fst]. rewrite map_id. apply Cities.
  - intros city series Hin. apply in_map_iff in Hin.
    destruct Hin as (city' & Heq & Hcity). cbn zeta in Heq.
    injection Heq as -> <-.
    apply Cities in Hcity. destruct Hcity as (Hn & d & Hdn & Hin).
    assert (forall d', In d' (mask_filter (city_mask city groups)
                                (map fst groups)) <->
                       isna d' = false /\ In (d', city) keys) as Rows.
    { intros d'. split.
      - intros Hr. apply city_rows_In in Hr. apply group_keys_In in Hr.
        destruct Hr as [Hr Hv]. split; [| exact Hr].
        unfold valid_key, notna in Hv. simpl in Hv.
        apply andb_true_iff in Hv. destruct Hv as [Hv _].
        apply negb_true_iff in Hv. exact Hv.
      - intros [Hn' Hk]. apply In_city_rows; [exact Hn |].
        apply group_keys_In. split; [exact Hk |].
        unfold valid_key, notna. simpl. rewrite Hn', Hn. reflexivity. }
    exists (mask_filter (city_mask city groups) (map fst groups)),
           (mask_filter (city_mask city groups) sums).
    split.
    { unfold columns. cbn [map fst]. rewrite map_map. cbn [fst].
      rewrite map_id. reflexivity. }
    split; [reflexivity |].
    split; [rewrite <- city_rows_city; reflexivity |].
    split; [reflexivity |].
    split.
    { apply mask_filter_same_length. apply mapM_length in Hsums.
      rewrite Hsums, length_map. reflexivity. }
    split.
    { intros Hnil. assert (In d []) as Habs; [| contradiction].
      rewrite <- Hnil. apply Rows. auto. }
    split; [apply city_rows_NoDup, group_keys_NoDup | exact Rows].
Qed.

(** ** Failures and successes of [prepare_data] *)

Lemma mapM_all_ok {A B : Type} (f : A -> result B) (l : list A) :
  (forall a, In a l -> exists b, f a = Ok b) -> exists r, mapM f l = Ok r.
Proof.
  induction l as [| a l IH]; intros H; [exists []; reflexivity |].
  destruct (H a (or_introl eq_refl)) as (b & Hb).
  destruct IH as (r & Hr); [intros x Hx; apply H; right; exact Hx |].
  exists (b :: r). cbn [mapM]. rewrite Hb. cbn [bind]. rewrite Hr. reflexivity.
Qed.

Lemma floats_mask_filter (m : list bool) (v : series) (x : list (option Q)) :
  floats v = Ok x -> floats (mask_filter m v) = Ok (mask_filter m x).
Proof.
  unfold floats. revert m x.
  induction v as [| c v IH]; intros m x H.
  - injection H as <-. destruct m; reflexivity.
  - cbn [mapM] in H. inv_bind H. injection H as <-.
    destruct m as [| b m]; [reflexivity |].
    destruct b; cbn [mask_filter mapM].
    + rewrite E. cbn [bind]. rewrite (IH m _ E0). reflexivity.
    + apply IH. exact E0.
Qed.

(** X15.  [prepare_data] raises a [KeyError] naming the first of [date],
    [city] and the target column that the frame lacks; with the three
    columns and a target that holds only numbers and missing cells it
    returns the cities' series. *)
Theorem prepare_data_outcome (df : DataFrame) (target : string) :
  (has_col df "date" = false ->
   prepare_data df target = Raise (KeyError ["date"])) /\
  (has_col df "date" = true -> has_col df "city" = false ->
   prepare_data df target = Raise (KeyError ["city"])) /\
  (has_col df "date" = true -> has_col df "city" = true ->
   has_col df target = false ->
   prepare_data df target = Raise (KeyError [target])) /\
  (has_col df "date" = true -> has_col df "city" = true ->
   forall tvals x, get_col df target = Some tvals -> floats tvals = Ok x ->
   exists prophet_data, prepare_data df target = Ok prophet_data).
Proof.
  unfold prepare_data, aggregate, getitem, has_col.
  split; [| split; [| split]].
  - destruct (get_col df "date"); [discriminate | reflexivity].
  - destruct (get_col df "date"); [| discriminate].
    destruct (get_col df "city"); [discriminate | reflexivity].
  - destruct (get_col df "date"); [| discriminate].
    destruct (get_col df "city"); [| discriminate].
    destruct (get_col df target); [discriminate | reflexivity].
  - destruct (get_col df "date") as [dates |]; [| discriminate].
    destruct (get_col df "city") as [cities |]; [| discriminate].
    intros _ _ tvals x Ht Hx. rewrite Ht. cbn [bind].
    destruct (mapM_all_ok
                (fun k => agg_sum (group_rows k (combine dates cities) tvals))
                (group_keys (combine dates cities))) as (sums & Hs).
    { intros k _. unfold agg_sum, group_rows.
      rewrite (floats_mask_filter _ _ _ Hx). cbn [bind]. eauto. }
    rewrite Hs. cbn [bind get_col].
    change (String.eqb "date" "city") with false.
    change (String.eqb "city" "city") with true. cbn iota.
    eexists. reflexivity.
Qed.

(** ** Nothing to forecast *)

Lemma group_keys_none (keys : list key) :
  Forall (fun k => isna (fst k) = true \/ isna (snd k) = true) keys ->
  group_keys keys = [].
Proof.
  intros H. unfold group_keys.
  assert (filter valid_key keys = []) as ->; [| reflexivity].
  induction H as [| k keys Hk F IH]; [reflexivity |].
  simpl. rewrite IH.
  assert (valid_key k = false) as ->; [| reflexivity].
  unfold valid_key, notna. destruct Hk as [-> | ->];
    [reflexivity | apply andb_false_r].
Qed.

(** X16.  When no record has both a date and a city, and so when the
    dataset has no record at all, there is no city to forecast and the run
    ends with the [ValueError] of [pd.concat] on an empty list, not with an
    empty table. *)
Theorem nothing_to_forecast (df : DataFrame) (forecast_periods : nat)
  (add_regressors : bool) (dates cities : series) :
  get_col df "date" = Some dates -> get_col df "city" = Some cities ->
  has_col df "arbovirus_bool" = true ->
  Forall (fun k => isna (fst k) = true \/ isna (snd k) = true)
         (combine dates cities) ->
  generate_forecast_dataframe df forecast_periods add_regressors
  = Raise (ValueError "No objects to concatenate").
Proof.
  intros Hd Hc Ht F.
  unfold generate_forecast_dataframe, prepare_data, aggregate, getitem.
  rewrite Hd, Hc. unfold has_col in Ht.
  destruct (get_col df "arbovirus_bool") as [tvals |]; [| discriminate].
  cbn [bind]. rewrite (group_keys_none _ F). cbn [mapM bind map get_col].
  change (String.eqb "date" "city") with false.
  change (String.eqb "city" "city") with true. cbn iota.
  reflexivity.
Qed.

(** ** What the training step writes *)

Lemma carry_fold_frame (pdf : DataFrame) (l : list string) :
  forall future future',
    foldM (carry_forward pdf) l future = Ok future' ->
    forall c, ~ In c (registered pdf l) ->
              get_col future' c = get_col future c.
Proof.
  unfold registered.
  induction l as [| r l IH]; cbn [foldM filter]; intros future future' H c Hc.
  - injection H as <-. reflexivity.
  - inv_bind H.
    destruct (carry_forward_inv _ _ _ _ E) as [[Hf ->] | (hist & Hh & _ & ->)].
    + rewrite Hf in Hc. apply (IH _ _ H). exact Hc.
    + assert (has_col pdf r = true) as Hr by (unfold has_col; rewrite Hh; auto).
      rewrite Hr in Hc.
      rewrite (IH _ _ H) by (intros Hin; apply Hc; right; exact Hin).
      unfold set_scalar. apply get_col_set_col_other.
      intros ->. apply Hc. left. reflexivity.
Qed.

Lemma carry_fold_columns (pdf : DataFrame) (l : list string) :
  forall future future',
    foldM (carry_forward pdf) l future = Ok future' ->
    columns future' = add_names (columns future) (registered pdf l).
Proof.
  unfold registered.
  induction l as [| r l IH]; cbn [foldM filter]; intros future future' H.
  - injection H as <-. reflexivity.
  - inv_bind H.
    destruct (carry_forward_inv _ _ _ _ E) as [[Hf ->] | (hist & Hh & _ & ->)].
    + rewrite Hf. apply (IH _ _ H).
    + assert (has_col pdf r = true) as -> by (unfold has_col; rewrite Hh; auto).
      rewrite (IH _ _ H). unfold set_scalar. rewrite columns_set_col.
      reflexivity.
Qed.

(** X17.  The training step hands the engine exactly the regressors that
    are columns of the city's series, whatever [add_regressors] says, and
    the frame it predicts from is the engine's future frame with those
    regressors written: every other column, the dates among them, is the
    engine's own, and a regressor that is not a column of the series is
    passed over without an error. *)
Theorem only_registered_regressors_written (prophet_df : DataFrame)
  (forecast_periods : nat) (add_regressors : bool)
  (regressors : option (list string)) (m : model) (forecast : DataFrame) :
  train_prophet_model prophet_df forecast_periods add_regressors regressors
  = Ok (m, forecast) ->
  let used := registered prophet_df
                (match regressors with
                 | None => default_regressors
                 | Some l => l
                 end) in
  fit params used prophet_df = Ok m /\
  exists future,
    predict m future = Ok forecast /\
    (forall c, ~ In c used ->
       get_col future c
       = get_col (make_future_dataframe m forecast_periods) c) /\
    columns future
    = add_names (columns (make_future_dataframe m forecast_periods)) used.
Proof.
  unfold train_prophet_model, prediction_input. intros H. inv_bind H.
  inv_bind E. injection E as <-. cbn [fst snd] in *.
  injection H as Hm Hf. subst a1 a0.
  rename a2 into future, E2 into Hfold.
  cbn zeta. split; [exact E1 |].
  exists future. split; [exact E0 |]. split.
  - intros c Hc. apply (carry_fold_frame _ _ _ _ Hfold). exact Hc.
  - apply (carry_fold_columns _ _ _ _ Hfold).
Qed.

(** ** Conservation of the target *)

Lemma cell_total_cons (c : cell) (s : series) :
  (cell_total (c :: s) == cell_total [c] + cell_total s)%Q.
Proof. destruct c; unfold cell_total; cbn [fold_right]; ring. Qed.

Lemma floats_total (g : series) (x : list (option Q)) :
  floats g = Ok x -> (Qsum (observations x) == cell_total g)%Q.
Proof.
  unfold floats, Qsum, cell_total. revert x.
  induction g as [| c g IH]; intros x H.
  - injection H as <-. reflexivity.
  - cbn [mapM] in H. inv_bind H. injection H as <-.
    specialize (IH _ E0).
    destruct c; simpl in E; try discriminate E; injection E as <-;
      cbn [observations fold_right]; rewrite IH; reflexivity.
Qed.

Lemma Qsum_cons (q : Q) (l : list Q) : Qsum (q :: l) = (q + Qsum l)%Q.
Proof. reflexivity. Qed.

Lemma Qsum_ext {A : Type} (f g : A -> Q) (l : list A) :
  (forall a, f a == g a)%Q -> (Qsum (map f l) == Qsum (map g l))%Q.
Proof.
  intros H. induction l as [| a l IH]; [reflexivity |].
  cbn [map]. rewrite !Qsum_cons, IH, (H a). reflexivity.
Qed.

Lemma Qsum_plus {A : Type} (f g : A -> Q) (l : list A) :
  (Qsum (map (fun a => f a + g a) l) == Qsum (map f l) + Qsum (map g l))%Q.
Proof.
  induction l as [| a l IH]; [reflexivity |].
  cbn [map]. rewrite !Qsum_cons, IH. ring.
Qed.

Lemma Qsum_zero {A : Type} (l : list A) :
  (Qsum (map (fun _ => 0) l) == 0)%Q.
Proof.
  induction l as [| a l IH]; [reflexivity |].
  cbn [map]. rewrite Qsum_cons, IH. ring.
Qed.

(** The target of the aggregated rows of a city adds up to the totals of
    the city's groups. *)
Lemma sums_total (city : cell) (keys : list key) (tvals : series)
  (G : list key) :
  forall sums,
    mapM (fun k => agg_sum (group_rows k keys tvals)) G = Ok sums ->
    (cell_total (mask_filter (city_mask city G) sums)
     == Qsum (map (fun k => if cell_eqb city (snd k)
                            then cell_total (group_rows k keys tvals)
                            else 0) G))%Q.
Proof.
  induction G as [| k G IH]; intros sums H.
  - injection H as <-. reflexivity.
  - cbn [mapM] in H. inv_bind H. injection H as <-.
    unfold agg_sum in E. inv_bind E. injection E as <-.
    apply floats_total in E1. specialize (IH _ E0).
    unfold city_mask in *. cbn [map mask_filter]. rewrite Qsum_cons.
    destruct (cell_eqb city (snd k)).
    + rewrite cell_total_cons, IH.
      unfold cell_total at 1. cbn [fold_right].
      rewrite Qred_correct, E1. ring.
    + rewrite IH. ring.
Qed.

(** Among distinct groups at most one matches a record. *)
Lemma one_match (P : key -> bool) (k' : key) (a : Q) (G : list key) :
  NoDup G ->
  (Qsum (map (fun k => if P k && key_eqb k k' then a else 0) G)
   == if existsb (fun k => P k && key_eqb k k') G then a else 0)%Q.
Proof.
  induction 1 as [| k G Hn Hd IH]; [reflexivity |].
  cbn [map existsb]. rewrite Qsum_cons.
  destruct (P k && key_eqb k k') eqn:E.
  - apply andb_true_iff in E. destruct E as [_ E].
    apply key_eqb_eq in E. subst k'.
    assert (existsb (fun k0 => P k0 && key_eqb k0 k) G = false) as Hex.
    { apply not_true_is_false. intros Hex. apply existsb_exists in Hex.
      destruct Hex as (k0 & Hin & Hk0).
      apply andb_true_iff in Hk0. destruct Hk0 as [_ Hk0].
      apply key_eqb_eq in Hk0. subst k0. contradiction. }
    rewrite Hex in IH. rewrite IH. cbn [orb]. ring.
  - rewrite IH. cbn [orb]. ring.
Qed.

(** The totals of distinct groups add up to the total of the records that
    fall in one of them. *)
Lemma groups_total (P : key -> bool) (G : list key) :
  NoDup G ->
  forall keys tvals,
    (Qsum (map (fun k => if P k
                         then cell_total (group_rows k keys tvals)
                         else 0) G)
     == cell_total
          (mask_filter
             (map (fun k' => existsb (fun k => P k && key_eqb k k') G) keys)
             tvals))%Q.
Proof.
  intros HG. induction keys as [| k' keys IH]; intros tvals.
  - cbn [map mask_filter]. unfold group_rows. cbn [map mask_filter].
    rewrite (Qsum_ext _ (fun _ => 0%Q)) by (intros k; destruct (P k); reflexivity).
    apply Qsum_zero.
  - destruct tvals as [| v tvals].
    + cbn [map mask_filter]. unfold group_rows. cbn [map mask_filter].
      rewrite (Qsum_ext _ (fun _ => 0%Q))
        by (intros k; destruct (P k); reflexivity).
      apply Qsum_zero.
    + rewrite (Qsum_ext _
                 (fun k => (if P k && key_eqb k k' then cell_total [v] else 0)
                           + (if P k
                              then cell_total (group_rows k keys tvals)
                              else 0))%Q).
      * rewrite Qsum_plus, (one_match P k' _ G HG), (IH tvals).
        cbn [map mask_filter].
        destruct (existsb (fun k => P k && key_eqb k k') G).
        -- rewrite (cell_total_cons v (mask_filter _ tvals)). reflexivity.
        -- ring.
      * intros k. unfold group_rows. cbn [map mask_filter].
        destruct (P k), (key_eqb k k'); cbn [andb];
          rewrite ?(cell_total_cons v (mask_filter _ tvals)); ring.
Qed.

(** X19.  Aggregation loses and invents nothing: the [y] column of a
    city's series adds up to the total of the target over the records of
    the city that have a date.  A record without a date, or without a city,
    is the only one whose target is dropped. *)
Theorem target_total_is_conserved (df : DataFrame) (target : string)
  (prophet_data : list (cell * DataFrame)) (dates cities tvals : series) :
  target <> "date" -> target <> "city" ->
  prepare_data df target = Ok prophet_data ->
  get_col df "date" = Some dates -> get_col df "city" = Some cities ->
  get_col df target = Some tvals ->
  forall city series, In (city, series) prophet_data ->
    (cell_total (column series "y")
     == cell_total
          (mask_filter
             (map (fun k => notna (fst k) && cell_eqb city (snd k))
                  (combine dates cities))
             tvals))%Q.
Proof.
  intros Hd Hc H Hdates Hcities Htv city series Hin.
  destruct (prepare_inv _ _ _ Hd Hc H)
    as (dates' & cities' & tvals' & sums & Hdates' & Hcities' & Htv' & Hsums
        & ->).
  rewrite Hdates in Hdates'. injection Hdates' as <-.
  rewrite Hcities in Hcities'. injection Hcities' as <-.
  rewrite Htv in Htv'. injection Htv' as <-.
  set (keys := combine dates cities) in *.
  apply in_map_iff in Hin. destruct Hin as (city' & Heq & Hcity).
  cbn zeta in Heq. injection Heq as -> <-.
  apply single_keys_In in Hcity. destruct Hcity as [_ Hn].
  unfold notna in Hn. apply negb_true_iff in Hn.
  change (column _ "y") with (mask_filter (city_mask city (group_keys keys)) sums).
  rewrite (sums_total city keys tvals _ _ Hsums).
  rewrite (groups_total (fun k => cell_eqb city (snd k)) _
             (group_keys_NoDup keys) keys tvals).
  match goal with
  | |- (cell_total (mask_filter ?m1 _) == cell_total (mask_filter ?m2 _))%Q =>
      assert (m1 = m2) as ->; [| reflexivity]
  end.
  apply map_ext_in. intros k' Hk'.
  destruct (notna (fst k') && cell_eqb city (snd k')) eqn:E.
  - apply andb_true_iff in E. destruct E as [E1 E2].
    apply existsb_exists. exists k'.
    assert (valid_key k' = true) as Hv.
    { unfold valid_key. rewrite E1. apply cell_eqb_eq in E2. rewrite <- E2.
      unfold notna. rewrite Hn. reflexivity. }
    split; [apply group_keys_In; auto |].
    rewrite E2, (key_eqb_refl _ Hv). reflexivity.
  - apply not_true_is_false. intros Hex. apply existsb_exists in Hex.
    destruct Hex as (k & Hk & Hm). apply andb_true_iff in Hm.
    destruct Hm as [Hm1 Hm2]. apply key_eqb_eq in Hm2. subst k'.
    apply group_keys_In in Hk. destruct Hk as [_ Hv].
    unfold valid_key in Hv. apply andb_true_iff in Hv.
    destruct Hv as [Hv _]. rewrite Hv, Hm1 in E. discriminate E.
Qed.

(** ** The order of the series *)

(** X20.  The cities are handed out in ascending order, and the rows of a
    city's series in ascending order of their date: of two rows of a
    series the later one has the later date, so that the last row of a
    series is the city's latest day. *)
Theorem series_in_date_order (df : DataFrame) (target : string)
  (prophet_data : list (cell * DataFrame)) :
  target <> "date" -> target <> "city" ->
  prepare_data df target = Ok prophet_data ->
  StronglySorted (fun a b => cell_leb a b = true) (map fst prophet_data) /\
  forall city series, In (city, series) prophet_data ->
    StronglySorted (fun a b => cell_leb a b = true) (column series "ds") /\
    forall i j d e, (i < j)%nat ->
      nth_error (column series "ds") i = Some (Ts d) ->
      nth_error (column series "ds") j = Some (Ts e) ->
      date_compare d e = Lt.
Proof.
  intros Hd Hc H.
  destruct (prepare_inv _ _ _ Hd Hc H)
    as (dates & cities & tvals & sums & Hdates & Hcities & Htv & Hsums & ->).
  set (groups := group_keys (combine dates cities)) in *.
  split.
  - rewrite map_map. cbn [fst]. rewrite map_id. apply single_keys_sorted.
  - intros city series Hin. apply in_map_iff in Hin.
    destruct Hin as (city' & Heq & Hcity). cbn zeta in Heq.
    injection Heq as -> <-.
    change (column _ "ds")
      with (mask_filter (city_mask city groups) (map fst groups)).
    assert (StronglySorted (fun a b => cell_leb a b = true)
              (mask_filter (city_mask city groups) (map fst groups))) as S.
    { rewrite mask_filter_map.
      apply (sorted_map (fun a b => key_leb a b = true)).
      - intros a b _ _ Hab.
        apply key_leb_spec in Hab. apply cell_leb_le.
        destruct Hab as [-> | [-> _]]; discriminate.
      - apply mask_filter_sorted, group_keys_sorted. }
    split; [exact S |].
    intros i j d e Hij Hi Hj.
    pose proof (sorted_nth _ _ S i j _ _ Hij Hi Hj) as L.
    apply cell_leb_le in L. simpl in L.
    destruct (date_compare d e) eqn:E; [| reflexivity | congruence].
    exfalso. apply date_compare_eq in E. subst e.
    assert (NoDup (mask_filter (city_mask city groups) (map fst groups))) as N
      by (apply city_rows_NoDup, group_keys_NoDup).
    rewrite NoDup_nth_error in N.
    assert (i = j) as Heq; [| lia].
    apply N; [| congruence].
    apply nth_error_Some. rewrite Hi. discriminate.
Qed.

(** ** Training on a prepared series *)

Lemma city_mask_length (city : cell) (groups : list key) :
  List.length (city_mask city groups) = List.length groups.
Proof. unfold city_mask. apply length_map. Qed.

Lemma carry_fold_ok (pdf : DataFrame) :
  (forall r v, get_col pdf r = Some v -> v <> []) ->
  forall l future, exists future', foldM (carry_forward pdf) l future = Ok future'.
Proof.
  intros Hne. induction l as [| r l IH]; intros future; cbn [foldM].
  - eexists. reflexivity.
  - unfold carry_forward, has_col, getitem.
    destruct (get_col pdf r) as [v |] eqn:E; cbn [bind].
    + unfold iloc_last. destruct v as [| c v]; [exfalso; eapply Hne; eauto |].
      cbn [bind]. apply IH.
    + apply IH.
Qed.

(** X21.  A series that [prepare_data] hands out is a full table with at
    least one row, so that reading the last value of a regressor never
    fails: once the engine has fitted the series, the frame to predict from
    is built without an error, and the training step fails only if the
    engine's [predict] does. *)
Theorem training_fails_only_in_engine (df : DataFrame) (target : string)
  (prophet_data : list (cell * DataFrame)) (city : cell) (series : DataFrame)
  (forecast_periods : nat) (add_regressors : bool)
  (regressors : option (list string)) :
  target <> "date" -> target <> "city" ->
  prepare_data df target = Ok prophet_data ->
  In (city, series) prophet_data ->
  rectangular series /\ (0 < nrows series)%nat /\
  forall m,
    fit params
        (registered series (match regressors with
                            | None => default_regressors
                            | Some l => l
                            end))
        series = Ok m ->
    exists future,
      prediction_input series forecast_periods regressors = Ok (m, future) /\
      train_prophet_model series forecast_periods add_regressors regressors
      = (forecast <- predict m future ;; Ok (m, forecast)).
Proof.
  intros Hd Hc H Hin.
  destruct (prepare_inv _ _ _ Hd Hc H)
    as (dates & cities & tvals & sums & Hdates & Hcities & Htv & Hsums & ->).
  set (groups := group_keys (combine dates cities)) in *.
  apply in_map_iff in Hin. destruct Hin as (city' & Heq & Hcity).
  cbn zeta in Heq. injection Heq as -> <-.
  set (m := city_mask city groups).
  set (rows := List.length (filter (fun b : bool => b) m)).
  assert (forall A (w : list A), List.length w = List.length groups ->
            List.length (mask_filter m w) = rows) as Len.
  { intros A w L. apply mask_filter_length.
    unfold m. rewrite city_mask_length. congruence. }
  assert (0 < rows)%nat as Pos.
  { apply single_keys_In in Hcity. destruct Hcity as [Hcity Hn].
    unfold notna in Hn. apply negb_true_iff in Hn.
    apply in_map_iff in Hcity. destruct Hcity as ([d c] & Hs & Hk).
    simpl in Hs. subst c.
    pose proof (In_city_rows city groups d Hn Hk) as Hrow. fold m in Hrow.
    rewrite <- (Len _ (map fst groups)) by apply length_map.
    destruct (mask_filter m (map fst groups)); [contradiction | simpl; lia]. }
  match goal with
  | |- rectangular ?s /\ _ => set (series := s)
  end.
  assert (forall n v, In (n, v) series -> List.length v = rows) as Cols.
  { intros n v Hv. unfold series in Hv.
    destruct Hv as [Hv | [Hv | [Hv | Hv]]].
    - injection Hv as _ <-. apply Len, length_map.
    - injection Hv as _ <-. apply Len, length_map.
    - injection Hv as _ <-. apply Len. apply mapM_length in Hsums. exact Hsums.
    - apply in_map_iff in Hv. destruct Hv as (col & Hv & _).
      injection Hv as _ <-. apply Len, length_map. }
  assert (nrows series = rows) as N by (apply (Cols "ds"); left; reflexivity).
  split; [intros n v Hv; rewrite N; eapply Cols; eauto |].
  split; [rewrite N; exact Pos |].
  intros mdl Hfit.
  destruct (carry_fold_ok series) with
    (l := match regressors with
          | None => default_regressors
          | Some l => l
          end)
    (future := make_future_dataframe mdl forecast_periods) as (future & Hf).
  { intros r v Hr ->. apply get_col_In in Hr. apply Cols in Hr.
    simpl in Hr. lia. }
  exists future.
  assert (prediction_input series forecast_periods regressors
          = Ok (mdl, future)) as Hp.
  { unfold prediction_input. rewrite Hfit. cbn [bind]. rewrite Hf.
    reflexivity. }
  split; [exact Hp |].
  unfold train_prophet_model. rewrite Hp. reflexivity.
Qed.

(** X22.  The run reads the case counts from the column [arbovirus_bool]
    and from no other: on a frame with dates and cities but without that
    column it raises a [KeyError] naming it, before any model is
    trained. *)
Theorem forecast_needs_case_column (df : DataFrame) (forecast_periods : nat)
  (add_regressors : bool) :
  has_col df "date" = true -> has_col df "city" = true ->
  has_col df "arbovirus_bool" = false ->
  generate_forecast_dataframe df forecast_periods add_regressors
  = Raise (KeyError ["arbovirus_bool"]).
Proof.
  unfold generate_forecast_dataframe, prepare_data, aggregate, getitem, has_col.
  destruct (get_col df "date"); [| discriminate].
  destruct (get_col df "city"); [| discriminate].
  destruct (get_col df "arbovirus_bool"); [discriminate | reflexivity].
Qed.

(** ** The forecaster's constructor *)

(** X23.  The forecaster's constructor raises a [KeyError] naming [date]
    on a frame without the column, and passes on the parser's error for
    the first date it cannot parse, whatever the dates before it, parsed
    text among them; nothing is parsed twice, so that constructing a
    forecaster from the frame of another changes nothing. *)
Theorem forecaster_constructor (df : DataFrame) :
  (has_col df "date" = false -> init df = Raise (KeyError ["date"])) /\
  (forall raw before c after err,
     get_col df "date" = Some raw -> raw = before ++ c :: after ->
     (forall a, In a before -> exists t, to_datetime_cell a = Ok t) ->
     to_datetime_cell c = Raise err ->
     init df = Raise err) /\
  (forall d, init df = Ok d ->
     (forall c, c <> "date" -> get_col d c = get_col df c) /\ init d = Ok d).
Proof.
  split; [| split].
  - intros H. apply has_col_false in H. unfold init, getitem. rewrite H.
    reflexivity.
  - intros raw before c after err Hraw -> F Hc.
    unfold init, getitem. rewrite Hraw. cbn [bind]. unfold to_datetime.
    rewrite (mapM_app_raise _ _ _ _ err); [reflexivity | exact F | exact Hc].
  - intros d H. unfold init in H. inv_bind H. injection H as <-.
    apply getitem_ok in E.
    destruct (to_datetime_inv _ _ E0) as (_ & F & _).
    split.
    + intros c Hc. apply get_col_set_col_other. congruence.
    + unfold init, getitem. rewrite get_col_set_col_same. cbn [bind].
      rewrite (to_datetime_fixed _ F). cbn [bind].
      rewrite set_col_twice. reflexivity.
Qed.

End More.
End ForecasterMore.

(* ================================================================== *)
(** * The rows of the combined table *)
(* ================================================================== *)

Module ForecastTable.
Import Pandas GroupBy Spec DengueProphetForecaster.
Import PandasFacts FillFacts GroupByFacts FeatureEngineerFacts.
Import ForecasterSpec FeatureEngineerMore OrderFacts ForecasterMore.

Section Table.
Context {prim : Primitives} {engine : Engine}.

(** ** Lists of tagged dates *)









(** ** One city *)




(** ** The table *)



End Table.
End ForecastTable.

(* ================================================================== *)
(** * The further theorems at work on concrete data *)
(* ================================================================== *)

Module MoreRuns.
Import Pandas GroupBy Spec Samples.

Lemma two_cities_rectangular : rectangular two_cities.
Proof. apply rectangularb_sound. vm_compute. reflexivity. Qed.



(** X1 on [two_cities]: 30 degrees on the first row, 36 on the fourth. *)
Lemma optimal_temperature_indicator_witness :
  exists e,
    @FeatureEngineer.repaired_weather_features reference two_cities = Ok e /\
    cell_at e "optimal_mosquito_temp" 0 = Num 1 /\
    cell_at e "optimal_mosquito_temp" 3 <> Num 1.
Proof.
  destruct (@FeatureEngineer.repaired_weather_features reference two_cities)
    as [e | err] eqn:E; [| vm_compute in E; discriminate E].
  exists e. split; [reflexivity |].
  pose proof (@FeatureEngineerMore.optimal_temperature_indicator reference
                two_cities e two_cities_rectangular E) as T.
  split.
  - apply (proj2 (T 0%nat ltac:(simpl; lia))).
    exists 30%Q. split; [reflexivity |]. split; unfold Qle; simpl; lia.
  - intros H. apply (proj2 (T 3%nat ltac:(simpl; lia))) in H.
    destruct H as (q & Hq & _ & Hle). vm_compute in Hq. injection Hq as <-.
    unfold Qle in Hle. simpl in Hle. lia.
Defined.

(** X2 on [two_cities]: rain and a minimum of 22 degrees on the first row,
    no rain on the second. *)
Lemma breeding_conditions_indicator_witness :
  exists e,
    @FeatureEngineer.repaired_weather_features reference two_cities = Ok e /\
    cell_at e "breeding_conditions" 0 = Num 1 /\
    cell_at e "breeding_conditions" 1 <> Num 1.
Proof.
  destruct (@FeatureEngineer.repaired_weather_features reference two_cities)
    as [e | err] eqn:E; [| vm_compute in E; discriminate E].
  exists e. split; [reflexivity |].
  pose proof (@FeatureEngineerMore.breeding_conditions_indicator reference
                two_cities e two_cities_rectangular E) as T.
  split.
  - apply (proj2 (T 0%nat ltac:(simpl; lia))).
    exists 5%Q, 22%Q. split; [reflexivity |]. split; [reflexivity |].
    split; unfold Qlt; simpl; lia.
  - intros H. apply (proj2 (T 1%nat ltac:(simpl; lia))) in H.
    destruct H as (p & t & Hp & _ & Hlt & _). vm_compute in Hp.
    injection Hp as <-. unfold Qlt in Hlt. simpl in Hlt. lia.
Defined.

(** X3 on [two_cities], whose weather columns hold numbers and whose
    context columns are present, and on [no_wind], which cannot return. *)
Lemma weather_features_succeed_witness :
  (exists out,
      @FeatureEngineer.create_weather_features reference two_cities = Ok out) /\
  ~ (exists out,
        @FeatureEngineer.create_weather_features reference no_wind = Ok out).
Proof.
  split.
  - apply (proj1 (@FeatureEngineerMore.weather_features_succeed reference
                    two_cities)).
    + intros c Hc. simpl in Hc.
      destruct Hc as [<- | [<- | [<- | [<- | []]]]];
        (eexists; split; [reflexivity |]);
        repeat (apply Forall_cons; [right; eexists; reflexivity |]);
        apply Forall_nil.
    + intros n Hn. simpl in Hn.
      repeat (destruct Hn as [<- | Hn]; [reflexivity |]). contradiction.
  - intros H.
    apply (proj2 (@FeatureEngineerMore.weather_features_succeed reference
                    no_wind)) in H.
    destruct H as [H _].
    specialize (H "wind_speed_10m_max" ltac:(simpl; auto)).
    discriminate H.
Defined.

(** X4 on [two_cities] without its city column. *)
Lemma absent_city_raises_witness :
  has_col no_city "city" = false /\
  @FeatureEngineer.create_weather_features reference no_city
  = Raise (KeyError ["city"]).
Proof.
  split; [reflexivity |].
  apply (@FeatureEngineerMore.absent_city_raises reference no_city).
  reflexivity.
Defined.

(** X5 on [two_cities] without [country] and [status]: both are named. *)
Lemma absent_context_columns_raise_witness :
  (exists e,
      @FeatureEngineer.repaired_weather_features reference no_country = Ok e) /\
  @FeatureEngineer.create_weather_features reference no_country
  = Raise (KeyError ["country"; "status"]).
Proof.
  apply (@FeatureEngineerMore.absent_context_columns_raise reference no_country).
  - reflexivity.
  - intros c Hc. simpl in Hc.
    destruct Hc as [<- | [<- | [<- | [<- | []]]]];
      eexists; eexists; split; vm_compute; reflexivity.
  - vm_compute. discriminate.
Defined.

(** X6 on [two_cities]: no context value is missing, every row is kept. *)
Lemma returned_rows_are_complete_witness :
  exists out,
    @FeatureEngineer.create_weather_features reference two_cities = Ok out /\
    rectangular out /\ (nrows out <= 6)%nat /\
    exists v, get_col out "country" = Some v /\ populated v.
Proof.
  destruct (@FeatureEngineer.create_weather_features reference two_cities)
    as [out | err] eqn:E; [| vm_compute in E; discriminate E].
  exists out. split; [reflexivity |].
  destruct (@FeatureEngineerMore.returned_rows_are_complete reference
              two_cities out two_cities_rectangular E)
    as (e & mask & _ & _ & _ & _ & R & N & P).
  split; [exact R |]. split; [exact N |].
  apply P. apply mem_string_In. reflexivity.
Defined.

(** X7 on [two_cities]: none of the 29 derived names is taken, they are
    appended in order. *)
Lemma returned_columns_witness :
  exists out,
    @FeatureEngineer.create_weather_features reference two_cities = Ok out /\
    columns out = columns two_cities ++ derived_names.
Proof.
  destruct (@FeatureEngineer.create_weather_features reference two_cities)
    as [out | err] eqn:E; [| vm_compute in E; discriminate E].
  exists out. split; [reflexivity |].
  apply (proj1 (proj2 (@FeatureEngineerMore.returned_columns reference
                         two_cities out E))).
  intros n Hn. apply (disjointb_spec derived_names); [| exact Hn].
  vm_compute. reflexivity.
Defined.

(** X8 on [seasons]: the month of the first row over 12. *)
Lemma cyclic_encoding_witness :
  exists out,
    @FeatureEngineer.create_temporal_features reference seasons = Ok out /\
    cell_at out "month_sin" 0
    = lift_float (fun q => sine (q / 12)) (cell_at out "month" 0) /\
    cell_at out "day_of_year_cos" 0
    = lift_float (fun q => cosine (q / 365)) (cell_at out "day_of_year" 0).
Proof.
  destruct (@FeatureEngineer.create_temporal_features reference seasons)
    as [out | err] eqn:E; [| vm_compute in E; discriminate E].
  exists out. split; [reflexivity |]. split.
  - apply (proj1 (@FeatureEngineerMore.cyclic_encoding reference seasons out E
                    "month" 12%Z ltac:(simpl; auto) 0%nat)).
  - apply (proj2 (@FeatureEngineerMore.cyclic_encoding reference seasons out E
                    "day_of_year" 365%Z ltac:(simpl; auto) 0%nat)).
Defined.

(** X9 on [undated]: the second record has no date. *)
Lemma undated_record_has_no_temporal_feature_witness :
  exists out,
    @FeatureEngineer.create_temporal_features reference undated = Ok out /\
    cell_at out "season" 1 = NaN /\ cell_at out "week_of_year_cos" 1 = NaN.
Proof.
  destruct (@FeatureEngineer.create_temporal_features reference undated)
    as [out | err] eqn:E; [| vm_compute in E; discriminate E].
  exists out. split; [reflexivity |].
  pose proof (@FeatureEngineerMore.undated_record_has_no_temporal_feature
                reference undated out (column undated "date") E eq_refl
                1%nat eq_refl) as T.
  split; apply T; apply mem_string_In; vm_compute; reflexivity.
Defined.

(** X10 on [undated], whose dates are timestamps or missing, and on
    [history], which has no [date] column. *)
Lemma temporal_features_succeed_iff_witness :
  (exists out,
      @FeatureEngineer.create_temporal_features reference undated = Ok out) /\
  @FeatureEngineer.create_temporal_features reference history
  = Raise (KeyError ["date"]).
Proof.
  split.
  - apply (proj2 (proj1 (@FeatureEngineerMore.temporal_features_succeed_iff
                           reference undated))).
    exists (column undated "date"). split; [reflexivity |].
    repeat (apply Forall_cons; [unfold ts_or_missing; eauto |]).
    apply Forall_nil.
  - apply (proj2 (@FeatureEngineerMore.temporal_features_succeed_iff
                    reference history)).
    reflexivity.
Defined.

(** X11 on [undated]: the city column comes back as it was, the fourteen
    temporal columns follow. *)
Lemma temporal_features_only_add_witness :
  exists out,
    @FeatureEngineer.create_temporal_features reference undated = Ok out /\
    get_col out "city" = get_col undated "city" /\
    columns out = ["date"; "city"] ++ temporal_names /\
    nrows out = 3%nat.
Proof.
  destruct (@FeatureEngineer.create_temporal_features reference undated)
    as [out | err] eqn:E; [| vm_compute in E; discriminate E].
  exists out. split; [reflexivity |].
  destruct (@FeatureEngineerMore.temporal_features_only_add reference
              undated out E) as (K & C & R).
  split.
  - apply K. intros Hin. apply mem_string_In in Hin. vm_compute in Hin.
    discriminate Hin.
  - split; [exact C |].
    apply R. apply rectangularb_sound. reflexivity.
Defined.

(** X12 on [undated]: 29 February 2024 is the 60th day of the year, a
    Thursday of week 9. *)
Lemma calendar_fields_witness :
  exists out,
    @FeatureEngineer.create_temporal_features reference undated = Ok out /\
    cell_at out "month" 0 = Num 2 /\
    cell_at out "year" 0 = Num 2024 /\
    cell_at out "day_of_year" 0 = Num 60 /\
    cell_at out "week_of_year" 0 = Num 9 /\
    cell_at out "day_of_week" 0 = Num 3.
Proof.
  destruct (@FeatureEngineer.create_temporal_features reference undated)
    as [out | err] eqn:E; [| vm_compute in E; discriminate E].
  exists out. split; [reflexivity |].
  exact (@FeatureEngineerMore.calendar_fields reference undated out
           (column undated "date") E eq_refl 0%nat (mkDate 2024 2 29) eq_refl).
Defined.

(** X13 on [undated], and on [history], which has no [date] column. *)
Lemma constructor_parses_dates_witness :
  @FeatureEngineer.init reference history = Raise (KeyError ["date"]) /\
  exists d out,
    @FeatureEngineer.init reference undated = Ok d /\
    @FeatureEngineer.init reference d = Ok d /\
    @FeatureEngineer.create_temporal_features reference d = Ok out.
Proof.
  split.
  - apply (proj1 (@FeatureEngineerMore.constructor_parses_dates reference
                    history)).
    reflexivity.
  - destruct (@FeatureEngineer.init reference undated) as [d | err] eqn:E;
      [| vm_compute in E; discriminate E].
    destruct (proj2 (@FeatureEngineerMore.constructor_parses_dates reference
                       undated) d E) as (_ & _ & _ & I & out & T).
    exists d, out. auto.
Defined.

(** X14 on [unordered]: two cities, the record without a city left out. *)
Lemma one_series_per_city_witness :
  exists prophet_data,
    DengueProphetForecaster.prepare_data unordered "arbovirus_bool"
    = Ok prophet_data /\
    NoDup (map fst prophet_data) /\
    In (Str "Abidjan") (map fst prophet_data) /\
    ~ In NaN (map fst prophet_data).
Proof.
  destruct (DengueProphetForecaster.prepare_data unordered "arbovirus_bool")
    as [pd | err] eqn:E; [| vm_compute in E; discriminate E].
  exists pd. split; [reflexivity |].
  destruct (ForecasterMore.one_series_per_city unordered "arbovirus_bool" pd
              (column unordered "date") (column unordered "city")
              ltac:(discriminate) ltac:(discriminate) E eq_refl eq_refl)
    as (N & C & _).
  split; [exact N |]. split.
  - apply C. split; [reflexivity |].
    exists (Ts (mkDate 2024 1 3)). split; [reflexivity |].
    right. left. reflexivity.
  - intros H. apply C in H. destruct H as [H _]. discriminate H.
Defined.

(** X15 on [two_cities] and on the same without its city column or its
    case counts. *)
Lemma prepare_data_outcome_witness :
  DengueProphetForecaster.prepare_data history "y" = Raise (KeyError ["date"]) /\
  DengueProphetForecaster.prepare_data no_city "arbovirus_bool"
  = Raise (KeyError ["city"]) /\
  DengueProphetForecaster.prepare_data no_cases "arbovirus_bool"
  = Raise (KeyError ["arbovirus_bool"]) /\
  exists prophet_data,
    DengueProphetForecaster.prepare_data two_cities "arbovirus_bool"
    = Ok prophet_data.
Proof.
  split; [| split; [| split]].
  - apply (proj1 (ForecasterMore.prepare_data_outcome history "y")).
    reflexivity.
  - apply (proj1 (proj2 (ForecasterMore.prepare_data_outcome no_city
                           "arbovirus_bool"))); reflexivity.
  - apply (proj1 (proj2 (proj2 (ForecasterMore.prepare_data_outcome no_cases
                                  "arbovirus_bool")))); reflexivity.
  - destruct (floats (column two_cities "arbovirus_bool")) as [x | err] eqn:F;
      [| vm_compute in F; discriminate F].
    apply (proj2 (proj2 (proj2 (ForecasterMore.prepare_data_outcome two_cities
                                  "arbovirus_bool")))
             eq_refl eq_refl (column two_cities "arbovirus_bool") x eq_refl F).
Defined.

(** X16 on a dataset with its columns and no record. *)
Lemma nothing_to_forecast_witness :
  @DengueProphetForecaster.generate_forecast_dataframe naive no_records 90 true
  = Raise (ValueError "No objects to concatenate").
Proof.
  apply (@ForecasterMore.nothing_to_forecast naive no_records 90 true
           (column no_records "date") (column no_records "city")
           eq_refl eq_refl eq_refl).
  constructor.
Defined.

(** X17 on [history], which has two of the three default regressors. *)
Lemma only_registered_regressors_written_witness :
  exists m forecast future,
    @DengueProphetForecaster.train_prophet_model naive history 2 false None
    = Ok (m, forecast) /\
    @fit naive DengueProphetForecaster.params
         ["temperature_2m_max"; "precipitation_sum"] history = Ok m /\
    @predict naive m future = Ok forecast /\
    get_col future "ds" = get_col (@make_future_dataframe naive m 2) "ds" /\
    has_col future "wind_speed_10m_max" = false.
Proof.
  destruct (@DengueProphetForecaster.train_prophet_model naive history 2 false
              None) as [[m forecast] | err] eqn:E;
    [| vm_compute in E; discriminate E].
  destruct (@ForecasterMore.only_registered_regressors_written naive history 2
              false None m forecast E) as (F & future & P & K & C).
  exists m, forecast, future.
  split; [reflexivity |]. split; [exact F |]. split; [exact P |].
  split.
  - apply K. intros Hin. apply mem_string_In in Hin. vm_compute in Hin.
    discriminate Hin.
  - apply not_true_is_false. intros H.
    apply FeatureEngineerFacts.has_col_columns in H. rewrite C in H.
    apply mem_string_In in H. vm_compute in E. injection E as <- _.
    vm_compute in H. discriminate H.
Defined.

(** X19 on [unordered]: the first city's three records hold four cases,
    the four cases of the record without a city are in no series. *)
Lemma target_total_is_conserved_witness :
  exists prophet_data series,
    DengueProphetForecaster.prepare_data unordered "arbovirus_bool"
    = Ok prophet_data /\
    In (Str "Abidjan", series) prophet_data /\
    (cell_total (column series "y") == 4)%Q.
Proof.
  destruct (DengueProphetForecaster.prepare_data unordered "arbovirus_bool")
    as [pd | err] eqn:E; [| vm_compute in E; discriminate E].
  assert (exists series, In (Str "Abidjan", series) pd) as (series & Hin).
  { pose proof E as E'. vm_compute in E'. injection E' as <-.
    eexists. left. reflexivity. }
  exists pd, series. split; [reflexivity |]. split; [exact Hin |].
  rewrite (ForecasterMore.target_total_is_conserved unordered "arbovirus_bool"
             pd (column unordered "date") (column unordered "city")
             (column unordered "arbovirus_bool")
             ltac:(discriminate) ltac:(discriminate) E eq_refl eq_refl eq_refl
             (Str "Abidjan") series Hin).
  vm_compute. reflexivity.
Defined.

(** X20 on [unordered]: the first city's series runs from 1 to 3 January
    though the input has 3 January first. *)
Lemma series_in_date_order_witness :
  exists prophet_data series,
    DengueProphetForecaster.prepare_data unordered "arbovirus_bool"
    = Ok prophet_data /\
    In (Str "Abidjan", series) prophet_data /\
    StronglySorted (fun a b => cell_leb a b = true) (map fst prophet_data) /\
    StronglySorted (fun a b => cell_leb a b = true) (column series "ds").
Proof.
  destruct (DengueProphetForecaster.prepare_data unordered "arbovirus_bool")
    as [pd | err] eqn:E; [| vm_compute in E; discriminate E].
  assert (exists series, In (Str "Abidjan", series) pd) as (series & Hin).
  { pose proof E as E'. vm_compute in E'. injection E' as <-.
    eexists. left. reflexivity. }
  exists pd, series. split; [reflexivity |]. split; [exact Hin |].
  destruct (ForecasterMore.series_in_date_order unordered "arbovirus_bool" pd
              ltac:(discriminate) ltac:(discriminate) E) as (S & R).
  split; [exact S |]. apply (R _ _ Hin).
Defined.

(** X21 on [two_cities] with the stand-in engine. *)
Lemma training_fails_only_in_engine_witness :
  exists prophet_data series,
    DengueProphetForecaster.prepare_data two_cities "arbovirus_bool"
    = Ok prophet_data /\
    In (Str "Abidjan", series) prophet_data /\
    rectangular series /\ (0 < nrows series)%nat /\
    exists m future,
      @DengueProphetForecaster.prediction_input naive series 90 None
      = Ok (m, future).
Proof.
  destruct (DengueProphetForecaster.prepare_data two_cities "arbovirus_bool")
    as [pd | err] eqn:E; [| vm_compute in E; discriminate E].
  assert (exists series, In (Str "Abidjan", series) pd) as (series & Hin).
  { pose proof E as E'. vm_compute in E'. injection E' as <-.
    eexists. left. reflexivity. }
  exists pd, series. split; [reflexivity |]. split; [exact Hin |].
  destruct (@ForecasterMore.training_fails_only_in_engine naive two_cities
              "arbovirus_bool" pd (Str "Abidjan") series 90 true None
              ltac:(discriminate) ltac:(discriminate) E Hin) as (R & N & T).
  split; [exact R |]. split; [exact N |].
  destruct (@fit naive DengueProphetForecaster.params
              (DengueProphetForecaster.registered series
                 DengueProphetForecaster.default_regressors) series)
    as [m | err] eqn:F.
  - destruct (T m eq_refl) as (future & P & _). exists m, future. exact P.
  - exfalso. vm_compute in E. injection E as <-.
    destruct Hin as [Hin | [Hin | []]]; [| discriminate Hin].
    injection Hin as <-. vm_compute in F. discriminate F.
Defined.

(** X22 on [two_cities] without its case counts. *)
Lemma forecast_needs_case_column_witness :
  @DengueProphetForecaster.generate_forecast_dataframe naive no_cases 90 true
  = Raise (KeyError ["arbovirus_bool"]).
Proof.
  apply (@ForecasterMore.forecast_needs_case_column naive no_cases 90 true);
    reflexivity.
Defined.

(** X23 on [history], which has no [date] column, on [text_dates], whose
    third date is text that parses and whose fourth is not a date, and on
    [parseable_dates]. *)
Lemma forecaster_constructor_witness :
  @DengueProphetForecaster.init written_dates history
  = Raise (KeyError ["date"]) /\
  @DengueProphetForecaster.init written_dates text_dates
  = Raise (ValueError "Unknown datetime string format") /\
  exists d,
    @DengueProphetForecaster.init written_dates parseable_dates = Ok d /\
    cell_at d "date" 2 = Ts (mkDate 2024 1 3) /\
    get_col d "city" = get_col parseable_dates "city" /\
    @DengueProphetForecaster.init written_dates d = Ok d.
Proof.
  split; [| split].
  - apply (proj1 (@ForecasterMore.forecaster_constructor written_dates
                    history)).
    reflexivity.
  - apply (proj1 (proj2 (@ForecasterMore.forecaster_constructor written_dates
                           text_dates))
             (column text_dates "date")
             [Ts (mkDate 2024 1 1); NaN; Str "2024-01-03"]
             (Str "soon") [Str "2024-01-05"]).
    + reflexivity.
    + reflexivity.
    + intros a Ha. simpl in Ha.
      destruct Ha as [<- | [<- | [<- | []]]]; eexists; vm_compute; reflexivity.
    + reflexivity.
  - destruct (@DengueProphetForecaster.init written_dates parseable_dates)
      as [d | err] eqn:E; [| vm_compute in E; discriminate E].
    destruct (proj2 (proj2 (@ForecasterMore.forecaster_constructor
                              written_dates parseable_dates)) d E) as (K & I).
    exists d. split; [reflexivity |].
    split; [vm_compute in E; injection E as <-; reflexivity |].
    split; [| exact I].
    apply K. discriminate.
Defined.

End MoreRuns.
